(** * Verification of the Telegram init-data verifier and profile sync

    A shallow embedding of [backend/index.js]: the function
    [isValidTelegramData] and the [/api/auth/validate] route handler, with
    the services of the JavaScript runtime they call and an in-memory
    Firestore [users] collection.

    The runtime is the one its standards describe: strings of UTF-16 code
    units; [URLSearchParams] and its urlencoded parser (URL Standard) with
    the UTF-8 decoder of the Encoding Standard; SHA-256 (FIPS 180-4) and HMAC
    (RFC 2104); [JSON.parse], [parseInt], [||] and [??] (ECMAScript).  A
    number keeps the decimal value of its JSON text.  The limits of a real
    machine (stack depth, string length) are not part of it.

    Beside them: the CORS check and the error-handling middleware of the
    backend; and, of [frontend/src/App.jsx], the body of the request
    ([JSON.stringify], UTF-8), the promise chain of [initializeMiniApp] and
    the branch that the render takes. *)

From Stdlib Require Import NArith ZArith List Lia String Ascii Bool.
From Stdlib Require Import Sorting.Permutation Sorting.Sorted.
From stdpp Require Import gmap.
Import ListNotations.

Set Warnings "-register-all".

(** ** JavaScript strings

    A JavaScript string is a sequence of 16-bit code units; a [Buffer] is a
    sequence of bytes.  Both are lists over [N]. *)

Abbreviation jsstring := (list N) (only parsing).
Abbreviation bytes := (list N) (only parsing).

(** [str] writes an ASCII literal of the source as a JavaScript string. *)
Definition str (s : string) : jsstring :=
  List.map (fun c => N.of_nat (nat_of_ascii c)) (list_ascii_of_string s).

Module Unicode.

Definition is_high_surrogate (c : N) : bool :=
  ((55296 <=? c) && (c <=? 56319))%N.
Definition is_low_surrogate (c : N) : bool :=
  ((56320 <=? c) && (c <=? 57343))%N.

(** UTF-8 bytes of one scalar value. *)
Definition encode_code_point (cp : N) : bytes :=
  (if cp <? 128 then [cp]
   else if cp <? 2048 then [192 + cp / 64; 128 + cp mod 64]
   else if cp <? 65536 then
     [224 + cp / 4096; 128 + (cp / 64) mod 64; 128 + cp mod 64]
   else [240 + cp / 262144; 128 + (cp / 4096) mod 64;
         128 + (cp / 64) mod 64; 128 + cp mod 64])%N.

(** UTF-8 encoding of a JavaScript string, as done by [Buffer.from(s)],
    [hmac.update(s)] and the conversion to a USVString: a surrogate pair is
    one code point, a lone surrogate becomes U+FFFD. *)
Fixpoint utf8_encode (s : jsstring) : bytes :=
  match s with
  | [] => []
  | c :: r =>
      if is_high_surrogate c then
        match r with
        | d :: r' =>
            if is_low_surrogate d
            then encode_code_point (65536 + (c - 55296) * 1024 + (d - 56320))%N
                   ++ utf8_encode r'
            else encode_code_point 65533 ++ utf8_encode r
        | [] => encode_code_point 65533
        end
      else if is_low_surrogate c then encode_code_point 65533 ++ utf8_encode r
      else encode_code_point c ++ utf8_encode r
  end.

(** State of the WHATWG UTF-8 decoder between two bytes of one sequence. *)
Record decoder_state := {
  code_point : N;
  bytes_needed : nat;
  lower_boundary : N;
  upper_boundary : N
}.

(** A byte met when no sequence is open: the code points it emits and the
    sequence it opens, if any. *)
Definition decode_lead (b : N) : list N * option decoder_state :=
  (if b <=? 127 then ([b], None)
   else if (194 <=? b) && (b <=? 223) then
     ([], Some {| code_point := b - 192; bytes_needed := 1;
                  lower_boundary := 128; upper_boundary := 191 |})
   else if (224 <=? b) && (b <=? 239) then
     ([], Some {| code_point := b - 224; bytes_needed := 2;
                  lower_boundary := if b =? 224 then 160 else 128;
                  upper_boundary := if b =? 237 then 159 else 191 |})
   else if (240 <=? b) && (b <=? 244) then
     ([], Some {| code_point := b - 240; bytes_needed := 3;
                  lower_boundary := if b =? 240 then 144 else 128;
                  upper_boundary := if b =? 244 then 143 else 191 |})
   else ([65533], None))%N.

(** The decoder run over the bytes, errors replaced by U+FFFD; a byte that
    cannot continue the open sequence closes it with an error and is read
    again as a lead byte. *)
Fixpoint decode_code_points (st : option decoder_state) (l : bytes) : list N :=
  match l with
  | [] => match st with None => [] | Some _ => [65533%N] end
  | b :: r =>
      match st with
      | None =>
          let '(out, st') := decode_lead b in out ++ decode_code_points st' r
      | Some s =>
          if ((lower_boundary s <=? b) && (b <=? upper_boundary s))%N then
            let cp := (code_point s * 64 + (b - 128))%N in
            match bytes_needed s with
            | S (S n) =>
                decode_code_points
                  (Some {| code_point := cp; bytes_needed := S n;
                           lower_boundary := 128; upper_boundary := 191 |}) r
            | _ => cp :: decode_code_points None r
            end
          else
            let '(out, st') := decode_lead b in
            65533%N :: out ++ decode_code_points st' r
      end
  end.

(** Code units of one code point. *)
Definition code_units (cp : N) : jsstring :=
  (if cp <? 65536 then [cp]
   else [55296 + (cp - 65536) / 1024; 56320 + (cp - 65536) mod 1024])%N.

(** "UTF-8 decode without BOM" into a JavaScript string. *)
Definition utf8_decode (l : bytes) : jsstring :=
  flat_map code_units (decode_code_points None l).

(** Strings are compared code unit by code unit, as [<] does on strings. *)
Fixpoint compare (a b : jsstring) : comparison :=
  match a, b with
  | [], [] => Eq
  | [], _ :: _ => Lt
  | _ :: _, [] => Gt
  | x :: a', y :: b' =>
      match N.compare x y with
      | Eq => compare a' b'
      | c => c
      end
  end.

Definition ltb (a b : jsstring) : bool :=
  match compare a b with Lt => true | _ => false end.

Definition eqb (a b : jsstring) : bool :=
  match compare a b with Eq => true | _ => false end.

(** The order of the UTF-8 encodings, byte by byte. *)
Definition bytewise_ltb (a b : jsstring) : bool :=
  ltb (utf8_encode a) (utf8_encode b).

End Unicode.

(** ** [URLSearchParams] *)

Module URLSearchParams.

(** The list of name-value tuples of a [URLSearchParams] object. *)
Abbreviation t := (list (jsstring * jsstring)) (only parsing).

(** The byte sequences between the separators [sep]. *)
Fixpoint split_on (sep : N) (l : bytes) : list bytes :=
  match l with
  | [] => [[]]
  | b :: r =>
      if (b =? sep)%N then [] :: split_on sep r
      else match split_on sep r with
           | h :: t => (b :: h) :: t
           | [] => [[b]]
           end
  end.

(** The bytes before and after the first [sep], if there is one. *)
Fixpoint split_first (sep : N) (l : bytes) : bytes * option bytes :=
  match l with
  | [] => ([], None)
  | b :: r =>
      if (b =? sep)%N then ([], Some r)
      else let '(n, v) := split_first sep r in (b :: n, v)
  end.

Definition hex_value (b : N) : option N :=
  (if (48 <=? b) && (b <=? 57) then Some (b - 48)
   else if (65 <=? b) && (b <=? 70) then Some (b - 55)
   else if (97 <=? b) && (b <=? 102) then Some (b - 87)
   else None)%N.

(** Percent-decoding of a byte sequence: [%] followed by two hexadecimal
    digits is one byte, any other byte stands for itself. *)
Fixpoint percent_decode (l : bytes) : bytes :=
  match l with
  | [] => []
  | b :: r =>
      if (b =? 37)%N then
        match r with
        | h1 :: h2 :: r' =>
            match hex_value h1, hex_value h2 with
            | Some x, Some y => (16 * x + y)%N :: percent_decode r'
            | _, _ => b :: percent_decode r
            end
        | _ => b :: percent_decode r
        end
      else b :: percent_decode r
  end.

Definition plus_to_space (l : bytes) : bytes :=
  List.map (fun b => if (b =? 43)%N then 32%N else b) l.

Definition decode_component (l : bytes) : jsstring :=
  Unicode.utf8_decode (percent_decode (plus_to_space l)).

(** One sequence between two [&]: nothing when empty, else the name before
    the first [=] and the value after it (empty without [=]). *)
Definition parse_sequence (seq : bytes) : t :=
  match seq with
  | [] => []
  | _ =>
      let '(name, value) := split_first 61 seq in
      [(decode_component name,
        decode_component (match value with Some v => v | None => [] end))]
  end.

(** The application/x-www-form-urlencoded parser. *)
Definition parse_urlencoded (input : bytes) : t :=
  flat_map parse_sequence (split_on 38 input).

(** [new URLSearchParams(init)] for a string [init]: a leading [?] is
    dropped, the rest is UTF-8 encoded and parsed. *)
Definition of_string (init : jsstring) : t :=
  parse_urlencoded
    (Unicode.utf8_encode
       (match init with
        | c :: r => if (c =? 63)%N then r else init
        | [] => init
        end)).

(** [get(name)]: the value of the first tuple with that name, or [null]. *)
Fixpoint get (name : jsstring) (l : t) : option jsstring :=
  match l with
  | [] => None
  | (k, v) :: r => if Unicode.eqb k name then Some v else get name r
  end.

(** [delete(name)]: every tuple with that name is removed. *)
Definition delete (name : jsstring) (l : t) : t :=
  List.filter (fun p => negb (Unicode.eqb (fst p) name)) l.

(** [sort()]: the tuples ordered by name, by comparison of code units; tuples
    of equal names keep their relative order. *)
Fixpoint insert (p : jsstring * jsstring) (l : t) : t :=
  match l with
  | [] => [p]
  | q :: r => if Unicode.ltb (fst q) (fst p) then q :: insert p r else p :: l
  end.

Definition sort (l : t) : t := fold_right insert [] l.

End URLSearchParams.

(** ** HMAC-SHA256, the service of [crypto.createHmac('sha256', key)] *)

Module Crypto.

(** 32-bit words are numbers below 2^32; sums wrap around. *)
Definition add32 (a b : N) : N := ((a + b) mod 4294967296)%N.
Definition rotr (n x : N) : N :=
  N.lor (N.shiftr x n) (N.shiftl x (32 - n) mod 4294967296)%N.
Definition not32 (x : N) : N := N.lxor x 4294967295.
Definition Ch (x y z : N) : N := N.lxor (N.land x y) (N.land (not32 x) z).
Definition Maj (x y z : N) : N :=
  N.lxor (N.lxor (N.land x y) (N.land x z)) (N.land y z).
Definition Sigma0 (x : N) : N :=
  N.lxor (N.lxor (rotr 2 x) (rotr 13 x)) (rotr 22 x).
Definition Sigma1 (x : N) : N :=
  N.lxor (N.lxor (rotr 6 x) (rotr 11 x)) (rotr 25 x).
Definition sigma0 (x : N) : N :=
  N.lxor (N.lxor (rotr 7 x) (rotr 18 x)) (N.shiftr x 3).
Definition sigma1 (x : N) : N :=
  N.lxor (N.lxor (rotr 17 x) (rotr 19 x)) (N.shiftr x 10).

(** The constants of FIPS 180-4: the first 32 bits of the fractional parts
    of the cube roots of the first 64 primes, and of the square roots of the
    first 8 primes for the initial hash value. *)
Definition is_prime (n : nat) : bool :=
  forallb (fun d => negb (Nat.eqb (Nat.modulo n d) 0)) (seq 2 (n - 2)).

Definition primes (count : nat) : list N :=
  firstn count (List.map N.of_nat (List.filter is_prime (seq 2 310))).

(** The greatest [r] below [2^bits], above [acc], with [r^k <= n]. *)
Fixpoint floor_root (k n : N) (bits : nat) (acc : N) : N :=
  match bits with
  | O => acc
  | S b =>
      let r := (acc + N.shiftl 1 (N.of_nat b))%N in
      floor_root k n b (if (r ^ k <=? n)%N then r else acc)
  end.

Definition fractional_bits (k p : N) : N :=
  (floor_root k (p * 2 ^ (32 * k)) 40 0 mod 4294967296)%N.

Definition K : list N :=
  Eval vm_compute in List.map (fractional_bits 3) (primes 64).

Definition H0 : list N :=
  Eval vm_compute in List.map (fractional_bits 2) (primes 8).

(** Big-endian words of a byte sequence, and back. *)
Fixpoint be_words (l : bytes) : list N :=
  match l with
  | a :: b :: c :: d :: r =>
      ((((a * 256 + b) * 256 + c) * 256 + d)%N) :: be_words r
  | _ => []
  end.

Definition word_bytes (w : N) : bytes :=
  [N.shiftr w 24 mod 256; N.shiftr w 16 mod 256; N.shiftr w 8 mod 256;
   w mod 256]%N.

(** The message schedule is kept as a window of the last sixteen words. *)
Definition next_w (win : list N) : N :=
  add32 (add32 (sigma1 (nth 14 win 0%N)) (nth 9 win 0%N))
        (add32 (sigma0 (nth 1 win 0%N)) (nth 0 win 0%N)).

Definition round (k w : N) (s : list N) : list N :=
  match s with
  | [a; b; c; d; e; f; g; h] =>
      let T1 := add32 (add32 (add32 h (Sigma1 e)) (add32 (Ch e f g) k)) w in
      let T2 := add32 (Sigma0 a) (Maj a b c) in
      [add32 T1 T2; a; b; c; add32 d T1; e; f; g]
  | _ => s
  end.

Fixpoint rounds (ks win s : list N) : list N :=
  match ks with
  | [] => s
  | k :: ks' => rounds ks' (tl win ++ [next_w win]) (round k (hd 0%N win) s)
  end.

Definition compress (h block : list N) : list N :=
  List.map (fun p => add32 (fst p) (snd p)) (combine h (rounds K block h)).

Fixpoint blocks (n : nat) (ws h : list N) : list N :=
  match n with
  | O => h
  | S n' => blocks n' (skipn 16 ws) (compress h (firstn 16 ws))
  end.

Definition pad (m : bytes) : bytes :=
  let len := N.of_nat (List.length m) in
  let z := ((119 - len mod 64) mod 64)%N in
  m ++ [128%N] ++ repeat 0%N (N.to_nat z)
    ++ word_bytes (N.shiftr (8 * len) 32 mod 4294967296)%N
    ++ word_bytes ((8 * len) mod 4294967296)%N.

Definition sha256 (m : bytes) : bytes :=
  let ws := be_words (pad m) in
  flat_map word_bytes (blocks (Nat.div (List.length ws) 16) ws H0).

(** HMAC (RFC 2104) over SHA-256, block size 64. *)
Definition hmac_sha256 (key msg : bytes) : bytes :=
  let k0 := if (64 <? N.of_nat (List.length key))%N then sha256 key else key in
  let k := k0 ++ repeat 0%N (64 - List.length k0) in
  sha256 (List.map (N.lxor 92) k ++ sha256 (List.map (N.lxor 54) k ++ msg)).

(** [digest('hex')]: two lower-case hexadecimal digits per byte. *)
Definition hex_digit (n : N) : N := (if n <? 10 then 48 + n else 87 + n)%N.
Definition hex (b : bytes) : jsstring :=
  flat_map (fun x => [hex_digit (x / 16); hex_digit (x mod 16)]%N) b.

End Crypto.

(** ** JavaScript values *)

Module JS.

(** A number read from JSON text keeps its decimal value
    [(-1)^negative * mantissa * 10^exponent]; the double it denotes is the
    nearest one. *)
Record number := {
  negative : bool;
  mantissa : N;
  exponent : Z
}.

(** The values that [JSON.parse] builds, [undefined], and the two Firestore
    values met in a document: the [FieldValue.serverTimestamp()] sentinel and
    a stored [Timestamp]. *)
Inductive value :=
| Undefined
| Null
| Bool (b : bool)
| Num (n : number)
| Str (s : jsstring)
| Arr (items : list value)
| Obj (props : list (jsstring * value))
| ServerTimestamp
| Timestamp (t : Z).

(** What a [try] block ends with when it does not return. *)
Inductive error :=
| SyntaxError
| TypeError
| Error (message : jsstring).

Definition of_nat (n : nat) : value :=
  Num {| negative := false; mantissa := N.of_nat n; exponent := 0 |}.

(** The double nearest to the decimal is zero: the mantissa is zero, or the
    value is at most 2^-1075, half the least positive double. *)
Definition is_zero (n : number) : bool :=
  ((mantissa n =? 0)%N
   || ((exponent n <? 0)%Z
       && (Z.of_N (mantissa n) * 2 ^ 1075 <=? 10 ^ (- exponent n))%Z)).

(** ToBoolean. *)
Definition truthy (v : value) : bool :=
  match v with
  | Undefined | Null => false
  | Bool b => b
  | Num n => negb (is_zero n)
  | Str s => match s with [] => false | _ => true end
  | Arr _ | Obj _ | ServerTimestamp | Timestamp _ => true
  end.

(** [a || b] and [a ?? b]. *)
Definition or (a b : value) : value := if truthy a then a else b.
Definition coalesce (a b : value) : value :=
  match a with
  | Undefined | Null => b
  | _ => a
  end.

(** Own properties of an object, in creation order. *)
Fixpoint obj_get (k : jsstring) (props : list (jsstring * value)) : value :=
  match props with
  | [] => Undefined
  | (k', v) :: r => if Unicode.eqb k' k then v else obj_get k r
  end.

(** Defining a property replaces the value of an existing key in place and
    adds a new key at the end. *)
Fixpoint obj_set (k : jsstring) (v : value) (props : list (jsstring * value))
  : list (jsstring * value) :=
  match props with
  | [] => [(k, v)]
  | (k', v') :: r =>
      if Unicode.eqb k' k then (k, v) :: r else (k', v') :: obj_set k v r
  end.

Definition has_own (k : jsstring) (props : list (jsstring * value)) : bool :=
  existsb (fun p => Unicode.eqb (fst p) k) props.

(** [{ ...a, ...b }]. *)
Definition spread (a b : list (jsstring * value)) : list (jsstring * value) :=
  fold_left (fun acc p => obj_set (fst p) (snd p) acc) b a.

(** [v.k] and [v?.k] for a property name [k] that no prototype defines
    ([id], [username], [first_name], ...): the own property of an object,
    [undefined] on any other value. *)
Definition get (v : value) (k : jsstring) : value :=
  match v with
  | Obj props => obj_get k props
  | _ => Undefined
  end.

(** Whether the conversion of a value built by [JSON.parse] to a string, as in
    a template literal, throws a [TypeError].  An object is converted by its
    [toString] and [valueOf]: parsed from JSON, an own [toString] is never a
    function, and [valueOf] then gives no primitive.  An array joins the
    conversions of its elements, [null] giving the empty string. *)
Fixpoint to_string_throws (v : value) : bool :=
  match v with
  | Obj props => has_own (str "toString") props
  | Arr items => existsb to_string_throws items
  | _ => false
  end.

(** The values that [JSON.parse] can build. *)
Fixpoint from_json (v : value) : bool :=
  match v with
  | Null | Bool _ | Num _ | Str _ => true
  | Arr items => forallb from_json items
  | Obj props => forallb (fun p => from_json (snd p)) props
  | Undefined | ServerTimestamp | Timestamp _ => false
  end.

(** Decimal digits of a natural number. *)
Fixpoint digits_fuel (fuel : nat) (n : N) (acc : jsstring) : jsstring :=
  match fuel with
  | O => acc
  | S fuel' =>
      let acc' := ((48 + n mod 10)%N) :: acc in
      if (n <? 10)%N then acc' else digits_fuel fuel' (n / 10)%N acc'
  end.

Definition digits (n : N) : jsstring :=
  digits_fuel (S (N.to_nat (N.log2 n))) n [].

(** The number that a string of decimal digits writes. *)
Definition decimal_value (ds : jsstring) : Z :=
  fold_left (fun a d => (a * 10 + Z.of_N (d - 48))%Z) ds 0%Z.

(** The integer a number denotes, when it is one of at most 2^53 in
    magnitude: these are doubles, and print as their decimal digits. *)
Definition safe_integer (n : number) : option Z :=
  let m := Z.of_N (mantissa n) in
  let v :=
    if (0 <=? exponent n)%Z then Some (m * 10 ^ exponent n)%Z
    else if (m mod 10 ^ (- exponent n) =? 0)%Z
         then Some (m / 10 ^ (- exponent n))%Z else None in
  match v with
  | Some a =>
      if (a <=? 2 ^ 53)%Z then Some (if negative n then (- a)%Z else a)
      else None
  | None => None
  end.

(** [String(v)] for [undefined], [null], booleans, strings and the numbers
    that are integers of at most 2^53 in magnitude; the conversion of other
    numbers (shortest round-trip digits of a double) and of objects is not
    modelled. *)
Definition String (v : value) : option jsstring :=
  match v with
  | Undefined => Some (str "undefined")
  | Null => Some (str "null")
  | Bool true => Some (str "true")
  | Bool false => Some (str "false")
  | Str s => Some s
  | Num n =>
      match safe_integer n with
      | Some a =>
          Some ((if (a <? 0)%Z then [45%N] else []) ++ digits (Z.to_N (Z.abs a)))
      | None => None
      end
  | _ => None
  end.

Definition is_white_space (c : N) : bool :=
  ((9 <=? c) && (c <=? 13) || (c =? 32) || (c =? 160) || (c =? 5760)
   || (8192 <=? c) && (c <=? 8202) || (c =? 8232) || (c =? 8233)
   || (c =? 8239) || (c =? 8287) || (c =? 12288) || (c =? 65279))%N.

Fixpoint skip_white_space (s : jsstring) : jsstring :=
  match s with
  | c :: r => if is_white_space c then skip_white_space r else s
  | [] => []
  end.

(** The value of the longest prefix of decimal digits, if it is not empty. *)
Fixpoint leading_digits (s : jsstring) (acc : option Z) : option Z :=
  match s with
  | c :: r =>
      if ((48 <=? c) && (c <=? 57))%N
      then leading_digits r
             (Some (match acc with Some a => a | None => 0 end * 10
                    + Z.of_N (c - 48))%Z)
      else acc
  | [] => acc
  end.

(** [parseInt(s, 10)]; [None] is [NaN]. *)
Definition parseInt (s : jsstring) : option Z :=
  match skip_white_space s with
  | c :: r =>
      if (c =? 45)%N then option_map Z.opp (leading_digits r None)
      else if (c =? 43)%N then leading_digits r None
      else leading_digits (c :: r) None
  | [] => None
  end.

End JS.

(** ** [JSON.parse] *)

Module JSON.

Inductive token :=
| TLBrace | TRBrace | TLBracket | TRBracket | TColon | TComma
| TString (s : jsstring)
| TNumber (n : JS.number)
| TTrue | TFalse | TNull.

(** Where the reading of a number stands. *)
Inductive number_phase :=
| AfterMinus | LeadingZero | IntDigits | AfterDot | FracDigits
| AfterE | AfterExpSign | ExpDigits.

Record number_acc := {
  phase : number_phase;
  neg : bool;
  mant : N;
  frac_len : Z;
  exp_neg : bool;
  exp : Z
}.

Definition number_of (a : number_acc) : JS.number :=
  {| JS.negative := neg a; JS.mantissa := mant a;
     JS.exponent := ((if exp_neg a then - exp a else exp a) - frac_len a)%Z |}.

Definition complete (a : number_acc) : bool :=
  match phase a with
  | LeadingZero | IntDigits | FracDigits | ExpDigits => true
  | _ => false
  end.

Inductive lex_state :=
| LStart
| LLiteral (rest : jsstring) (tok : token)
| LString (acc : jsstring)
| LEscape (acc : jsstring)
| LUnicode (acc : jsstring) (remaining : nat) (code : N)
| LNumber (a : number_acc).

Definition is_digit (c : N) : bool := ((48 <=? c) && (c <=? 57))%N.

(** A character met between two tokens. *)
Definition lex_start (c : N) : option (list token * lex_state) :=
  let num ph ng m :=
    LNumber {| phase := ph; neg := ng; mant := m; frac_len := 0;
               exp_neg := false; exp := 0 |} in
  if ((c =? 32) || (c =? 9) || (c =? 10) || (c =? 13))%N then Some ([], LStart)
  else if (c =? 123)%N then Some ([TLBrace], LStart)
  else if (c =? 125)%N then Some ([TRBrace], LStart)
  else if (c =? 91)%N then Some ([TLBracket], LStart)
  else if (c =? 93)%N then Some ([TRBracket], LStart)
  else if (c =? 58)%N then Some ([TColon], LStart)
  else if (c =? 44)%N then Some ([TComma], LStart)
  else if (c =? 34)%N then Some ([], LString [])
  else if (c =? 116)%N then Some ([], LLiteral (str "rue") TTrue)
  else if (c =? 102)%N then Some ([], LLiteral (str "alse") TFalse)
  else if (c =? 110)%N then Some ([], LLiteral (str "ull") TNull)
  else if (c =? 45)%N then Some ([], num AfterMinus true 0%N)
  else if (c =? 48)%N then Some ([], num LeadingZero false 0%N)
  else if is_digit c then Some ([], num IntDigits false (c - 48)%N)
  else None.

(** A character met inside a number: [None] when it cannot continue it. *)
Definition lex_number (a : number_acc) (c : N) : option number_acc :=
  let d := (c - 48)%N in
  let set ph := {| phase := ph; neg := neg a; mant := mant a;
                   frac_len := frac_len a; exp_neg := exp_neg a;
                   exp := exp a |} in
  let int_digit := {| phase := IntDigits; neg := neg a;
                      mant := (mant a * 10 + d)%N; frac_len := 0;
                      exp_neg := false; exp := 0 |} in
  let frac_digit := {| phase := FracDigits; neg := neg a;
                       mant := (mant a * 10 + d)%N;
                       frac_len := (frac_len a + 1)%Z;
                       exp_neg := false; exp := 0 |} in
  let exp_digit := {| phase := ExpDigits; neg := neg a; mant := mant a;
                      frac_len := frac_len a; exp_neg := exp_neg a;
                      exp := (exp a * 10 + Z.of_N d)%Z |} in
  let is_e := ((c =? 101) || (c =? 69))%N in
  match phase a with
  | AfterMinus =>
      if (c =? 48)%N then Some (set LeadingZero)
      else if is_digit c then Some int_digit else None
  | LeadingZero =>
      if (c =? 46)%N then Some (set AfterDot)
      else if is_e then Some (set AfterE) else None
  | IntDigits =>
      if is_digit c then Some int_digit
      else if (c =? 46)%N then Some (set AfterDot)
      else if is_e then Some (set AfterE) else None
  | AfterDot => if is_digit c then Some frac_digit else None
  | FracDigits =>
      if is_digit c then Some frac_digit
      else if is_e then Some (set AfterE) else None
  | AfterE =>
      if (c =? 45)%N then
        Some {| phase := AfterExpSign; neg := neg a; mant := mant a;
                frac_len := frac_len a; exp_neg := true; exp := 0 |}
      else if (c =? 43)%N then Some (set AfterExpSign)
      else if is_digit c then Some exp_digit else None
  | AfterExpSign => if is_digit c then Some exp_digit else None
  | ExpDigits => if is_digit c then Some exp_digit else None
  end.

Definition escape_char (c : N) : option N :=
  (if c =? 34 then Some 34 else if c =? 92 then Some 92
   else if c =? 47 then Some 47 else if c =? 98 then Some 8
   else if c =? 102 then Some 12 else if c =? 110 then Some 10
   else if c =? 114 then Some 13 else if c =? 116 then Some 9
   else None)%N.

(** One character of the text: the tokens it completes and the next state,
    or [None] on a character the grammar does not allow there. *)
Definition lex_step (st : lex_state) (c : N) : option (list token * lex_state) :=
  match st with
  | LStart => lex_start c
  | LLiteral rest tok =>
      match rest with
      | x :: rest' =>
          if (c =? x)%N
          then match rest' with
               | [] => Some ([tok], LStart)
               | _ => Some ([], LLiteral rest' tok)
               end
          else None
      | [] => None
      end
  | LString acc =>
      if (c =? 34)%N then Some ([TString (rev acc)], LStart)
      else if (c =? 92)%N then Some ([], LEscape acc)
      else if (c <? 32)%N then None
      else Some ([], LString (c :: acc))
  | LEscape acc =>
      if (c =? 117)%N then Some ([], LUnicode acc 4 0%N)
      else match escape_char c with
           | Some x => Some ([], LString (x :: acc))
           | None => None
           end
  | LUnicode acc remaining code =>
      match URLSearchParams.hex_value c with
      | Some h =>
          let code' := (code * 16 + h)%N in
          match remaining with
          | S (S n) => Some ([], LUnicode acc (S n) code')
          | _ => Some ([], LString (code' :: acc))
          end
      | None => None
      end
  | LNumber a =>
      match lex_number a c with
      | Some a' => Some ([], LNumber a')
      | None =>
          if complete a then
            match lex_start c with
            | Some (toks, st') => Some (TNumber (number_of a) :: toks, st')
            | None => None
            end
          else None
      end
  end.

Fixpoint lex (st : lex_state) (text : jsstring) : option (list token) :=
  match text with
  | [] =>
      match st with
      | LStart => Some []
      | LNumber a => if complete a then Some [TNumber (number_of a)] else None
      | _ => None
      end
  | c :: r =>
      match lex_step st c with
      | Some (toks, st') =>
          match lex st' r with
          | Some more => Some (toks ++ more)
          | None => None
          end
      | None => None
      end
  end.

(** An array or an object whose next element is being read. *)
Inductive frame :=
| FArray (items_rev : list JS.value)
| FObject (props : list (jsstring * JS.value)) (key : jsstring).

Inductive parse_state :=
| PValue (stack : list frame)
| PArrayStart (stack : list frame)
| PArrayNext (items_rev : list JS.value) (stack : list frame)
| PObjectStart (stack : list frame)
| PObjectKey (props : list (jsstring * JS.value)) (stack : list frame)
| PObjectColon (props : list (jsstring * JS.value)) (key : jsstring)
               (stack : list frame)
| PObjectNext (props : list (jsstring * JS.value)) (stack : list frame)
| PDone (v : JS.value).

(** A finished value goes to the array or object that waits for it. *)
Definition deliver (v : JS.value) (stack : list frame) : parse_state :=
  match stack with
  | [] => PDone v
  | FArray items :: stack' => PArrayNext (v :: items) stack'
  | FObject props key :: stack' => PObjectNext (JS.obj_set key v props) stack'
  end.

(** A token met where a value must start. *)
Definition value_token (stack : list frame) (tok : token) : option parse_state :=
  match tok with
  | TNull => Some (deliver JS.Null stack)
  | TTrue => Some (deliver (JS.Bool true) stack)
  | TFalse => Some (deliver (JS.Bool false) stack)
  | TNumber n => Some (deliver (JS.Num n) stack)
  | TString s => Some (deliver (JS.Str s) stack)
  | TLBracket => Some (PArrayStart stack)
  | TLBrace => Some (PObjectStart stack)
  | _ => None
  end.

Definition parse_step (st : parse_state) (tok : token) : option parse_state :=
  match st, tok with
  | PValue stack, _ => value_token stack tok
  | PArrayStart stack, TRBracket => Some (deliver (JS.Arr []) stack)
  | PArrayStart stack, _ => value_token (FArray [] :: stack) tok
  | PArrayNext items stack, TComma => Some (PValue (FArray items :: stack))
  | PArrayNext items stack, TRBracket => Some (deliver (JS.Arr (rev items)) stack)
  | PObjectStart stack, TRBrace => Some (deliver (JS.Obj []) stack)
  | PObjectStart stack, TString k => Some (PObjectColon [] k stack)
  | PObjectKey props stack, TString k => Some (PObjectColon props k stack)
  | PObjectColon props k stack, TColon => Some (PValue (FObject props k :: stack))
  | PObjectNext props stack, TComma => Some (PObjectKey props stack)
  | PObjectNext props stack, TRBrace => Some (deliver (JS.Obj props) stack)
  | _, _ => None
  end.

Fixpoint parse_tokens (st : parse_state) (toks : list token) : option JS.value :=
  match toks with
  | [] => match st with PDone v => Some v | _ => None end
  | tok :: r =>
      match parse_step st tok with
      | Some st' => parse_tokens st' r
      | None => None
      end
  end.

(** [JSON.parse(text)]: the value of the text, or a thrown [SyntaxError]. *)
Definition parse (text : jsstring) : JS.error + JS.value :=
  match lex LStart text with
  | Some toks =>
      match parse_tokens (PValue []) toks with
      | Some v => inr v
      | None => inl JS.SyntaxError
      end
  | None => inl JS.SyntaxError
  end.

(** The invariant of the parser: every value it holds was built from
    JSON text. *)
Definition json_props (props : list (jsstring * JS.value)) : Prop :=
  forallb (fun p => JS.from_json (snd p)) props = true.

Definition frame_ok (f : frame) : Prop :=
  match f with
  | FArray items => forallb JS.from_json items = true
  | FObject props _ => json_props props
  end.

Definition state_ok (st : parse_state) : Prop :=
  match st with
  | PValue stack | PArrayStart stack | PObjectStart stack =>
      Forall frame_ok stack
  | PArrayNext items stack =>
      forallb JS.from_json items = true /\ Forall frame_ok stack
  | PObjectKey props stack | PObjectColon props _ stack
  | PObjectNext props stack =>
      json_props props /\ Forall frame_ok stack
  | PDone v => JS.from_json v = true
  end.

End JSON.

(** ** The runtime services of the verifier

    [isValidTelegramData] runs its whole body inside [try]: the calls it
    makes into the runtime either return or throw.  A [Platform] gives these
    calls; [Node] is the runtime as specified (WHATWG URL, RFC 2104 over
    SHA-256, ECMAScript [JSON.parse]), where only [JSON.parse] throws. *)

Record Platform := {
  (** [new URLSearchParams(init)] *)
  new_URLSearchParams : jsstring -> JS.error + URLSearchParams.t;
  (** [crypto.createHmac('sha256', key).update(data).digest()] *)
  createHmac_sha256 : bytes -> jsstring -> JS.error + bytes;
  (** [JSON.parse(text)] *)
  JSON_parse : jsstring -> JS.error + JS.value;
  (** [Date.now()], in milliseconds *)
  Date_now : Z
}.

Definition Node (now : Z) : Platform := {|
  new_URLSearchParams init := inr (URLSearchParams.of_string init);
  createHmac_sha256 key data :=
    inr (Crypto.hmac_sha256 key (Unicode.utf8_encode data));
  JSON_parse := JSON.parse;
  Date_now := now
|}.

(** ** The verifier: [isValidTelegramData] *)

Module Verifier.

(** The [error] strings of the returned object. *)
Inductive reason :=
| Hash_missing
| User_data_missing
| Invalid_user_data_format
| Hash_mismatch
| Internal_validation_error.

Definition message (r : reason) : jsstring :=
  match r with
  | Hash_missing => str "Hash missing"
  | User_data_missing => str "User data missing"
  | Invalid_user_data_format => str "Invalid user data format"
  | Hash_mismatch => str "Hash mismatch"
  | Internal_validation_error => str "Internal validation error"
  end.

(** The returned object [{ valid, user, error }]; [user: null] is [JS.Null],
    a missing [error] is [None]. *)
Record verdict := {
  valid : bool;
  user : JS.value;
  error : option reason
}.

(** The lines written to the console. *)
Inductive console :=
| Error_missing_input
| Warn_hash_missing
| Warn_older_than_expiration
| Warn_auth_date_missing
| Log_successful (id : JS.value)
| Error_parse_user (parseError : JS.error)
| Error_user_missing
| Warn_hash_mismatch
| Error_during_validation (error : JS.error).

(** A computation that writes to the console and returns or throws. *)
Definition M (A : Type) : Type := (JS.error + A) * list console.

Definition ret {A} (a : A) : M A := (inr a, []).
Definition throw {A} (e : JS.error) : M A := (inl e, []).
Definition call {A} (r : JS.error + A) : M A := (r, []).
Definition write (line : console) : M unit := (inr tt, [line]).

Definition bind {A B} (m : M A) (k : A -> M B) : M B :=
  match m with
  | (inr a, out) => let '(r, out') := k a in (r, out ++ out')
  | (inl e, out) => (inl e, out)
  end.

(** [try { m } catch (e) { return h e }] around a body that returns. *)
Definition try_catch {A} (m : M A) (h : JS.error -> A * list console)
  : A * list console :=
  match m with
  | (inr a, out) => (a, out)
  | (inl e, out) => let '(a, out') := h e in (a, out ++ out')
  end.

Definition returned {A} (r : A * list console) : M A := (inr (fst r), snd r).

Notation "x <- m ;; k" := (bind m (fun x => k))
  (at level 100, m at next level, right associativity).
Notation "m ;;; k" := (bind m (fun _ => k))
  (at level 100, right associativity).

Definition EXPIRATION_SECONDS : Z := 24 * 3600.

(** [arr.join(sep)] *)
Fixpoint join (sep : jsstring) (arr : list jsstring) : jsstring :=
  match arr with
  | [] => []
  | [x] => x
  | x :: r => x ++ sep ++ join sep r
  end.

(** The array filled by [urlParams.forEach]: one [`${key}=${value}`] per
    tuple. *)
Definition dataCheckArr (urlParams : URLSearchParams.t) : list jsstring :=
  List.map (fun p => fst p ++ [61%N] ++ snd p) urlParams.

Definition dataCheckString (urlParams : URLSearchParams.t) : jsstring :=
  join [10%N] (dataCheckArr urlParams).

Definition invalid (r : option reason) : verdict :=
  {| valid := false; user := JS.Null; error := r |}.

Section Body.

Variable P : Platform.

(** Lines 44-58: the age of [auth_date] is looked at and only reported. *)
Definition check_auth_date (urlParams : URLSearchParams.t) : M unit :=
  match URLSearchParams.get (str "auth_date") urlParams with
  | Some (c :: authDate) =>
      let currentTimestamp := (Date_now P / 1000)%Z in
      match JS.parseInt (c :: authDate) with
      | Some t =>
          let timeDiff := (currentTimestamp - t)%Z in
          if (EXPIRATION_SECONDS <? timeDiff)%Z
          then write Warn_older_than_expiration
          else ret tt
      | None => ret tt
      end
  | _ => write Warn_auth_date_missing
  end.

(** Lines 69-71. *)
Definition calculatedHash (botToken : jsstring) (urlParams : URLSearchParams.t)
  : M jsstring :=
  secretKey <- call (createHmac_sha256 P
                       (Unicode.utf8_encode (str "WebAppData")) botToken) ;;
  digest <- call (createHmac_sha256 P secretKey (dataCheckString urlParams)) ;;
  ret (Crypto.hex digest).

(** Lines 76-89: the inner [try] holds [JSON.parse] and the template literal
    that converts [user?.id] to a string. *)
Definition extract_user (urlParams : URLSearchParams.t) : verdict * list console :=
  match URLSearchParams.get (str "user") urlParams with
  | Some (c :: userJson) =>
      try_catch
        (user <- call (JSON_parse P (c :: userJson)) ;;
         (if JS.to_string_throws (JS.get user (str "id"))
          then throw JS.TypeError else ret tt) ;;;
         write (Log_successful (JS.get user (str "id"))) ;;;
         ret {| valid := true; user := user; error := None |})
        (fun parseError =>
           (invalid (Some Invalid_user_data_format),
            [Error_parse_user parseError]))
  | _ => (invalid (Some User_data_missing), [Error_user_missing])
  end.

(** Lines 36-97, the body of the outer [try]. *)
Definition validation (initData botToken : jsstring) : M verdict :=
  urlParams <- call (new_URLSearchParams P initData) ;;
  match URLSearchParams.get (str "hash") urlParams with
  | Some (c :: hash) =>
      let urlParams := URLSearchParams.delete (str "hash") urlParams in
      check_auth_date urlParams ;;;
      let urlParams := URLSearchParams.sort urlParams in
      calculated <- calculatedHash botToken urlParams ;;
      if Unicode.eqb calculated (c :: hash)
      then returned (extract_user urlParams)
      else write Warn_hash_mismatch ;;; ret (invalid (Some Hash_mismatch))
  | _ => write Warn_hash_missing ;;; ret (invalid (Some Hash_missing))
  end.

(** Lines 29-102. *)
Definition isValidTelegramData (initData botToken : jsstring)
  : verdict * list console :=
  match initData, botToken with
  | _ :: _, _ :: _ =>
      try_catch (validation initData botToken)
        (fun error =>
           (invalid (Some Internal_validation_error),
            [Error_during_validation error]))
  | _, _ => (invalid None, [Error_missing_input])
  end.

End Body.

End Verifier.

(** ** The route [POST /api/auth/validate] and the [users] collection *)

Module Server.

(** A Firestore document: its fields in order. *)
Abbreviation document := (list (jsstring * JS.value)) (only parsing).

(** What the handler takes from outside the program: the configured bot
    token, the time the store gives to a write, the random bytes read by
    [nanoid], and whether the store carries out a read and a write (an I/O
    failure, or a value the store refuses, rejects the promise). *)
Record environment := {
  TELEGRAM_BOT_TOKEN : option jsstring;
  server_time : Z;
  random_bytes : nat -> N;
  get_succeeds : bool;
  write_succeeds : bool
}.

Record response := {
  status : N;
  body : list (jsstring * JS.value)
}.

(** [nanoid(size)]: one character of the URL-safe alphabet per random byte. *)
Definition urlAlphabet : jsstring :=
  str "useandom-26T198340PX75pxJACKVERYMINDBUSHWOLF_GQZbfghjklqvwyzrict".

Definition nanoid (random : nat -> N) (size : nat) : jsstring :=
  List.map (fun i => nth (N.to_nat (N.land (random i) 63)) urlAlphabet 0%N)
           (seq 0 size).

(** A written [serverTimestamp()] sentinel is stored as the time of the
    write. *)
Definition resolve (now : Z) (p : jsstring * JS.value) : jsstring * JS.value :=
  match snd p with
  | JS.ServerTimestamp => (fst p, JS.Timestamp now)
  | _ => p
  end.

(** Firestore refuses [undefined] as a field value. *)
Definition has_undefined (data : document) : bool :=
  existsb (fun p => match snd p with JS.Undefined => true | _ => false end) data.

(** [userRef.get()]: [None] is a rejected promise, [Some None] a snapshot
    with [exists] false. *)
Definition doc_get (env : environment) (db : gmap (list N) document)
    (id : jsstring) : option (option document) :=
  if get_succeeds env then Some (db !! id) else None.

(** [userRef.set(data)]: the document becomes [data]. *)
Definition doc_set (env : environment) (db : gmap (list N) document)
    (id : jsstring) (data : document) : option (gmap (list N) document) :=
  if write_succeeds env && negb (has_undefined data)
  then Some (<[id := List.map (resolve (server_time env)) data]> db)
  else None.

(** [userRef.update(data)]: the fields of [data] are written over those of
    the existing document, the other fields stay. *)
Definition doc_update (env : environment) (db : gmap (list N) document)
    (id : jsstring) (data : document) : option (gmap (list N) document) :=
  if write_succeeds env && negb (has_undefined data)
  then match db !! id with
       | Some old =>
           Some (<[id := JS.spread old
                           (List.map (resolve (server_time env)) data)]> db)
       | None => None
       end
  else None.

Definition json (code : N) (fields : list (jsstring * JS.value))
    (db : gmap (list N) document) : option (response * gmap (list N) document) :=
  Some ({| status := code; body := fields |}, db).

(** [db.collection('users').doc(id)] throws on an empty id and on one that
    holds a slash. *)
Definition valid_doc_id (id : jsstring) : bool :=
  match id with
  | [] => false
  | _ => negb (existsb (N.eqb 47) id)
  end.

(** Lines 163-230: the profile of a validated user is read, then updated or
    created.  The result is [None] where [String(telegramUser.id)] or
    [doc(userIdString)] is outside this model. *)
Definition sync (env : environment) (db : gmap (list N) document)
    (telegramUser : JS.value)
  : option (response * gmap (list N) document) :=
  match JS.String (JS.get telegramUser (str "id")) with
  | None => None
  | Some userIdString =>
    if negb (valid_doc_id userIdString) then None else
    match doc_get env db userIdString with
    | None =>
        json 500 [(str "message",
                   JS.Str (str "Internal server error interacting with database."))] db
    | Some (Some existingData) =>
        let updateData :=
          [(str "lastLogin", JS.ServerTimestamp);
           (str "username",
            JS.or (JS.or (JS.get telegramUser (str "username"))
                         (JS.obj_get (str "username") existingData)) JS.Null);
           (str "firstName",
            JS.or (JS.get telegramUser (str "first_name"))
                  (JS.obj_get (str "firstName") existingData));
           (str "lastName",
            JS.or (JS.or (JS.get telegramUser (str "last_name"))
                         (JS.obj_get (str "lastName") existingData)) JS.Null);
           (str "languageCode",
            JS.or (JS.get telegramUser (str "language_code"))
                  (JS.obj_get (str "languageCode") existingData))] in
        match doc_update env db userIdString updateData with
        | None =>
            json 500 [(str "message",
                       JS.Str (str "Internal server error interacting with database."))] db
        | Some db' =>
            let userProfileData := JS.spread existingData updateData in
            let userProfileData :=
              JS.obj_set (str "tokens")
                (JS.coalesce (JS.obj_get (str "tokens") userProfileData)
                             (JS.of_nat 0)) userProfileData in
            let userProfileData :=
              JS.obj_set (str "referralsMade")
                (JS.coalesce (JS.obj_get (str "referralsMade") userProfileData)
                             (JS.of_nat 0)) userProfileData in
            json 200 [(str "message",
                       JS.Str (str "User validated and profile retrieved/created."));
                      (str "user", JS.Obj userProfileData)] db'
        end
    | Some None =>
        let newUserProfile :=
          [(str "userId", JS.get telegramUser (str "id"));
           (str "username", JS.or (JS.get telegramUser (str "username")) JS.Null);
           (str "firstName",
            JS.or (JS.get telegramUser (str "first_name")) (JS.Str (str "User")));
           (str "lastName", JS.or (JS.get telegramUser (str "last_name")) JS.Null);
           (str "languageCode",
            JS.or (JS.get telegramUser (str "language_code")) (JS.Str (str "en")));
           (str "tokens", JS.of_nat 0);
           (str "referralCode", JS.Str (nanoid (random_bytes env) 8));
           (str "referredBy", JS.Null);
           (str "referralsMade", JS.of_nat 0);
           (str "createdAt", JS.ServerTimestamp);
           (str "lastLogin", JS.ServerTimestamp);
           (str "connectedWallet", JS.Null)] in
        match doc_set env db userIdString newUserProfile with
        | None =>
            json 500 [(str "message",
                       JS.Str (str "Internal server error interacting with database."))] db
        | Some db' =>
            json 200 [(str "message",
                       JS.Str (str "User validated and profile retrieved/created."));
                      (str "user", JS.Obj newUserProfile)] db'
        end
    end
  end.

(** Lines 140-231; [initData] is the string of the request body, [None] when
    the body has none. *)
Definition auth_validate (P : Platform) (env : environment)
    (db : gmap (list N) document) (initData : option jsstring)
  : option (response * gmap (list N) document) :=
  match initData with
  | Some (c :: data) =>
      match TELEGRAM_BOT_TOKEN env with
      | Some (d :: token) =>
          let validationResult :=
            fst (Verifier.isValidTelegramData P (c :: data) (d :: token)) in
          if negb (Verifier.valid validationResult)
             || negb (JS.truthy (Verifier.user validationResult))
          then
            json 401
              [(str "message", JS.Str (str "Invalid or expired initData"));
               (str "error",
                JS.Str (match Verifier.error validationResult with
                        | Some r => Verifier.message r
                        | None => str "Validation failed"
                        end))] db
          else sync env db (Verifier.user validationResult)
      | _ => json 500 [(str "message", JS.Str (str "Server configuration error"))] db
      end
  | _ => json 400 [(str "message", JS.Str (str "Missing initData"))] db
  end.

End Server.

(** ** The verification protocol in the words of the specification *)

Module Spec.

(** The key of [p] is not after the key of [q], by code units. *)
Definition key_le (p q : jsstring * jsstring) : Prop :=
  Unicode.ltb (fst q) (fst p) = false.

(** The same, by the bytes of the UTF-8 encodings. *)
Definition key_le_bytewise (p q : jsstring * jsstring) : Prop :=
  Unicode.bytewise_ltb (fst q) (fst p) = false.

Definition has_key (k : jsstring) (p : jsstring * jsstring) : bool :=
  Unicode.eqb (fst p) k.

(** [s] holds the pairs of [l] in ascending order [le] of their keys, the
    pairs of one key in the order they have in [l]. *)
Definition sorted_by_key (le : jsstring * jsstring -> jsstring * jsstring -> Prop)
    (l s : URLSearchParams.t) : Prop :=
  Permutation l s /\ StronglySorted le s /\
  forall k, List.filter (has_key k) s = List.filter (has_key k) l.

(** Step 5: each pair as [key=value], joined by newlines, none at the end. *)
Fixpoint data_check_string (sorted : URLSearchParams.t) : jsstring :=
  match sorted with
  | [] => []
  | [(k, v)] => k ++ [61%N] ++ v
  | (k, v) :: r => k ++ [61%N] ++ v ++ [10%N] ++ data_check_string r
  end.

(** Steps 6 and 7: [hex(HMAC-SHA256(key = HMAC-SHA256(key = "WebAppData",
    message = secret), message = dataCheckString))]. *)
Definition calculated_hash (secret : jsstring) (sorted : URLSearchParams.t)
  : jsstring :=
  Crypto.hex
    (Crypto.hmac_sha256
       (Crypto.hmac_sha256 (Unicode.utf8_encode (str "WebAppData"))
                           (Unicode.utf8_encode secret))
       (Unicode.utf8_encode (data_check_string sorted))).

(** The pairs of the payload without the [hash] pairs. *)
Definition signed_pairs (initData : jsstring) : URLSearchParams.t :=
  URLSearchParams.delete (str "hash") (URLSearchParams.of_string initData).

(** The reason codes of the specification for the [error] strings. *)
Inductive reason_code :=
| missing_hash | missing_user_data | malformed_user_json | hash_mismatch
| internal_error.

Definition reason_code_of (r : Verifier.reason) : reason_code :=
  match r with
  | Verifier.Hash_missing => missing_hash
  | Verifier.User_data_missing => missing_user_data
  | Verifier.Invalid_user_data_format => malformed_user_json
  | Verifier.Hash_mismatch => hash_mismatch
  | Verifier.Internal_validation_error => internal_error
  end.

(** A document as the store gives it back: no field is a sentinel. *)
Definition stored_document (data : list (jsstring * JS.value)) : Prop :=
  forall k, JS.obj_get k data <> JS.ServerTimestamp.

(** The merge of section 4.2: the new value if there is one, else the
    existing one; a value is there when it is truthy. *)
Definition merged (claimed existing : JS.value) : JS.value :=
  if JS.truthy claimed then claimed else existing.

(** The fields that a sync must leave as they are. *)
Definition preserved_fields : list jsstring :=
  [str "tokens"; str "referralCode"; str "referredBy"; str "referralsMade";
   str "createdAt"; str "connectedWallet"].

(** A verdict that fails with the given reason code, or with none. *)
Definition fails_with (v : Verifier.verdict) (code : option reason_code) : Prop :=
  Verifier.valid v = false /\ Verifier.user v = JS.Null
  /\ option_map reason_code_of (Verifier.error v) = code.

End Spec.

(** ** Payloads and platforms of the examples *)

Module Examples.

Definition secret : jsstring := str "S3cr3t".

(** The end-to-end scenario of the specification, signed with [secret]. *)
Definition signed_payload : jsstring :=
  str "auth_date=1700000000&user=%7B%22id%22%3A42%2C%22first_name%22%3A%22Ann%22%7D&hash=dd7d06b20d867618a72e34a8760e18ec5646734fdefae1cb033c1fd784d30a63".

(** The same pairs in another order. *)
Definition reordered_payload : jsstring :=
  str "user=%7B%22id%22%3A42%2C%22first_name%22%3A%22Ann%22%7D&hash=dd7d06b20d867618a72e34a8760e18ec5646734fdefae1cb033c1fd784d30a63&auth_date=1700000000".

(** The three pairs of [signed_payload]. *)
Definition signed_pairs : list jsstring :=
  [str "auth_date=1700000000";
   str "user=%7B%22id%22%3A42%2C%22first_name%22%3A%22Ann%22%7D";
   str "hash=dd7d06b20d867618a72e34a8760e18ec5646734fdefae1cb033c1fd784d30a63"].

(** The claim [{ id: 42, first_name: 'Ann' }]. *)
Definition claim_Ann : JS.value :=
  JS.Obj [(str "id", JS.of_nat 42); (str "first_name", JS.Str (str "Ann"))].

(** [first_name] changed after signing. *)
Definition tampered_payload : jsstring :=
  str "auth_date=1700000000&user=%7B%22id%22%3A42%2C%22first_name%22%3A%22Bob%22%7D&hash=dd7d06b20d867618a72e34a8760e18ec5646734fdefae1cb033c1fd784d30a63".

(** Signed payloads with the user [null], with no user, and with a user
    that is not JSON. *)
Definition null_user_payload : jsstring :=
  str "user=null&hash=29347d4fae64c26de1c6aecad624c0b0f2079f075361d5d37721fc352459d3ca".

Definition no_user_payload : jsstring :=
  str "auth_date=1700000000&hash=afbe5f9a4dd036616cd62704e0a9554ffb54cd0286a0f12a44c91d188109e351".

Definition truncated_user_payload : jsstring :=
  str "user=%7B%22id%22%3A42&hash=cf1262d2744b5a51255bb8ca09e2cd025f9727dfa8bf5156f6217a3ae191180e".

(** [user={"id":42}] signed with the empty secret. *)
Definition empty_secret_payload : jsstring :=
  str "user=%7B%22id%22%3A42%7D&hash=5c5d57a8fed44e706c2d4cb933c493af02db8bf11b6f0b9a1d2922d22fd553e2".

(** The keys [user], U+FF5E and U+10000, signed over the order of [sort]:
    [user], U+10000, U+FF5E. *)
Definition astral_key_payload : jsstring :=
  str "user=1&%EF%BD%9E=2&%F0%90%80%80=1&hash=7fe802438cc35fabea524e329d20a80c27b2b0e81e7cdf9781ec74df759b2468".

Definition astral_key_bytewise : URLSearchParams.t :=
  [(str "user", str "1"); ([65374%N], str "2"); ([55296%N; 56320%N], str "1")].


Definition duplicate_key_payload : jsstring :=
  str "a=1&a=2&hash=c3f43c6ceb219774d6200c128c1a959d99e6ce2fca5cf2cbfe8f23b0abfadfb6".

Definition duplicate_key_swapped : jsstring :=
  str "a=2&a=1&hash=c3f43c6ceb219774d6200c128c1a959d99e6ce2fca5cf2cbfe8f23b0abfadfb6".

(** A payload that starts with [?], and its two pairs swapped. *)
Definition question_mark_payload : jsstring :=
  str "?a=1&hash=f27d51c30add70cd3f8bbb33e4eab6daee7eeaefd683cb50fb92681b774e7a5d".

Definition question_mark_swapped : jsstring :=
  str "hash=f27d51c30add70cd3f8bbb33e4eab6daee7eeaefd683cb50fb92681b774e7a5d&?a=1".

(** A signed payload whose [user] value is empty. *)
Definition empty_user_payload : jsstring :=
  str "user=&hash=d3f573364c24768f9e2d240b21ba68386c69e365ea18bf36249069665a28e552".

(** [user={"id":{"toString":1}}], signed with [secret]. *)
Definition unprintable_id_payload : jsstring :=
  str "user=%7B%22id%22%3A%7B%22toString%22%3A1%7D%7D&hash=d06af9825031be96fd6baa17405eb950368326c248c65bddeaa8a02e6002ad47".

(** A runtime whose HMAC throws. *)
Definition failing_crypto : Platform := {|
  new_URLSearchParams init := inr (URLSearchParams.of_string init);
  createHmac_sha256 key data := inl (JS.Error (str "Invalid digest: sha256"));
  JSON_parse := JSON.parse;
  Date_now := 0
|}.

(** The world of the handler in the examples. *)
Definition env : Server.environment := {|
  Server.TELEGRAM_BOT_TOKEN := Some secret;
  Server.server_time := 1700000005;
  Server.random_bytes := fun i => N.of_nat (7 * i + 3);
  Server.get_succeeds := true;
  Server.write_succeeds := true
|}.

(** A later request: another write time, other random bytes. *)
Definition env_later : Server.environment := {|
  Server.TELEGRAM_BOT_TOKEN := Some secret;
  Server.server_time := 1700000099;
  Server.random_bytes := fun i => N.of_nat (11 * i + 5);
  Server.get_succeeds := true;
  Server.write_succeeds := true
|}.

(** A stored profile of user 42 whose last name is the empty string. *)
Definition profile_42 : list (jsstring * JS.value) :=
  [(str "userId", JS.of_nat 42);
   (str "username", JS.Str (str "ann"));
   (str "firstName", JS.Str (str "Ann"));
   (str "lastName", JS.Str []);
   (str "languageCode", JS.Str (str "en"));
   (str "tokens", JS.of_nat 5);
   (str "referralCode", JS.Str (str "a60JYSGj"));
   (str "referredBy", JS.Null);
   (str "referralsMade", JS.of_nat 2);
   (str "createdAt", JS.Timestamp 1600000000);
   (str "lastLogin", JS.Timestamp 1600000000);
   (str "connectedWallet", JS.Null)].

Definition users_42 : gmap (list N) (list (jsstring * JS.value)) :=
  {[ str "42" := profile_42 ]}.



(** The claim [{ id: 42, username: '', first_name: 'Anna' }]. *)
Definition claim_empty_username : JS.value :=
  JS.Obj [(str "id", JS.of_nat 42); (str "username", JS.Str []);
          (str "first_name", JS.Str (str "Anna"))].

End Examples.

(** ** The object literals of the route *)

Module Handler.

(** Lines 178-184. *)
Definition updateData (telegramUser : JS.value)
    (existingData : list (jsstring * JS.value)) : list (jsstring * JS.value) :=
  [(str "lastLogin", JS.ServerTimestamp);
   (str "username",
    JS.or (JS.or (JS.get telegramUser (str "username"))
                 (JS.obj_get (str "username") existingData)) JS.Null);
   (str "firstName",
    JS.or (JS.get telegramUser (str "first_name"))
          (JS.obj_get (str "firstName") existingData));
   (str "lastName",
    JS.or (JS.or (JS.get telegramUser (str "last_name"))
                 (JS.obj_get (str "lastName") existingData)) JS.Null);
   (str "languageCode",
    JS.or (JS.get telegramUser (str "language_code"))
          (JS.obj_get (str "languageCode") existingData))].

(** Lines 188-190: the answer for an existing user. *)
Definition userProfileData (telegramUser : JS.value)
    (existingData : list (jsstring * JS.value)) : list (jsstring * JS.value) :=
  let merged := JS.spread existingData (updateData telegramUser existingData) in
  let merged :=
    JS.obj_set (str "tokens")
      (JS.coalesce (JS.obj_get (str "tokens") merged) (JS.of_nat 0)) merged in
  JS.obj_set (str "referralsMade")
    (JS.coalesce (JS.obj_get (str "referralsMade") merged) (JS.of_nat 0)) merged.

(** Lines 195-213. *)
Definition newUserProfile (referralCode : jsstring) (telegramUser : JS.value)
  : list (jsstring * JS.value) :=
  [(str "userId", JS.get telegramUser (str "id"));
   (str "username", JS.or (JS.get telegramUser (str "username")) JS.Null);
   (str "firstName",
    JS.or (JS.get telegramUser (str "first_name")) (JS.Str (str "User")));
   (str "lastName", JS.or (JS.get telegramUser (str "last_name")) JS.Null);
   (str "languageCode",
    JS.or (JS.get telegramUser (str "language_code")) (JS.Str (str "en")));
   (str "tokens", JS.of_nat 0);
   (str "referralCode", JS.Str referralCode);
   (str "referredBy", JS.Null);
   (str "referralsMade", JS.of_nat 0);
   (str "createdAt", JS.ServerTimestamp);
   (str "lastLogin", JS.ServerTimestamp);
   (str "connectedWallet", JS.Null)].

(** The body of the 200 answer. *)
Definition success (user : list (jsstring * JS.value))
  : list (jsstring * JS.value) :=
  [(str "message", JS.Str (str "User validated and profile retrieved/created."));
   (str "user", JS.Obj user)].

End Handler.

(** ** The CORS check and the error-handling middleware *)

Module Middleware.

(** Lines 110-115. *)
Definition allowedOrigins : list jsstring :=
  [str "http://localhost:5173";
   str "http://127.0.0.1:5173";
   str "https://mywdogsclonebot.web.app";
   str "https://44f2-102-215-57-145.ngrok-free.app"].

(** Lines 117-126, the [origin] function of the CORS options, given the
    [Origin] header of the request ([None] without the header): what it
    hands to its callback, [inr true] for [callback(null, true)] and [inl e]
    for [callback(e)]. *)
Definition origin (header : option jsstring) : JS.error + bool :=
  match header with
  | Some (c :: o) =>
      if existsb (Unicode.eqb (c :: o)) allowedOrigins then inr true
      else inl (JS.Error (str "Not allowed by CORS"))
  | _ => inr true
  end.

(** Lines 235-243, the error-handling middleware, which the CORS middleware
    reaches with the error of the [origin] function.  The message of an
    error made by the engine is not the text of line 238. *)
Definition error_handler (err : JS.error) : Server.response :=
  match err with
  | JS.Error message =>
      if Unicode.eqb message (str "Not allowed by CORS")
      then {| Server.status := 403;
              Server.body :=
                [(str "message",
                  JS.Str (str "Origin not allowed by CORS policy."))] |}
      else {| Server.status := 500;
              Server.body :=
                [(str "message", JS.Str (str "Something broke on the server!"))] |}
  | _ => {| Server.status := 500;
            Server.body :=
              [(str "message", JS.Str (str "Something broke on the server!"))] |}
  end.

End Middleware.

(** ** The body of the request, from the frontend to the route *)

Module Wire.

(** [String.prototype.isWellFormed]: code units, with no lone surrogate. *)
Fixpoint isWellFormed (s : jsstring) : bool :=
  match s with
  | [] => true
  | c :: r =>
      if Unicode.is_high_surrogate c then
        match r with
        | d :: r' => Unicode.is_low_surrogate d && isWellFormed r'
        | [] => false
        end
      else negb (Unicode.is_low_surrogate c) && (c <? 65536)%N && isWellFormed r
  end.


(** [\uXXXX], with lower-case digits. *)
Definition UnicodeEscape (c : N) : jsstring :=
  [92; 117; Crypto.hex_digit (c / 4096); Crypto.hex_digit (c / 256 mod 16);
   Crypto.hex_digit (c / 16 mod 16); Crypto.hex_digit (c mod 16)]%N.

(** One code unit that is no surrogate, inside a JSON string. *)
Definition quote_code_unit (c : N) : jsstring :=
  (if c =? 8 then [92; 98] else if c =? 9 then [92; 116]
   else if c =? 10 then [92; 110] else if c =? 12 then [92; 102]
   else if c =? 13 then [92; 114] else if c =? 34 then [92; 34]
   else if c =? 92 then [92; 92]
   else if c <? 32 then UnicodeEscape c else [c])%N.

(** The code points of the string, one after the other: a surrogate pair
    stands for itself, a lone surrogate is escaped. *)
Fixpoint quote_code_units (s : jsstring) : jsstring :=
  match s with
  | [] => []
  | c :: r =>
      if Unicode.is_high_surrogate c then
        match r with
        | d :: r' =>
            if Unicode.is_low_surrogate d
            then c :: d :: quote_code_units r'
            else UnicodeEscape c ++ quote_code_units r
        | [] => UnicodeEscape c
        end
      else if Unicode.is_low_surrogate c
           then UnicodeEscape c ++ quote_code_units r
           else quote_code_unit c ++ quote_code_units r
  end.

(** QuoteJSONString of ECMAScript. *)
Definition QuoteJSONString (s : jsstring) : jsstring :=
  34%N :: quote_code_units s ++ [34%N].

(** Line 312: [JSON.stringify({ initData: rawInitData })]. *)
Definition stringify_initData (rawInitData : jsstring) : jsstring :=
  [123%N] ++ QuoteJSONString (str "initData") ++ [58%N]
    ++ QuoteJSONString rawInitData ++ [125%N].

(** The body of the request as [fetch] sends it, and as the JSON body
    parser of line 132 reads it: a body within the size limit of the
    parser, in UTF-8, its default charset. *)
Definition request_body (rawInitData : jsstring) : bytes :=
  Unicode.utf8_encode (stringify_initData rawInitData).

Definition express_json (body : bytes) : JS.error + JS.value :=
  JSON.parse (Unicode.utf8_decode body).

End Wire.

(** ** The frontend: [App.jsx] *)

Module App.

(** Lines 257-262: the state of the component. *)
Record state := {
  validatedUser : JS.value;
  error : jsstring;
  isLoading : bool;
  rawInitData : jsstring
}.

Definition initialState : state := {|
  validatedUser := JS.Null;
  error := [];
  isLoading := true;
  rawInitData := []
|}.

(** What the promise of a [fetch] settles with: a response with its status
    and what its [json()] settles with, or the message of the error of a
    failed request.  A [json()] that fails gives the message of its error. *)
Record response := {
  status : N;
  json : jsstring + JS.value
}.

(** The page, the build and the engine: [window.Telegram?.WebApp] with its
    [initData] ([None] without the object), [window.location.href],
    [import.meta.env.VITE_BACKEND_URL], [fetch] from the address and the
    text of the body, the messages of the two [TypeError]s that the engine
    can throw in the callbacks (a property read from [null], an object that
    has no primitive value), and the strings that the engine gives to the
    values whose conversion [JS.String] does not compute. *)
Record Browser := {
  WebApp_initData : option jsstring;
  href : jsstring;
  VITE_BACKEND_URL : option jsstring;
  fetch : jsstring -> jsstring -> jsstring + response;
  cannot_read : jsstring -> jsstring;
  cannot_convert : jsstring;
  Number_Object_toString : JS.value -> jsstring
}.

(** [`${v}`] for a value whose conversion does not throw. *)
Definition template (B : Browser) (v : JS.value) : jsstring :=
  match JS.String v with
  | Some s => s
  | None => Number_Object_toString B v
  end.

(** What a callback throws: [new Error(v)] for a value [v] that converts to
    a string, its message being [String(v)], or an error of the engine. *)
Inductive thrown :=
| new_Error (message : JS.value)
| engine_error (message : jsstring).

Definition message_of (B : Browser) (e : thrown) : jsstring :=
  match e with
  | new_Error v => template B v
  | engine_error m => m
  end.

(** Line 266. *)
Definition BACKEND_URL (B : Browser) : jsstring :=
  match VITE_BACKEND_URL B with
  | Some (c :: url) => c :: url
  | _ => str "http://localhost:3001"
  end.

(** [response.ok] *)
Definition ok (r : response) : bool :=
  ((200 <=? status r) && (status r <=? 299))%N.

(** [s.includes(t)] *)
Fixpoint starts_with (t s : jsstring) : bool :=
  match t, s with
  | [], _ => true
  | x :: t', y :: s' => (x =? y)%N && starts_with t' s'
  | _ :: _, [] => false
  end.

Fixpoint includes (s t : jsstring) : bool :=
  starts_with t s
  || match s with
     | _ :: r => includes r t
     | [] => false
     end.

Definition status_message (r : response) : JS.value :=
  JS.Str (str "Backend error! Status: " ++ JS.digits (status r)).

(** Lines 314-325, the first [then]: what the promise it returns settles
    with. *)
Definition on_response (B : Browser) (r : response) : thrown + JS.value :=
  if negb (ok r) then
    let parsed : thrown + JS.value :=
      match json r with
      | inl m => inl (engine_error m)
      | inr (JS.Undefined | JS.Null) =>
          inl (engine_error (cannot_read B (str "message")))
      | inr errData =>
          let message :=
            JS.or (JS.get errData (str "message")) (status_message r) in
          if JS.to_string_throws message
          then inl (engine_error (cannot_convert B))
          else inl (new_Error message)
      end in
    match parsed with
    | inl _ => inl (new_Error (status_message r))
    | inr v => inr v
    end
  else
    match json r with
    | inl m => inl (engine_error m)
    | inr data => inr data
    end.

(** Lines 326-348, the second [then]: the state it sets, or what it
    throws. *)
Definition on_data (B : Browser) (raw : jsstring) (data : JS.value)
  : thrown + state :=
  match data with
  | JS.Undefined | JS.Null => inl (engine_error (cannot_read B (str "user")))
  | _ =>
      if JS.truthy (JS.get data (str "user")) then
        inr {| validatedUser := JS.get data (str "user");
               error := [];
               isLoading := false;
               rawInitData := raw |}
      else
        let reason :=
          JS.or (JS.get data (str "message")) (JS.Str (str "Unknown reason")) in
        if JS.to_string_throws reason
        then inl (engine_error (cannot_convert B))
        else inr {| validatedUser := JS.Null;
                    error := str "Backend validation failed: "
                             ++ template B reason;
                    isLoading := false;
                    rawInitData := raw |}
  end.

(** Lines 349-357, the [catch]. *)
Definition on_error (B : Browser) (raw : jsstring) (e : thrown) : state :=
  {| validatedUser := JS.Null;
     error :=
       str "Failed to connect or validate with backend. Please check your connection or try again later. Error: "
       ++ message_of B e;
     isLoading := false;
     rawInitData := raw |}.

(** Lines 279-378: the state that [initializeMiniApp] leaves when its
    promises have settled. *)
Definition initializeMiniApp (B : Browser) : state :=
  match WebApp_initData B with
  | Some (c :: raw) =>
      let rawInitData := c :: raw in
      let settled : thrown + JS.value :=
        match fetch B (BACKEND_URL B ++ str "/api/auth/validate")
                (Wire.stringify_initData rawInitData) with
        | inl m => inl (engine_error m)
        | inr r => on_response B r
        end in
      match settled with
      | inr data =>
          match on_data B rawInitData data with
          | inr st => st
          | inl e => on_error B rawInitData e
          end
      | inl e => on_error B rawInitData e
      end
  | Some [] =>
      {| validatedUser := JS.Null;
         error := str "Could not retrieve initialization data from Telegram. Please restart the app.";
         isLoading := false;
         rawInitData := [] |}
  | None =>
      if negb (includes (href B) (str "tgWebAppData")) then
        {| validatedUser := JS.Null;
           error := str "This is a Telegram Mini App. Please open it through the Telegram application.";
           isLoading := false;
           rawInitData := [] |}
      else
        {| validatedUser := JS.Null;
           error := str "Telegram context still not available after delay. Please try restarting the app inside Telegram.";
           isLoading := false;
           rawInitData := [] |}
  end.

(** Lines 420-599: the branch of the render. *)
Inductive page :=
| loading_message
| error_page (text : jsstring)
| main_layout (user : JS.value)
| fallback_page.

Definition render (st : state) : page :=
  if isLoading st then loading_message
  else match error st with
       | _ :: _ => error_page (error st)
       | [] =>
           if JS.truthy (validatedUser st) then main_layout (validatedUser st)
           else fallback_page
       end.

End App.

(** ** The share link of the referral section *)

Module Share.

(** The characters that [encodeURIComponent] leaves as they are: letters,
    digits and [- _ . ! ~ * ' ( )]. *)
Definition uriUnreserved (c : N) : bool :=
  ((65 <=? c) && (c <=? 90) || (97 <=? c) && (c <=? 122)
   || (48 <=? c) && (c <=? 57)
   || (c =? 45) || (c =? 95) || (c =? 46) || (c =? 33) || (c =? 126)
   || (c =? 42) || (c =? 39) || (c =? 40) || (c =? 41))%N.

Definition upper_hex_digit (n : N) : N := (if n <? 10 then 48 + n else 55 + n)%N.

(** [%XX] for each byte, with upper-case digits. *)
Definition percent_encode (b : bytes) : jsstring :=
  flat_map (fun x => [37; upper_hex_digit (x / 16); upper_hex_digit (x mod 16)]%N)
           b.

(** [encodeURIComponent(s)]; [None] is the [URIError] thrown for a lone
    surrogate. *)
Fixpoint encodeURIComponent (s : jsstring) : option jsstring :=
  match s with
  | [] => Some []
  | c :: r =>
      if Unicode.is_high_surrogate c then
        match r with
        | d :: r' =>
            if Unicode.is_low_surrogate d
            then option_map
                   (app (percent_encode
                           (Unicode.encode_code_point
                              (65536 + (c - 55296) * 1024 + (d - 56320))%N)))
                   (encodeURIComponent r')
            else None
        | [] => None
        end
      else if Unicode.is_low_surrogate c then None
      else if uriUnreserved c
           then option_map (cons c) (encodeURIComponent r)
           else option_map (app (percent_encode (Unicode.encode_code_point c)))
                           (encodeURIComponent r)
  end.

(** Lines 514-520: the name of the bot in [initDataUnsafe], when there is
    one that is not empty. *)
Definition botUsername (unsafe : option jsstring) : jsstring :=
  match unsafe with
  | Some (c :: name) => c :: name
  | _ => str "mywdogsclone_bot"
  end.

(** Lines 522-523, for a [referralCode] that is a string, as the route
    stores it. *)
Definition referralLink (unsafe : option jsstring) (referralCode : jsstring)
  : jsstring :=
  str "https://t.me/" ++ botUsername unsafe ++ str "?start=" ++ referralCode.

Definition shareText : jsstring :=
  str "Come join me on this cool DOGS Clone app!".

(** Line 542: the query of the link given to [openTelegramLink], after
    [https://t.me/share/url?]. *)
Definition share_query (link : jsstring) : option jsstring :=
  match encodeURIComponent link, encodeURIComponent shareText with
  | Some url, Some text => Some (str "url=" ++ url ++ str "&text=" ++ text)
  | _, _ => None
  end.

Definition share_link (link : jsstring) : option jsstring :=
  option_map (app (str "https://t.me/share/url?")) (share_query link).

(** A character of an encoded component: ASCII, and none of [&], [=], [+]
    and [?]. *)
Definition component_char (c : N) : Prop :=
  (c < 128 /\ c <> 38 /\ c <> 61 /\ c <> 43 /\ c <> 63)%N.

(** Pairs written as a query: each name and each value encoded by
    [encodeURIComponent], [=] inside a pair, [&] between two pairs. *)
Fixpoint segments (pairs : URLSearchParams.t) : option (list jsstring) :=
  match pairs with
  | [] => Some []
  | (name, value) :: rest =>
      match encodeURIComponent name, encodeURIComponent value, segments rest with
      | Some n, Some v, Some more => Some ((n ++ 61%N :: v) :: more)
      | _, _, _ => None
      end
  end.

Definition query_of (pairs : URLSearchParams.t) : option jsstring :=
  option_map (Verifier.join [38%N]) (segments pairs).

End Share.

(** ** More payloads, answers and browsers of the examples *)

Module Scenarios.


Definition falsy_user_answer : Server.response := {|
  Server.status := 401;
  Server.body := [(str "message", JS.Str (str "Invalid or expired initData"));
                  (str "error", JS.Str (str "Validation failed"))]
|}.

(** The first sync of a claim in the world [Examples.env]: the answer and the
    stored document. *)
Definition created_answer (telegramUser : JS.value) : Server.response := {|
  Server.status := 200;
  Server.body :=
    Handler.success
      (Handler.newUserProfile
         (Server.nanoid (Server.random_bytes Examples.env) 8) telegramUser)
|}.

Definition created_document (telegramUser : JS.value)
  : list (jsstring * JS.value) :=
  List.map (Server.resolve (Server.server_time Examples.env))
    (Handler.newUserProfile
       (Server.nanoid (Server.random_bytes Examples.env) 8) telegramUser).

(** The claim of [Examples.claim_Ann] with two more properties. *)
Definition claim_with_tokens : JS.value :=
  JS.Obj [(str "id", JS.of_nat 42); (str "first_name", JS.Str (str "Ann"));
          (str "tokens",
           JS.Num {| JS.negative := false; JS.mantissa := 1000000;
                     JS.exponent := 0 |});
          (str "referralCode", JS.Str (str "AAAAAAAA"))].

(** The pairs [a=1], [b=2] and [user={"id":42}], signed with
    [Examples.secret]; and the same payload with the first two pairs written
    as the one pair whose key is [a] and whose value is [1], a line feed
    and [b=2]. *)
Definition three_pairs_payload : jsstring :=
  str "a=1&b=2&user=%7B%22id%22%3A42%7D&hash=d8ec9e3735882dab1abd5e7bdc8a6bce9bd4424dbbd66371f16fa1974337047f".

Definition merged_pairs_payload : jsstring :=
  str "a=1%0Ab%3D2&user=%7B%22id%22%3A42%7D&hash=d8ec9e3735882dab1abd5e7bdc8a6bce9bd4424dbbd66371f16fa1974337047f".

(** The claim [{ id: 7 }]. *)
Definition claim_7 : JS.value := JS.Obj [(str "id", JS.of_nat 7)].

(** The store after the first sync of [Examples.claim_Ann] in the empty
    store, and after the first sync of [claim_7] beside user 42. *)
Definition users_Ann : gmap (list N) (list (jsstring * JS.value)) :=
  {[ str "42" := created_document Examples.claim_Ann ]}.

Definition users_42_and_7 : gmap (list N) (list (jsstring * JS.value)) :=
  <[str "7" := created_document claim_7]> Examples.users_42.

(** A string with a quote, a backslash, a line feed, a control character,
    a surrogate pair, a lone surrogate and a letter outside ASCII. *)
Definition awkward : jsstring :=
  [97; 34; 92; 10; 1; 55357; 56832; 56320; 233]%N.

(** A browser inside Telegram, whose request gets the answer [answer]. *)
Definition browser (rawInitData : jsstring) (answer : jsstring + App.response)
  : App.Browser := {|
  App.WebApp_initData := Some rawInitData;
  App.href := str "https://mywdogsclonebot.web.app/";
  App.VITE_BACKEND_URL := None;
  App.fetch := fun _ _ => answer;
  App.cannot_read :=
    fun k => str "Cannot read properties of null (reading '" ++ k ++ str "')";
  App.cannot_convert := str "Cannot convert object to primitive value";
  App.Number_Object_toString := fun _ => str "[object Object]"
|}.

(** The answer of the route to a payload whose hash does not match. *)
Definition refusal : App.response := {|
  App.status := 401;
  App.json :=
    inr (JS.Obj [(str "message", JS.Str (str "Invalid or expired initData"));
                 (str "error", JS.Str (str "Hash mismatch"))])
|}.

(** An answer with the profile of user 42. *)
Definition profile_answer : App.response := {|
  App.status := 200;
  App.json :=
    inr (JS.Obj
           [(str "message",
             JS.Str (str "User validated and profile retrieved/created."));
            (str "user",
             JS.Obj [(str "userId", JS.of_nat 42);
                     (str "firstName", JS.Str (str "Ann"));
                     (str "tokens", JS.of_nat 0);
                     (str "referralCode", JS.Str (str "a60JYSGj"))])])
|}.

(** The referral link of a bot whose name is written in Cyrillic, with a
    code of [nanoid]. *)
Definition cyrillic_link : jsstring :=
  Share.referralLink (Some [1073; 1086; 1090]%N) (str "a60JYSGj").

End Scenarios.

(** * Properties *)

(** ** The runtime model on known values *)

Section KnownValues.

(** The first and the last round constant, and the initial hash value. *)
Example round_constants :
  List.length Crypto.K = 64
  /\ nth 0 Crypto.K 0%N = 0x428a2f98%N /\ nth 63 Crypto.K 0%N = 0xc67178f2%N
  /\ Crypto.H0 = [0x6a09e667; 0xbb67ae85; 0x3c6ef372; 0xa54ff53a;
                  0x510e527f; 0x9b05688c; 0x1f83d9ab; 0x5be0cd19]%N.
Proof. repeat split. Qed.

(** FIPS 180-4, the one-block and the two-block message. *)
Example sha256_abc :
  Crypto.hex (Crypto.sha256 (str "abc"))
  = str "ba7816bf8f01cfea414140de5dae2223b00361a396177a9cb410ff61f20015ad".
Proof. vm_compute. reflexivity. Qed.

Example sha256_two_blocks :
  Crypto.hex
    (Crypto.sha256
       (str "abcdbcdecdefdefgefghfghighijhijkijkljklmklmnlmnomnopnopq"))
  = str "248d6a61d20638b8e5c026930c3e6039a33ce45964ff2167f6ecedd419db06c1".
Proof. vm_compute. reflexivity. Qed.

(** RFC 4231, test cases 2 and 6 (a key longer than a block). *)
Example hmac_sha256_rfc4231_2 :
  Crypto.hex (Crypto.hmac_sha256 (str "Jefe") (str "what do ya want for nothing?"))
  = str "5bdcc146bf60754e6a042426089575c75a003f089d2739839dec58b964ec3843".
Proof. vm_compute. reflexivity. Qed.

Example hmac_sha256_rfc4231_6 :
  Crypto.hex
    (Crypto.hmac_sha256 (repeat 170%N 131)
       (str "Test Using Larger Than Block-Size Key - Hash Key First"))
  = str "60e431591ee0b67f0d8a26aacbf5b77f8e0bc6213728c5140546040f0ee37f54".
Proof. vm_compute. reflexivity. Qed.

(** The pairs of the signed payload, decoded. *)
Example signed_payload_pairs :
  URLSearchParams.get (str "auth_date")
    (URLSearchParams.of_string Examples.signed_payload)
  = Some (str "1700000000")
  /\ option_map JSON.parse
       (URLSearchParams.get (str "user")
          (URLSearchParams.of_string Examples.signed_payload))
     = Some (inr Examples.claim_Ann)
  /\ List.length (URLSearchParams.of_string Examples.signed_payload) = 3.
Proof. vm_compute. repeat split; reflexivity. Qed.

(** Ill-formed UTF-8 decodes to U+FFFD, an astral character to a surrogate
    pair, and [+] to a space. *)
Example decode_component_examples :
  List.map URLSearchParams.decode_component
    [str "%F0%90%80%80"; str "%ff%C3%A9"; str "%e2%82"; str "a+b%2"]
  = [[55296; 56320]; [65533; 233]; [65533]; str "a b%2"]%N.
Proof. vm_compute. reflexivity. Qed.

(** Texts that are not JSON. *)
Example parse_rejects :
  List.map JSON.parse
    [str ""; str "01"; str "1."; str "[1,]"; str "tru"; str "[1 2]";
     str "nulll"; str "{1:2}"; str "-"; str "+1"; str ".5"; str "[";
     str "{}{}"]
  = repeat (inl JS.SyntaxError) 13.
Proof. vm_compute. reflexivity. Qed.

End KnownValues.

(** ** The order of strings *)

Section CodeUnitOrder.

Lemma compare_refl (a : jsstring) : Unicode.compare a a = Eq.
Proof.
  induction a as [|x a IH]; simpl; [reflexivity|].
  rewrite N.compare_refl. exact IH.
Qed.

Lemma compare_eq (a b : jsstring) : Unicode.compare a b = Eq -> a = b.
Proof.
  revert b. induction a as [|x a IH]; intros [|y b]; simpl; try discriminate.
  - reflexivity.
  - destruct (N.compare x y) eqn:E; try discriminate.
    intros H. apply N.compare_eq in E. apply IH in H. congruence.
Qed.

Lemma compare_antisym (a b : jsstring) :
  Unicode.compare b a = CompOpp (Unicode.compare a b).
Proof.
  revert b. induction a as [|x a IH]; intros [|y b]; simpl; try reflexivity.
  rewrite (N.compare_antisym x y).
  destruct (N.compare x y); simpl; auto.
Qed.

Lemma compare_lt_trans (a b c : jsstring) :
  Unicode.compare a b = Lt -> Unicode.compare b c = Lt ->
  Unicode.compare a c = Lt.
Proof.
  revert b c. induction a as [|x a IH]; intros [|y b] [|z c]; simpl;
    try discriminate; try reflexivity.
  destruct (N.compare x y) eqn:Exy; try discriminate;
    destruct (N.compare y z) eqn:Eyz; try discriminate; intros H1 H2.
  - apply N.compare_eq in Exy, Eyz. subst. rewrite N.compare_refl. eauto.
  - apply N.compare_eq in Exy. subst. rewrite Eyz. reflexivity.
  - apply N.compare_eq in Eyz. subst. rewrite Exy. reflexivity.
  - assert (N.compare x z = Lt) as ->; [|reflexivity].
    rewrite N.compare_lt_iff in *. lia.
Qed.

Lemma eqb_eq (a b : jsstring) : Unicode.eqb a b = true <-> a = b.
Proof.
  unfold Unicode.eqb. split.
  - destruct (Unicode.compare a b) eqn:E; try discriminate.
    intros _. apply compare_eq, E.
  - intros ->. rewrite compare_refl. reflexivity.
Qed.

Lemma eqb_refl (a : jsstring) : Unicode.eqb a a = true.
Proof. apply eqb_eq. reflexivity. Qed.

Lemma eqb_neq (a b : jsstring) : Unicode.eqb a b = false <-> a <> b.
Proof.
  rewrite <- eqb_eq. destruct (Unicode.eqb a b); split; congruence.
Qed.

Lemma ltb_irrefl (a : jsstring) : Unicode.ltb a a = false.
Proof. unfold Unicode.ltb. rewrite compare_refl. reflexivity. Qed.

Lemma ltb_trans (a b c : jsstring) :
  Unicode.ltb a b = true -> Unicode.ltb b c = true -> Unicode.ltb a c = true.
Proof.
  unfold Unicode.ltb.
  destruct (Unicode.compare a b) eqn:E1; try discriminate.
  destruct (Unicode.compare b c) eqn:E2; try discriminate.
  rewrite (compare_lt_trans _ _ _ E1 E2). reflexivity.
Qed.

Lemma ltb_asym (a b : jsstring) : Unicode.ltb a b = true -> Unicode.ltb b a = false.
Proof.
  unfold Unicode.ltb. rewrite (compare_antisym a b).
  destruct (Unicode.compare a b); simpl; congruence.
Qed.

(** The order is total: two strings neither of which is before the other
    are equal. *)
Lemma ltb_total (a b : jsstring) :
  Unicode.ltb a b = false -> Unicode.ltb b a = false -> a = b.
Proof.
  unfold Unicode.ltb. rewrite (compare_antisym a b).
  destruct (Unicode.compare a b) eqn:E; simpl; try discriminate.
  intros _ _. apply compare_eq, E.
Qed.

Lemma ltb_neq (a b : jsstring) : Unicode.ltb a b = true -> a <> b.
Proof. intros H ->. rewrite ltb_irrefl in H. discriminate. Qed.

(** Not after is transitive. *)
Lemma not_ltb_trans (a b c : jsstring) :
  Unicode.ltb b a = false -> Unicode.ltb c b = false -> Unicode.ltb c a = false.
Proof.
  intros Hab Hbc. destruct (Unicode.ltb c a) eqn:Hca; [|reflexivity].
  destruct (Unicode.ltb a b) eqn:E.
  - rewrite (ltb_trans _ _ _ Hca E) in Hbc. discriminate.
  - rewrite (ltb_total _ _ E Hab) in Hca. congruence.
Qed.

End CodeUnitOrder.

(** ** [URLSearchParams]: [sort], [get] and [delete] *)

Section SearchParams.

Implicit Types (p q : jsstring * jsstring) (l s : list (jsstring * jsstring)).
Implicit Types (k name : jsstring).

Lemma insert_perm p l : Permutation (p :: l) (URLSearchParams.insert p l).
Proof.
  induction l as [|q l IH]; simpl; [reflexivity|].
  destruct (Unicode.ltb (fst q) (fst p)); [|reflexivity].
  rewrite perm_swap. apply perm_skip, IH.
Qed.

Lemma sort_perm l : Permutation l (URLSearchParams.sort l).
Proof.
  induction l as [|p l IH]; simpl; [reflexivity|].
  rewrite <- insert_perm. apply perm_skip, IH.
Qed.

Lemma key_le_trans p q r : Spec.key_le p q -> Spec.key_le q r -> Spec.key_le p r.
Proof. unfold Spec.key_le. apply not_ltb_trans. Qed.

Lemma insert_sorted p l :
  StronglySorted Spec.key_le l ->
  StronglySorted Spec.key_le (URLSearchParams.insert p l).
Proof.
  induction 1 as [|q l Hl IH Hq]; simpl.
  - repeat constructor.
  - destruct (Unicode.ltb (fst q) (fst p)) eqn:E.
    + constructor; [exact IH|].
      rewrite <- (insert_perm p l). constructor; [|exact Hq].
      unfold Spec.key_le. apply ltb_asym, E.
    + constructor; [constructor; assumption|].
      constructor; [exact E|].
      eapply List.Forall_impl; [|exact Hq].
      intros r Hr. eapply key_le_trans; [exact E|exact Hr].
Qed.

Lemma sort_sorted l : StronglySorted Spec.key_le (URLSearchParams.sort l).
Proof.
  induction l as [|p l IH]; simpl; [constructor|]. apply insert_sorted, IH.
Qed.

(** [sort] is stable: the pairs of one key keep their order. *)
Lemma insert_filter k p l :
  List.filter (Spec.has_key k) (URLSearchParams.insert p l)
  = List.filter (Spec.has_key k) (p :: l).
Proof.
  induction l as [|q l IH]; [reflexivity|].
  cbn [URLSearchParams.insert].
  destruct (Unicode.ltb (fst q) (fst p)) eqn:E; [|reflexivity].
  cbn [List.filter] in *. rewrite IH.
  destruct (Spec.has_key k p) eqn:Hp, (Spec.has_key k q) eqn:Hq; try reflexivity.
  unfold Spec.has_key in Hp, Hq. apply eqb_eq in Hp, Hq.
  apply ltb_neq in E. congruence.
Qed.

Lemma sort_stable k l :
  List.filter (Spec.has_key k) (URLSearchParams.sort l)
  = List.filter (Spec.has_key k) l.
Proof.
  induction l as [|p l IH]; [reflexivity|].
  cbn [URLSearchParams.sort fold_right]. rewrite insert_filter.
  cbn [List.filter]. fold (URLSearchParams.sort l). rewrite IH. reflexivity.
Qed.

Lemma sort_sorted_by_key l : Spec.sorted_by_key Spec.key_le l (URLSearchParams.sort l).
Proof.
  split; [apply sort_perm|]. split; [apply sort_sorted|].
  intros k. apply sort_stable.
Qed.

Lemma filter_has_key_in k p l :
  In p (List.filter (Spec.has_key k) l) <-> In p l /\ fst p = k.
Proof.
  rewrite List.filter_In. unfold Spec.has_key. rewrite eqb_eq. reflexivity.
Qed.

(** Two lists sorted by key that hold the same pairs under every key, in the
    same order, are the same list. *)
Lemma sorted_same_filters l s :
  StronglySorted Spec.key_le l -> StronglySorted Spec.key_le s ->
  (forall k, List.filter (Spec.has_key k) l = List.filter (Spec.has_key k) s) ->
  l = s.
Proof.
  intros Hl. revert s. induction Hl as [|p l Hl IH Hp]; intros s Hs Hf.
  - destruct s as [|q s]; [reflexivity|].
    specialize (Hf (fst q)). cbn in Hf. unfold Spec.has_key in Hf.
    rewrite eqb_refl in Hf. discriminate.
  - destruct s as [|q s].
    { specialize (Hf (fst p)). cbn in Hf. unfold Spec.has_key in Hf.
      rewrite eqb_refl in Hf. discriminate. }
    inversion Hs as [|q' s' Hs' Hq]; subst.
    assert (fst p = fst q) as Hk.
    { assert (In q (p :: l)) as Hin.
      { apply (filter_has_key_in (fst q) q). rewrite Hf.
        apply filter_has_key_in. split; [left|]; reflexivity. }
      assert (In p (q :: s)) as Hin'.
      { apply (filter_has_key_in (fst p) p). rewrite <- Hf.
        apply filter_has_key_in. split; [left|]; reflexivity. }
      apply ltb_total.
      - destruct Hin' as [->|Hin']; [apply ltb_irrefl|].
        rewrite List.Forall_forall in Hq. apply (Hq p Hin').
      - destruct Hin as [->|Hin]; [apply ltb_irrefl|].
        rewrite List.Forall_forall in Hp. apply (Hp q Hin). }
    assert (p = q) as ->.
    { specialize (Hf (fst p)). cbn in Hf. unfold Spec.has_key in Hf.
      rewrite Hk, !eqb_refl in Hf. congruence. }
    f_equal. apply IH; [exact Hs'|].
    intros k. specialize (Hf k). cbn in Hf.
    destruct (Spec.has_key k q); congruence.
Qed.

(** [sort] gives the one list that is sorted by key and stable. *)
Lemma sorted_by_key_unique l s :
  Spec.sorted_by_key Spec.key_le l s -> s = URLSearchParams.sort l.
Proof.
  intros (_ & Hs & Hf). apply sorted_same_filters; [exact Hs|apply sort_sorted|].
  intros k. rewrite Hf, sort_stable. reflexivity.
Qed.

(** [get] reads the first pair of the key. *)
Lemma get_filter name l :
  URLSearchParams.get name l
  = option_map snd (hd_error (List.filter (Spec.has_key name) l)).
Proof.
  induction l as [|[k v] l IH]; [reflexivity|].
  cbn. unfold Spec.has_key at 1. cbn.
  destruct (Unicode.eqb k name); [reflexivity|exact IH].
Qed.

Lemma get_sort name l :
  URLSearchParams.get name (URLSearchParams.sort l) = URLSearchParams.get name l.
Proof. rewrite !get_filter, sort_stable. reflexivity. Qed.

Lemma get_delete_ne name k l :
  k <> name ->
  URLSearchParams.get k (URLSearchParams.delete name l) = URLSearchParams.get k l.
Proof.
  intros Hne. induction l as [|[k' v] l IH]; [reflexivity|].
  cbn. destruct (Unicode.eqb k' name) eqn:E; cbn.
  - apply eqb_eq in E. subst k'.
    assert (Unicode.eqb name k = false) as -> by (apply eqb_neq; congruence).
    exact IH.
  - destruct (Unicode.eqb k' k); [reflexivity|exact IH].
Qed.

Lemma get_delete_eq name l :
  URLSearchParams.get name (URLSearchParams.delete name l) = None.
Proof.
  induction l as [|[k v] l IH]; [reflexivity|].
  cbn. destruct (Unicode.eqb k name) eqn:E; cbn; [exact IH|].
  rewrite E. exact IH.
Qed.

(** With a key met twice, [get] gives the value met first. *)
Lemma get_first name v l1 l2 :
  URLSearchParams.get name l1 = None ->
  URLSearchParams.get name (l1 ++ (name, v) :: l2) = Some v.
Proof.
  induction l1 as [|[k' v'] l1 IH]; cbn.
  - rewrite eqb_refl. reflexivity.
  - destruct (Unicode.eqb k' name); [discriminate|exact IH].
Qed.

Lemma get_Some_in name v l :
  URLSearchParams.get name l = Some v -> In (name, v) l.
Proof.
  induction l as [|[k' v'] l IH]; cbn; [discriminate|].
  destruct (Unicode.eqb k' name) eqn:E.
  - apply eqb_eq in E. intros [= ->]. left. congruence.
  - intros H. right. apply IH, H.
Qed.

(** The data-check string of the source is the one of the specification. *)
Lemma dataCheckString_spec l :
  Verifier.dataCheckString l = Spec.data_check_string l.
Proof.
  unfold Verifier.dataCheckString, Verifier.dataCheckArr.
  induction l as [|[k v] l IH]; [reflexivity|].
  destruct l as [|[k' v'] l]; [reflexivity|].
  cbn [List.map Verifier.join Spec.data_check_string fst snd] in *.
  rewrite IH, <- !app_assoc. reflexivity.
Qed.

End SearchParams.

(** ** The verifier on any platform *)

Section AnyPlatform.

Variable P : Platform.

Ltac run := unfold Verifier.bind, Verifier.call, Verifier.ret, Verifier.write,
  Verifier.throw, Verifier.returned, Verifier.try_catch; cbn [fst snd].

(** Looking at [auth_date] returns, whatever it writes. *)
Lemma check_auth_date_returns (urlParams : URLSearchParams.t) :
  fst (Verifier.check_auth_date P urlParams) = inr tt.
Proof.
  unfold Verifier.check_auth_date.
  destruct (URLSearchParams.get (str "auth_date") urlParams) as [[|c a]|];
    try reflexivity.
  destruct (JS.parseInt (c :: a)); [|reflexivity].
  destruct (Verifier.EXPIRATION_SECONDS <? Date_now P / 1000 - z)%Z; reflexivity.
Qed.

(** What the inner [try] returns. *)
Lemma extract_user_cases (urlParams : URLSearchParams.t) :
  let r := fst (Verifier.extract_user P urlParams) in
  r = Verifier.invalid (Some Verifier.User_data_missing)
  \/ r = Verifier.invalid (Some Verifier.Invalid_user_data_format)
  \/ exists userJson,
       URLSearchParams.get (str "user") urlParams = Some userJson
       /\ userJson <> []
       /\ JSON_parse P userJson = inr (Verifier.user r)
       /\ JS.to_string_throws (JS.get (Verifier.user r) (str "id")) = false
       /\ r = {| Verifier.valid := true; Verifier.user := Verifier.user r;
                 Verifier.error := None |}.
Proof.
  unfold Verifier.extract_user.
  destruct (URLSearchParams.get (str "user") urlParams) as [[|c u]|];
    [left; reflexivity| |left; reflexivity].
  destruct (JSON_parse P (c :: u)) as [e|user] eqn:Hparse; run;
    [right; left; reflexivity|].
  destruct (JS.to_string_throws (JS.get user (str "id"))) eqn:Hid; run;
    [right; left; reflexivity|].
  right; right. exists (c :: u). repeat split; try assumption. discriminate.
Qed.

(** What the body of the outer [try] returns, when it returns. *)
Lemma validation_cases (initData botToken : jsstring) (v : Verifier.verdict) :
  fst (Verifier.validation P initData botToken) = inr v ->
  v = Verifier.invalid (Some Verifier.Hash_missing)
  \/ v = Verifier.invalid (Some Verifier.Hash_mismatch)
  \/ exists urlParams, v = fst (Verifier.extract_user P urlParams).
Proof.
  unfold Verifier.validation.
  destruct (new_URLSearchParams P initData) as [e|urlParams]; run;
    [discriminate|].
  destruct (URLSearchParams.get (str "hash") urlParams) as [[|c h]|]; run;
    try (intros [= <-]; left; reflexivity).
  pose proof (check_auth_date_returns
                (URLSearchParams.delete (str "hash") urlParams)) as Hc.
  destruct (Verifier.check_auth_date P _) as [[e|[]] out]; cbn in Hc;
    [discriminate|].
  unfold Verifier.calculatedHash. run.
  destruct (createHmac_sha256 P _ botToken) as [e|secretKey]; run;
    [discriminate|].
  destruct (createHmac_sha256 P secretKey _) as [e|digest]; run;
    [discriminate|].
  destruct (Unicode.eqb (Crypto.hex digest) (c :: h)); run.
  - intros [= <-]. right; right. eexists. reflexivity.
  - intros [= <-]. right; left. reflexivity.
Qed.

(** The function returns the verdict of its body, and the internal-error
    verdict when the body throws. *)
Lemma isValidTelegramData_body (c d : N) (initData botToken : jsstring) :
  fst (Verifier.isValidTelegramData P (c :: initData) (d :: botToken))
  = match fst (Verifier.validation P (c :: initData) (d :: botToken)) with
    | inr v => v
    | inl _ => Verifier.invalid (Some Verifier.Internal_validation_error)
    end.
Proof.
  unfold Verifier.isValidTelegramData, Verifier.try_catch.
  destruct (Verifier.validation P (c :: initData) (d :: botToken))
    as [[e|v] out]; reflexivity.
Qed.

(** Every verdict is one of the five failures, the verdict without reason
    of the guard, or the success of the inner [try]. *)
Lemma isValidTelegramData_cases (initData botToken : jsstring) :
  let v := fst (Verifier.isValidTelegramData P initData botToken) in
  (v = Verifier.invalid None /\ (initData = [] \/ botToken = []))
  \/ (exists r, v = Verifier.invalid (Some r))
  \/ exists userJson,
       userJson <> []
       /\ JSON_parse P userJson = inr (Verifier.user v)
       /\ JS.to_string_throws (JS.get (Verifier.user v) (str "id")) = false
       /\ v = {| Verifier.valid := true; Verifier.user := Verifier.user v;
                 Verifier.error := None |}.
Proof.
  destruct initData as [|c i]; [left; split; [reflexivity|left; reflexivity]|].
  destruct botToken as [|d b];
    [left; split; [reflexivity|right; reflexivity]|].
  cbv zeta. rewrite isValidTelegramData_body.
  destruct (fst (Verifier.validation P (c :: i) (d :: b))) as [e|v] eqn:Hv;
    [right; left; eexists; reflexivity|].
  apply validation_cases in Hv as [->|[->|[urlParams ->]]];
    try (right; left; eexists; reflexivity).
  destruct (extract_user_cases urlParams) as [->|[->|(u & _ & Hu & Hp & Hid & Hr)]];
    try (right; left; eexists; reflexivity).
  right; right. exists u. auto.
Qed.

End AnyPlatform.

(** ** The digest has a fixed length *)

Section DigestLength.

Lemma round_length (k w : N) (s : list N) :
  List.length (Crypto.round k w s) = List.length s.
Proof.
  unfold Crypto.round.
  destruct s as [|a [|b [|c [|d [|e [|f [|g [|h [|i s]]]]]]]]]; reflexivity.
Qed.

Lemma rounds_length (ks win s : list N) :
  List.length (Crypto.rounds ks win s) = List.length s.
Proof.
  revert win s. induction ks as [|k ks IH]; intros win s; [reflexivity|].
  cbn [Crypto.rounds]. rewrite IH. apply round_length.
Qed.

Lemma compress_length (h block : list N) :
  List.length (Crypto.compress h block) = List.length h.
Proof.
  unfold Crypto.compress.
  rewrite List.length_map, List.length_combine, rounds_length. lia.
Qed.

Lemma blocks_length (n : nat) (ws h : list N) :
  List.length (Crypto.blocks n ws h) = List.length h.
Proof.
  revert ws h. induction n as [|n IH]; intros ws h; [reflexivity|].
  cbn [Crypto.blocks]. rewrite IH. apply compress_length.
Qed.

Lemma flat_map_length_const {A B} (f : A -> list B) (n : nat) (l : list A) :
  (forall x, List.length (f x) = n) ->
  List.length (flat_map f l) = List.length l * n.
Proof.
  intros Hf. induction l as [|x l IH]; [reflexivity|].
  cbn [flat_map]. rewrite List.length_app, Hf, IH. cbn. lia.
Qed.

(** A SHA-256 digest has 32 bytes, and so has an HMAC. *)
Lemma sha256_length (m : bytes) : List.length (Crypto.sha256 m) = 32.
Proof.
  unfold Crypto.sha256.
  rewrite (flat_map_length_const _ 4) by reflexivity.
  rewrite blocks_length. reflexivity.
Qed.

Lemma hmac_sha256_length (key msg : bytes) :
  List.length (Crypto.hmac_sha256 key msg) = 32.
Proof. unfold Crypto.hmac_sha256. apply sha256_length. Qed.

Lemma hex_length (b : bytes) : List.length (Crypto.hex b) = List.length b * 2.
Proof. unfold Crypto.hex. apply flat_map_length_const. reflexivity. Qed.

(** The calculated hash is a string of 64 characters. *)
Lemma calculated_hash_length (secret : jsstring) (sorted : URLSearchParams.t) :
  List.length (Spec.calculated_hash secret sorted) = 64.
Proof.
  unfold Spec.calculated_hash. rewrite hex_length, hmac_sha256_length.
  reflexivity.
Qed.

Lemma calculated_hash_not_empty (secret : jsstring) (sorted : URLSearchParams.t) :
  Spec.calculated_hash secret sorted <> [].
Proof.
  intros H. pose proof (calculated_hash_length secret sorted) as Hl.
  rewrite H in Hl. discriminate.
Qed.

End DigestLength.

(** ** The verifier on Node *)

Section OnNode.

Variable now : Z.

Lemma user_is_not_hash : str "user" <> str "hash".
Proof. intros H. vm_compute in H. discriminate. Qed.

(** The user value read after [delete] and [sort] is the first one of the
    payload. *)
Lemma get_user_signed_pairs (initData : jsstring) :
  URLSearchParams.get (str "user")
    (URLSearchParams.sort (Spec.signed_pairs initData))
  = URLSearchParams.get (str "user") (URLSearchParams.of_string initData).
Proof.
  unfold Spec.signed_pairs. rewrite get_sort.
  apply get_delete_ne, user_is_not_hash.
Qed.

Lemma extract_user_Node (urlParams : URLSearchParams.t) :
  fst (Verifier.extract_user (Node now) urlParams)
  = match URLSearchParams.get (str "user") urlParams with
    | Some (c :: userJson) =>
        match JSON.parse (c :: userJson) with
        | inr claim =>
            if JS.to_string_throws (JS.get claim (str "id"))
            then Verifier.invalid (Some Verifier.Invalid_user_data_format)
            else {| Verifier.valid := true; Verifier.user := claim;
                    Verifier.error := None |}
        | inl _ => Verifier.invalid (Some Verifier.Invalid_user_data_format)
        end
    | _ => Verifier.invalid (Some Verifier.User_data_missing)
    end.
Proof.
  unfold Verifier.extract_user.
  destruct (URLSearchParams.get (str "user") urlParams) as [[|c u]|];
    try reflexivity.
  cbn [JSON_parse Node].
  destruct (JSON.parse (c :: u)) as [e|claim]; [reflexivity|].
  unfold Verifier.bind, Verifier.call, Verifier.try_catch.
  destruct (JS.to_string_throws (JS.get claim (str "id"))); reflexivity.
Qed.

(** The verdict on Node, for a payload and a secret that are not empty. *)
Lemma isValidTelegramData_Node (initData botToken : jsstring) :
  initData <> [] -> botToken <> [] ->
  fst (Verifier.isValidTelegramData (Node now) initData botToken)
  = match URLSearchParams.get (str "hash") (URLSearchParams.of_string initData) with
    | Some (c :: hash) =>
        if Unicode.eqb
             (Spec.calculated_hash botToken
                (URLSearchParams.sort (Spec.signed_pairs initData)))
             (c :: hash)
        then fst (Verifier.extract_user (Node now)
                    (URLSearchParams.sort (Spec.signed_pairs initData)))
        else Verifier.invalid (Some Verifier.Hash_mismatch)
    | _ => Verifier.invalid (Some Verifier.Hash_missing)
    end.
Proof.
  destruct initData as [|c0 i]; [congruence|].
  destruct botToken as [|d0 b]; [congruence|]. intros _ _.
  rewrite isValidTelegramData_body. unfold Verifier.validation.
  cbn [new_URLSearchParams Node].
  unfold Verifier.bind at 1, Verifier.call at 1.
  destruct (URLSearchParams.get (str "hash")
              (URLSearchParams.of_string (c0 :: i))) as [[|c h]|];
    try reflexivity.
  pose proof (check_auth_date_returns (Node now)
                (URLSearchParams.delete (str "hash")
                   (URLSearchParams.of_string (c0 :: i)))) as Hc.
  destruct (Verifier.check_auth_date (Node now) _) as [[e|[]] out];
    cbn in Hc; [discriminate|].
  unfold Verifier.calculatedHash. cbn [createHmac_sha256 Node].
  unfold Verifier.bind, Verifier.call, Verifier.ret, Verifier.returned,
    Verifier.write. cbn [fst snd].
  rewrite dataCheckString_spec. fold (Spec.signed_pairs (c0 :: i)).
  fold (Spec.calculated_hash (d0 :: b)
          (URLSearchParams.sort (Spec.signed_pairs (c0 :: i)))).
  destruct (Unicode.eqb _ (c :: h)); reflexivity.
Qed.

End OnNode.

(** ** The claims about the verifier *)

Section VerifierClaims.

(** C10. With an empty secret the function returns at its guard: on every
    runtime, and so whatever the parser and the HMAC would do, the verdict is
    invalid with a [null] user and no [error], and the console holds the one
    line of the guard. *)
Theorem empty_secret_short_circuits (P : Platform) (initData : jsstring) :
  Verifier.isValidTelegramData P initData []
  = ({| Verifier.valid := false; Verifier.user := JS.Null;
        Verifier.error := None |},
     [Verifier.Error_missing_input]).
Proof. destruct initData; reflexivity. Qed.



(** On the runtime whose HMAC throws, the signed payload of the
    specification gets the internal-error verdict. *)
Example thrown_error_is_mapped :
  fst (Verifier.isValidTelegramData Examples.failing_crypto
         Examples.signed_payload Examples.secret)
  = Verifier.invalid (Some Verifier.Internal_validation_error).
Proof. vm_compute. reflexivity. Qed.

(** C7. The verdict does not depend on the clock; a payload that is valid
    at one time is valid at any other, also when its [auth_date] is then
    reported as older than the expiration. *)
Theorem verify_deterministic (now1 now2 : Z) (initData botToken : jsstring) :
  let r1 := Verifier.isValidTelegramData (Node now1) initData botToken in
  let r2 := Verifier.isValidTelegramData (Node now2) initData botToken in
  fst r1 = fst r2
  /\ (In Verifier.Warn_older_than_expiration (snd r2) ->
      Verifier.valid (fst r1) = true -> Verifier.valid (fst r2) = true).
Proof.
  assert (fst (Verifier.isValidTelegramData (Node now1) initData botToken)
          = fst (Verifier.isValidTelegramData (Node now2) initData botToken))
    as Heq.
  { destruct initData as [|c i]; [reflexivity|].
    destruct botToken as [|d b]; [reflexivity|].
    rewrite !isValidTelegramData_Node by discriminate.
    rewrite !extract_user_Node. reflexivity. }
  cbv zeta. split; [exact Heq|]. intros _. rewrite Heq. auto.
Qed.

Lemma verify_deterministic_witness :
  let r1 := Verifier.isValidTelegramData (Node 1700000001000)
              Examples.signed_payload Examples.secret in
  let r2 := Verifier.isValidTelegramData (Node 1800000001000)
              Examples.signed_payload Examples.secret in
  In Verifier.Warn_older_than_expiration (snd r2)
  /\ Verifier.valid (fst r1) = true
  /\ Verifier.valid (fst r2) = true.
Proof.
  assert (In Verifier.Warn_older_than_expiration
            (snd (Verifier.isValidTelegramData (Node 1800000001000)
                    Examples.signed_payload Examples.secret))) as Hw
    by (vm_compute; left; reflexivity).
  assert (Verifier.valid
            (fst (Verifier.isValidTelegramData (Node 1700000001000)
                    Examples.signed_payload Examples.secret)) = true) as Hv
    by (vm_compute; reflexivity).
  split; [exact Hw|]. split; [exact Hv|].
  exact (proj2 (verify_deterministic 1700000001000 1800000001000
                  Examples.signed_payload Examples.secret) Hw Hv).
Defined.

(** The age of [auth_date] is written to the console exactly when it is
    above the expiration, for a payload with a [hash]. *)
Lemma expiration_is_only_reported (now : Z) (urlParams : URLSearchParams.t) :
  In Verifier.Warn_older_than_expiration
     (snd (Verifier.check_auth_date (Node now) urlParams))
  <-> exists authDate t,
        URLSearchParams.get (str "auth_date") urlParams = Some authDate
        /\ JS.parseInt authDate = Some t
        /\ (Verifier.EXPIRATION_SECONDS < now / 1000 - t)%Z.
Proof.
  unfold Verifier.check_auth_date. cbn [Date_now Node].
  destruct (URLSearchParams.get (str "auth_date") urlParams) as [[|c a]|].
  - cbn. split; [intros [H|[]]; discriminate|].
    intros (a & t & [= <-] & Hp & _). discriminate.
  - destruct (JS.parseInt (c :: a)) as [t|] eqn:Hp.
    + destruct (Verifier.EXPIRATION_SECONDS <? now / 1000 - t)%Z eqn:Hlt.
      * apply Z.ltb_lt in Hlt. split; [|intros _; left; reflexivity].
        intros _. exists (c :: a), t. auto.
      * apply Z.ltb_ge in Hlt. cbn. split; [intros []|].
        intros (a' & t' & [= <-] & Hp' & Hlt'). rewrite Hp in Hp'.
        injection Hp' as <-. lia.
    + cbn. split; [intros []|].
      intros (a' & t' & [= <-] & Hp' & _). congruence.
  - cbn. split; [intros [H|[]]; discriminate|].
    intros (a & t & [=] & _).
Qed.

End VerifierClaims.

Section VerdictClaims.

(** C3, amended. A valid verdict carries what [JSON.parse] made of the first
    [user] value of the payload, whatever JSON value that is; an invalid
    verdict carries [null]. *)
Theorem valid_verdict_carries_parsed_user (now : Z)
    (initData botToken : jsstring) :
  let v := fst (Verifier.isValidTelegramData (Node now) initData botToken) in
  (Verifier.valid v = true ->
   exists userJson,
     URLSearchParams.get (str "user") (URLSearchParams.of_string initData)
     = Some userJson
     /\ JSON.parse userJson = inr (Verifier.user v))
  /\ (Verifier.valid v = false -> Verifier.user v = JS.Null).
Proof.
  cbv zeta. split.
  - destruct initData as [|c0 i]; [discriminate|].
    destruct botToken as [|d0 b]; [discriminate|].
    rewrite isValidTelegramData_Node by discriminate.
    destruct (URLSearchParams.get (str "hash") _) as [[|c h]|];
      try discriminate.
    destruct (Unicode.eqb _ (c :: h)); [|discriminate].
    rewrite extract_user_Node, get_user_signed_pairs.
    destruct (URLSearchParams.get (str "user") _) as [[|cu u]|];
      try discriminate.
    destruct (JSON.parse (cu :: u)) as [e|claim] eqn:Hp; [discriminate|].
    destruct (JS.to_string_throws _); [discriminate|]. intros _.
    exists (cu :: u). split; [reflexivity|exact Hp].
  - pose proof (isValidTelegramData_cases (Node now) initData botToken) as H.
    cbv zeta in H.
    destruct H as [[-> _]|[[r ->]|(u & _ & _ & _ & ->)]];
      try reflexivity. discriminate.
Qed.

Lemma valid_verdict_carries_parsed_user_witness :
  let v := fst (Verifier.isValidTelegramData (Node 1700000001000)
                  Examples.signed_payload Examples.secret) in
  Verifier.valid v = true
  /\ exists userJson,
       URLSearchParams.get (str "user")
         (URLSearchParams.of_string Examples.signed_payload) = Some userJson
       /\ JSON.parse userJson = inr (Verifier.user v).
Proof.
  assert (Verifier.valid
            (fst (Verifier.isValidTelegramData (Node 1700000001000)
                    Examples.signed_payload Examples.secret)) = true) as Hv
    by (vm_compute; reflexivity).
  split; [exact Hv|].
  exact (proj1 (valid_verdict_carries_parsed_user 1700000001000
                  Examples.signed_payload Examples.secret) Hv).
Defined.

(** The signed payload whose user is [null] is valid, and its claim is
    [null]: valid does not imply that a user object is present. *)
Lemma null_user_is_valid :
  let v := fst (Verifier.isValidTelegramData (Node 1700000001000)
                  Examples.null_user_payload Examples.secret) in
  Verifier.valid v = true /\ Verifier.user v = JS.Null.
Proof. vm_compute. split; reflexivity. Qed.

(** C2, amended. An empty payload or secret fails with no reason code.
    Otherwise: a payload whose first [hash] is missing or empty fails with
    [missing_hash]; a [hash] that is not the calculated one, with
    [hash_mismatch]; a correctly hashed payload whose first [user] is missing
    or empty, with [missing_user_data]; one whose [user] is not JSON, with
    [malformed_user_json]. *)
Theorem verify_reason_codes (now : Z) (initData botToken : jsstring) :
  let pairs := URLSearchParams.of_string initData in
  let calculated :=
    Spec.calculated_hash botToken
      (URLSearchParams.sort (Spec.signed_pairs initData)) in
  let v := fst (Verifier.isValidTelegramData (Node now) initData botToken) in
  (initData = [] \/ botToken = [] -> Spec.fails_with v None)
  /\ (initData <> [] -> botToken <> [] ->
      (URLSearchParams.get (str "hash") pairs = None
       \/ URLSearchParams.get (str "hash") pairs = Some [] ->
       Spec.fails_with v (Some Spec.missing_hash))
      /\ (forall hash,
            URLSearchParams.get (str "hash") pairs = Some hash ->
            hash <> [] -> hash <> calculated ->
            Spec.fails_with v (Some Spec.hash_mismatch))
      /\ (URLSearchParams.get (str "hash") pairs = Some calculated ->
          (URLSearchParams.get (str "user") pairs = None
           \/ URLSearchParams.get (str "user") pairs = Some [] ->
           Spec.fails_with v (Some Spec.missing_user_data))
          /\ (forall userJson e,
                URLSearchParams.get (str "user") pairs = Some userJson ->
                userJson <> [] -> JSON.parse userJson = inl e ->
                Spec.fails_with v (Some Spec.malformed_user_json)))).
Proof.
  cbv zeta. split.
  - intros [->| ->]; [|destruct initData]; repeat split.
  - intros Hi Hb. rewrite (isValidTelegramData_Node now _ _ Hi Hb).
    split; [|split].
    + intros [-> | ->]; repeat split.
    + intros hash -> Hne Hcalc. destruct hash as [|c h]; [congruence|].
      destruct (Unicode.eqb _ (c :: h)) eqn:E; [|repeat split].
      apply eqb_eq in E. congruence.
    + intros ->.
      destruct (Spec.calculated_hash _ _) as [|c h] eqn:Hcalc;
        [apply calculated_hash_not_empty in Hcalc; contradiction|].
      rewrite eqb_refl, extract_user_Node, get_user_signed_pairs.
      split.
      * intros [-> | ->]; repeat split.
      * intros userJson e -> Hne Hp. destruct userJson as [|cu u]; [congruence|].
        rewrite Hp. repeat split.
Qed.

Lemma verify_reason_codes_witness :
  Spec.fails_with
    (fst (Verifier.isValidTelegramData (Node 1700000001000)
            Examples.tampered_payload Examples.secret))
    (Some Spec.hash_mismatch).
Proof.
  refine (proj1 (proj2 (proj2 (verify_reason_codes 1700000001000
            Examples.tampered_payload Examples.secret) _ _))
            (str "dd7d06b20d867618a72e34a8760e18ec5646734fdefae1cb033c1fd784d30a63")
            _ _ _).
  - discriminate.
  - discriminate.
  - vm_compute. reflexivity.
  - discriminate.
  - vm_compute. discriminate.
Defined.

(** The empty payload fails with no reason code, not [missing_hash], and so
    does a payload under the empty secret; a [hash] pair with an empty value
    fails with [missing_hash], not [hash_mismatch]; a correctly hashed
    payload with an empty [user] value, which is not JSON, fails with
    [missing_user_data], not [malformed_user_json]. *)
Lemma empty_payload_has_no_reason :
  Verifier.error
    (fst (Verifier.isValidTelegramData (Node 1700000001000) [] Examples.secret))
  = None
  /\ Verifier.error
       (fst (Verifier.isValidTelegramData (Node 1700000001000)
               (str "auth_date=1700000000") []))
     = None
  /\ URLSearchParams.get (str "hash")
       (URLSearchParams.of_string (str "auth_date=1700000000&hash=")) = Some []
  /\ Verifier.error
       (fst (Verifier.isValidTelegramData (Node 1700000001000)
               (str "auth_date=1700000000&hash=") Examples.secret))
     = Some Verifier.Hash_missing
  /\ option_map JSON.parse
       (URLSearchParams.get (str "user")
          (URLSearchParams.of_string Examples.empty_user_payload))
     = Some (inl JS.SyntaxError)
  /\ Verifier.error
       (fst (Verifier.isValidTelegramData (Node 1700000001000)
               Examples.empty_user_payload Examples.secret))
     = Some Verifier.User_data_missing.
Proof. vm_compute. repeat split; reflexivity. Qed.

(** The other reason codes, on the payloads of the examples. *)
Example reason_codes_examples :
  List.map
    (fun p => Verifier.error
                (fst (Verifier.isValidTelegramData (Node 1700000001000) p
                        Examples.secret)))
    [str "auth_date=1700000000"; Examples.no_user_payload;
     Examples.truncated_user_payload; Examples.tampered_payload;
     Examples.signed_payload]
  = [Some Verifier.Hash_missing; Some Verifier.User_data_missing;
     Some Verifier.Invalid_user_data_format; Some Verifier.Hash_mismatch;
     None].
Proof. vm_compute. reflexivity. Qed.

End VerdictClaims.

(** ** The canonical string and the order of the pairs *)

Section CanonicalString.

Implicit Types (l s : list (jsstring * jsstring)) (k name : jsstring).

Lemma parse_empty_text : JSON.parse [] = inl JS.SyntaxError.
Proof. reflexivity. Qed.

(** C1, amended. For a secret that is not empty and a payload with a [hash]
    pair, the verdict is valid with the claim [claim] exactly when the first
    [hash] value is [hex(HMAC-SHA256(HMAC-SHA256("WebAppData", secret),
    dataCheckString))] and the first [user] value parses to [claim], where
    the string is built from the pairs other than [hash], sorted by key by
    UTF-16 code units, pairs of one key in their order; a differing hash
    gives an invalid verdict.  Claims whose [id] cannot be converted to a
    string are left aside. *)
Theorem valid_iff_hash_matches (now : Z) (initData botToken hash : jsstring)
    (sorted : URLSearchParams.t) (claim : JS.value) :
  botToken <> [] ->
  URLSearchParams.get (str "hash") (URLSearchParams.of_string initData)
  = Some hash ->
  Spec.sorted_by_key Spec.key_le (Spec.signed_pairs initData) sorted ->
  JS.to_string_throws (JS.get claim (str "id")) = false ->
  let v := fst (Verifier.isValidTelegramData (Node now) initData botToken) in
  ((Verifier.valid v = true /\ Verifier.user v = claim)
   <-> (hash = Spec.calculated_hash botToken sorted
        /\ exists userJson,
             URLSearchParams.get (str "user")
               (URLSearchParams.of_string initData) = Some userJson
             /\ JSON.parse userJson = inr claim))
  /\ (hash <> Spec.calculated_hash botToken sorted ->
      Verifier.valid v = false).
Proof.
  intros Hb Hhash Hsorted Hid. apply sorted_by_key_unique in Hsorted.
  subst sorted.
  assert (initData <> []) as Hi by (intros ->; discriminate).
  cbv zeta. rewrite (isValidTelegramData_Node now _ _ Hi Hb), Hhash.
  destruct hash as [|c h].
  { split; [|reflexivity]. split; [intros [[=] _]|].
    intros [H _]. symmetry in H.
    apply calculated_hash_not_empty in H. contradiction. }
  destruct (Unicode.eqb _ (c :: h)) eqn:E.
  - apply eqb_eq in E. rewrite extract_user_Node, get_user_signed_pairs.
    split; [|congruence]. split.
    + intros [Hv Hu]. split; [congruence|].
      destruct (URLSearchParams.get (str "user") _) as [[|cu u]|];
        try discriminate.
      destruct (JSON.parse (cu :: u)) as [e|claim'] eqn:Hp; [discriminate|].
      destruct (JS.to_string_throws (JS.get claim' _)); [discriminate|].
      cbn in Hu. subst claim'. exists (cu :: u). auto.
    + intros [_ (userJson & -> & Hp)].
      destruct userJson as [|cu u]; [discriminate|].
      rewrite Hp, Hid. auto.
  - apply eqb_neq in E. split; [|reflexivity].
    split; [intros [[=] _]|]. intros [H _]. congruence.
Qed.

Lemma valid_iff_hash_matches_witness :
  let v := fst (Verifier.isValidTelegramData (Node 1700000001000)
                  Examples.signed_payload Examples.secret) in
  Verifier.valid v = true /\ Verifier.user v = Examples.claim_Ann.
Proof.
  refine (proj2 (proj1 (valid_iff_hash_matches 1700000001000
            Examples.signed_payload Examples.secret
            (str "dd7d06b20d867618a72e34a8760e18ec5646734fdefae1cb033c1fd784d30a63")
            (URLSearchParams.sort (Spec.signed_pairs Examples.signed_payload))
            Examples.claim_Ann _ _ _ _)) _).
  - discriminate.
  - vm_compute. reflexivity.
  - apply sort_sorted_by_key.
  - vm_compute. reflexivity.
  - split; [vm_compute; reflexivity|].
    eexists. split; vm_compute; reflexivity.
Defined.

(** The claim fails for the empty secret: the hash is the calculated one and
    the user parses, yet the verdict is invalid.  And it fails for the order
    by bytes: the pairs of the payload are in that order, the verdict is
    valid, and the hash is not the one calculated over them. *)
Lemma empty_secret_and_bytewise_order_differ :
  (let p := Examples.empty_secret_payload in
   exists hash userJson claim,
     URLSearchParams.get (str "hash") (URLSearchParams.of_string p) = Some hash
     /\ hash = Spec.calculated_hash []
                 (URLSearchParams.sort (Spec.signed_pairs p))
     /\ URLSearchParams.get (str "user") (URLSearchParams.of_string p)
        = Some userJson
     /\ JSON.parse userJson = inr claim
     /\ Verifier.valid
          (fst (Verifier.isValidTelegramData (Node 1700000001000) p []))
        = false)
  /\ (let p := Examples.astral_key_payload in
      exists hash,
        URLSearchParams.get (str "hash") (URLSearchParams.of_string p)
        = Some hash
        /\ Spec.sorted_by_key Spec.key_le_bytewise (Spec.signed_pairs p)
             Examples.astral_key_bytewise
        /\ Verifier.valid
             (fst (Verifier.isValidTelegramData (Node 1700000001000) p
                     Examples.secret)) = true
        /\ hash <> Spec.calculated_hash Examples.secret
                     Examples.astral_key_bytewise).
Proof.
  split; cbv zeta.
  - eexists _, _, _. repeat split; vm_compute; reflexivity.
  - eexists. split; [vm_compute; reflexivity|]. split; [|split].
    + assert (Spec.signed_pairs Examples.astral_key_payload
              = Examples.astral_key_bytewise) as -> by (vm_compute; reflexivity).
      split; [reflexivity|]. split; [|reflexivity].
      repeat constructor; vm_compute; reflexivity.
    + vm_compute. reflexivity.
    + vm_compute. discriminate.
Qed.

(** The claims left aside by the theorem: the [id] of the user is an object
    with a [toString] that is no function, the template literal of the
    inner [try] throws a [TypeError], and the signed payload is refused as
    if its user were not JSON. *)
Example unprintable_id_is_refused :
  Verifier.isValidTelegramData (Node 1700000001000)
    Examples.unprintable_id_payload Examples.secret
  = (Verifier.invalid (Some Verifier.Invalid_user_data_format),
     [Verifier.Warn_auth_date_missing; Verifier.Error_parse_user JS.TypeError]).
Proof. vm_compute. reflexivity. Qed.




End CanonicalString.

(** ** The order of the pairs in the payload *)

Section PairOrder.

Implicit Types (l s : list (jsstring * jsstring)) (k name : jsstring).

Lemma filter_perm (f : jsstring * jsstring -> bool) l s :
  Permutation l s -> Permutation (List.filter f l) (List.filter f s).
Proof.
  induction 1 as [|p l s _ IH|p q l|l s t _ IH1 _ IH2]; cbn.
  - constructor.
  - destruct (f p); [constructor|]; exact IH.
  - destruct (f p), (f q); try reflexivity. apply perm_swap.
  - etransitivity; eassumption.
Qed.

Lemma filter_absent_key k l :
  ~ In k (List.map fst l) -> List.filter (Spec.has_key k) l = [].
Proof.
  induction l as [|p l IH]; [reflexivity|]. cbn. intros Hn.
  destruct (Spec.has_key k p) eqn:E.
  - apply eqb_eq in E. tauto.
  - apply IH. tauto.
Qed.

(** With keys all different, at most one pair has a given key. *)
Lemma filter_distinct_keys k l :
  List.NoDup (List.map fst l) ->
  List.length (List.filter (Spec.has_key k) l) <= 1.
Proof.
  induction l as [|p l IH]; cbn; [lia|].
  intros Hnd. apply List.NoDup_cons_iff in Hnd as [Hp Hnd].
  destruct (Spec.has_key k p) eqn:E; [|auto].
  apply eqb_eq in E. subst k. rewrite filter_absent_key by exact Hp. cbn. lia.
Qed.

Lemma filter_perm_distinct_keys k l s :
  Permutation l s -> List.NoDup (List.map fst l) ->
  List.filter (Spec.has_key k) l = List.filter (Spec.has_key k) s.
Proof.
  intros Hperm Hnd.
  pose proof (filter_distinct_keys k l Hnd) as Hlen.
  pose proof (filter_perm (Spec.has_key k) l s Hperm) as Hf.
  destruct (List.filter (Spec.has_key k) l) as [|p [|q r]]; cbn in Hlen;
    [| |lia].
  - apply Permutation_nil in Hf. congruence.
  - apply Permutation_length_1_inv in Hf. congruence.
Qed.

Lemma filter_delete k name l :
  List.filter (Spec.has_key k) (URLSearchParams.delete name l)
  = if Unicode.eqb k name then [] else List.filter (Spec.has_key k) l.
Proof.
  unfold URLSearchParams.delete.
  induction l as [|p l IH]; cbn [List.filter];
    [destruct (Unicode.eqb k name); reflexivity|].
  destruct (Unicode.eqb (fst p) name) eqn:E1; cbn [negb List.filter];
    rewrite IH.
  - destruct (Unicode.eqb k name) eqn:E3; [reflexivity|].
    assert (Spec.has_key k p = false) as ->; [|reflexivity].
    apply eqb_neq. apply eqb_eq in E1. apply eqb_neq in E3. congruence.
  - destruct (Spec.has_key k p) eqn:E2; [|reflexivity].
    assert (Unicode.eqb k name = false) as ->; [|reflexivity].
    apply eqb_neq. apply eqb_eq in E2. apply eqb_neq in E1. congruence.
Qed.

(** Two payloads, not empty, whose pairs are the same up to their order,
    and of keys all different, get the same verdict. *)
Lemma verdict_of_permuted_pairs (now : Z)
    (initData1 initData2 botToken : jsstring) :
  initData1 <> [] -> initData2 <> [] ->
  Permutation (URLSearchParams.of_string initData1)
              (URLSearchParams.of_string initData2) ->
  List.NoDup (List.map fst (URLSearchParams.of_string initData1)) ->
  fst (Verifier.isValidTelegramData (Node now) initData1 botToken)
  = fst (Verifier.isValidTelegramData (Node now) initData2 botToken).
Proof.
  intros H1 H2 Hperm Hnd.
  destruct botToken as [|d b];
    [destruct initData1, initData2; reflexivity|].
  rewrite !isValidTelegramData_Node by (assumption || discriminate).
  assert (forall k, List.filter (Spec.has_key k) (URLSearchParams.of_string initData1)
                    = List.filter (Spec.has_key k) (URLSearchParams.of_string initData2))
    as Hf by (intros k; apply filter_perm_distinct_keys; assumption).
  assert (URLSearchParams.sort (Spec.signed_pairs initData1)
          = URLSearchParams.sort (Spec.signed_pairs initData2)) as ->.
  { apply sorted_same_filters; try apply sort_sorted.
    intros k. unfold Spec.signed_pairs.
    rewrite !sort_stable, !filter_delete, Hf. reflexivity. }
  rewrite (get_filter _ (URLSearchParams.of_string initData1)), Hf,
    <- get_filter. reflexivity.
Qed.

End PairOrder.

(** ** Payloads as pairs joined by [&] *)

Section PayloadSegments.

(** Lists are also explored two elements at a time, as [utf8_encode] reads
    surrogate pairs. *)
Lemma list_pair_ind {A} (Q : list A -> Prop) :
  Q [] -> (forall x, Q [x]) ->
  (forall x y l, Q l -> Q (y :: l) -> Q (x :: y :: l)) ->
  forall l, Q l.
Proof.
  intros H0 H1 H2 l.
  assert (Q l /\ forall x, Q (x :: l)) as [H _]; [|exact H].
  induction l as [|y l [IH1 IH2]]; [split; [exact H0|exact H1]|].
  split; [apply IH2|]. intros x. apply H2; [exact IH1|apply IH2].
Qed.

Lemma encode_code_point_no_amp (cp : N) :
  cp <> 38%N -> ~ In 38%N (Unicode.encode_code_point cp).
Proof.
  intros Hcp. unfold Unicode.encode_code_point.
  destruct (cp <? 128)%N; [cbn; intuition congruence|].
  generalize (cp / 64 mod 64)%N; intros a.
  generalize (cp / 4096 mod 64)%N; intros b.
  generalize (cp mod 64)%N (cp / 64)%N (cp / 4096)%N (cp / 262144)%N.
  intros c d e f.
  destruct (cp <? 2048)%N; [cbn; intuition lia|].
  destruct (cp <? 65536)%N; cbn; intuition lia.
Qed.

Lemma utf8_encode_pair (x y : N) (l : jsstring) :
  Unicode.utf8_encode (x :: y :: l)
  = if Unicode.is_high_surrogate x then
      if Unicode.is_low_surrogate y
      then Unicode.encode_code_point
             (65536 + (x - 55296) * 1024 + (y - 56320))%N
             ++ Unicode.utf8_encode l
      else Unicode.encode_code_point 65533 ++ Unicode.utf8_encode (y :: l)
    else if Unicode.is_low_surrogate x
         then Unicode.encode_code_point 65533 ++ Unicode.utf8_encode (y :: l)
         else Unicode.encode_code_point x ++ Unicode.utf8_encode (y :: l).
Proof. reflexivity. Qed.

Lemma utf8_encode_no_amp (s : jsstring) :
  ~ In 38%N s -> ~ In 38%N (Unicode.utf8_encode s).
Proof.
  induction s as [|x|x y l IH1 IH2] using list_pair_ind; [auto| |].
  - intros Hx. cbn [Unicode.utf8_encode].
    destruct (Unicode.is_high_surrogate x);
      [|destruct (Unicode.is_low_surrogate x)];
      rewrite ?app_nil_r; apply encode_code_point_no_amp;
      try discriminate. cbn in Hx. intuition congruence.
  - intros Hx. rewrite utf8_encode_pair.
    assert (x <> 38%N /\ ~ In 38%N (y :: l) /\ ~ In 38%N l) as (Hx1 & Hx2 & Hx3)
      by (cbn in Hx |- *; intuition congruence).
    destruct (Unicode.is_high_surrogate x);
      [destruct (Unicode.is_low_surrogate y)
      |destruct (Unicode.is_low_surrogate x)];
      rewrite in_app_iff; intros [H|H];
      try (revert H; apply encode_code_point_no_amp; (lia || discriminate || assumption));
      try (revert H; (apply IH1 || apply IH2); assumption).
Qed.

(** Encoding goes through a separator [&]: no surrogate pair spans it. *)
Lemma utf8_encode_app_amp (a b : jsstring) :
  Unicode.utf8_encode (a ++ 38%N :: b)
  = Unicode.utf8_encode a ++ 38%N :: Unicode.utf8_encode b.
Proof.
  induction a as [|x|x y l IH1 IH2] using list_pair_ind.
  - reflexivity.
  - cbn [app Unicode.utf8_encode].
    change (Unicode.is_low_surrogate 38) with false.
    change (Unicode.utf8_encode (38%N :: b)) with (38%N :: Unicode.utf8_encode b).
    destruct (Unicode.is_high_surrogate x);
      [|destruct (Unicode.is_low_surrogate x)];
      rewrite ?app_nil_r; reflexivity.
  - change ((x :: y :: l) ++ 38%N :: b) with (x :: y :: (l ++ 38%N :: b)).
    rewrite !utf8_encode_pair.
    change (y :: l ++ 38%N :: b) with ((y :: l) ++ 38%N :: b).
    rewrite IH1, IH2.
    destruct (Unicode.is_high_surrogate x);
      [destruct (Unicode.is_low_surrogate y)
      |destruct (Unicode.is_low_surrogate x)];
      rewrite <- app_assoc; reflexivity.
Qed.

Lemma split_on_app (sep : N) (x y : bytes) :
  ~ In sep x ->
  URLSearchParams.split_on sep (x ++ sep :: y)
  = x :: URLSearchParams.split_on sep y.
Proof.
  induction x as [|c x IH]; cbn [app URLSearchParams.split_on]; intros Hx.
  - rewrite N.eqb_refl. reflexivity.
  - assert ((c =? sep)%N = false) as -> by (apply N.eqb_neq; cbn in Hx; intuition).
    rewrite IH by (cbn in Hx; intuition). reflexivity.
Qed.

Lemma split_on_absent (sep : N) (x : bytes) :
  ~ In sep x -> URLSearchParams.split_on sep x = [x].
Proof.
  induction x as [|c x IH]; cbn [URLSearchParams.split_on]; intros Hx;
    [reflexivity|].
  assert ((c =? sep)%N = false) as -> by (apply N.eqb_neq; cbn in Hx; intuition).
  rewrite IH by (cbn in Hx; intuition). reflexivity.
Qed.

(** The pairs of a payload written as segments joined by [&], when no
    segment holds a [&] or starts with [?]. *)
Lemma of_string_join (segments : list jsstring) :
  Forall (fun s => ~ In 38%N s /\ hd_error s <> Some 63%N) segments ->
  URLSearchParams.of_string (Verifier.join [38%N] segments)
  = flat_map (fun s => URLSearchParams.parse_sequence (Unicode.utf8_encode s))
             segments.
Proof.
  intros Hs.
  assert (URLSearchParams.of_string (Verifier.join [38%N] segments)
          = URLSearchParams.parse_urlencoded
              (Unicode.utf8_encode (Verifier.join [38%N] segments))) as ->.
  { unfold URLSearchParams.of_string.
    destruct Hs as [|s rest [_ Hq] _]; [reflexivity|].
    destruct rest as [|s' rest]; destruct s as [|c s];
      cbn [Verifier.join app]; try reflexivity;
      (destruct (c =? 63)%N eqn:E; [|reflexivity]);
      apply N.eqb_eq in E; subst c; cbn in Hq; congruence. }
  unfold URLSearchParams.parse_urlencoded.
  induction Hs as [|s rest [Hamp _] Hrest IH]; [reflexivity|].
  destruct rest as [|s' rest].
  - cbn [Verifier.join flat_map].
    rewrite split_on_absent by (apply utf8_encode_no_amp, Hamp).
    reflexivity.
  - change (Verifier.join [38%N] (s :: s' :: rest))
      with (s ++ 38%N :: Verifier.join [38%N] (s' :: rest)).
    rewrite utf8_encode_app_amp,
      split_on_app by (apply utf8_encode_no_amp, Hamp).
    cbn [flat_map]. rewrite IH. reflexivity.
Qed.

Lemma join_empty (segments : list jsstring) :
  Verifier.join [38%N] segments = [] -> segments = [] \/ segments = [[]].
Proof.
  destruct segments as [|s [|s' rest]]; cbn [Verifier.join]; auto.
  - intros ->. auto.
  - intros H. apply app_eq_nil in H as [_ H]. discriminate.
Qed.

(** C9, amended. Take a payload as key=value pairs joined by [&] (no pair
    holds a [&] or starts with [?]).  When the keys of its pairs are all
    different, the verdict is the same for every order of the pairs. *)
Theorem verdict_independent_of_pair_order (now : Z)
    (pairs1 pairs2 : list jsstring) (botToken : jsstring) :
  Permutation pairs1 pairs2 ->
  Forall (fun s => ~ In 38%N s /\ hd_error s <> Some 63%N) pairs1 ->
  List.NoDup
    (List.map fst (URLSearchParams.of_string (Verifier.join [38%N] pairs1))) ->
  fst (Verifier.isValidTelegramData (Node now)
         (Verifier.join [38%N] pairs1) botToken)
  = fst (Verifier.isValidTelegramData (Node now)
           (Verifier.join [38%N] pairs2) botToken).
Proof.
  intros Hperm Hs Hnd.
  assert (Forall (fun s => ~ In 38%N s /\ hd_error s <> Some 63%N) pairs2)
    as Hs2 by (eapply Permutation_Forall; eassumption).
  destruct (Verifier.join [38%N] pairs1) as [|c1 r1] eqn:E1.
  { apply join_empty in E1 as [-> | ->].
    - apply Permutation_nil in Hperm. subst. reflexivity.
    - apply Permutation_length_1_inv in Hperm. subst. reflexivity. }
  destruct (Verifier.join [38%N] pairs2) as [|c2 r2] eqn:E2.
  { apply join_empty in E2 as [-> | ->].
    - symmetry in Hperm. apply Permutation_nil in Hperm. subst. discriminate.
    - symmetry in Hperm. apply Permutation_length_1_inv in Hperm. subst.
      discriminate. }
  apply verdict_of_permuted_pairs; try discriminate; [|exact Hnd].
  rewrite <- E1, <- E2, !of_string_join by assumption.
  apply Permutation_flat_map, Hperm.
Qed.

Lemma verdict_independent_of_pair_order_witness :
  fst (Verifier.isValidTelegramData (Node 1700000001000)
         Examples.signed_payload Examples.secret)
  = fst (Verifier.isValidTelegramData (Node 1700000001000)
           Examples.reordered_payload Examples.secret).
Proof.
  assert (Examples.signed_payload
          = Verifier.join [38%N] Examples.signed_pairs) as ->
    by (vm_compute; reflexivity).
  assert (Examples.reordered_payload
          = Verifier.join [38%N]
              (List.tl Examples.signed_pairs
               ++ [List.hd [] Examples.signed_pairs])) as ->
    by (vm_compute; reflexivity).
  apply verdict_independent_of_pair_order.
  - apply (Permutation_cons_append (List.tl Examples.signed_pairs)
             (List.hd [] Examples.signed_pairs)).
  - repeat constructor; vm_compute; intuition discriminate.
  - vm_compute. repeat constructor; cbn; intuition discriminate.
Defined.

(** With a key met twice the order matters: the two payloads hold the same
    pairs, and one has the right hash while the other does not.  So it does
    for a pair that starts with [?]: first in the payload it loses the [?],
    elsewhere the [?] is part of its key. *)
Lemma duplicate_key_order_matters :
  (Permutation (URLSearchParams.of_string Examples.duplicate_key_payload)
               (URLSearchParams.of_string Examples.duplicate_key_swapped)
   /\ Verifier.error
        (fst (Verifier.isValidTelegramData (Node 1700000001000)
                Examples.duplicate_key_payload Examples.secret))
      = Some Verifier.User_data_missing
   /\ Verifier.error
        (fst (Verifier.isValidTelegramData (Node 1700000001000)
                Examples.duplicate_key_swapped Examples.secret))
      = Some Verifier.Hash_mismatch)
  /\ (exists first second,
        Examples.question_mark_payload = Verifier.join [38%N] [first; second]
        /\ Examples.question_mark_swapped
           = Verifier.join [38%N] [second; first]
        /\ Verifier.error
             (fst (Verifier.isValidTelegramData (Node 1700000001000)
                     Examples.question_mark_payload Examples.secret))
           = Some Verifier.User_data_missing
        /\ Verifier.error
             (fst (Verifier.isValidTelegramData (Node 1700000001000)
                     Examples.question_mark_swapped Examples.secret))
           = Some Verifier.Hash_mismatch).
Proof.
  split.
  - split; [|split; vm_compute; reflexivity].
    vm_compute. apply perm_swap.
  - exists (str "?a=1"),
      (str "hash=f27d51c30add70cd3f8bbb33e4eab6daee7eeaefd683cb50fb92681b774e7a5d").
    repeat split; vm_compute; reflexivity.
Qed.

End PayloadSegments.

(** ** Objects and documents *)

Section Objects.

Implicit Types (k : jsstring) (v : JS.value) (props : list (jsstring * JS.value)).

Lemma obj_get_set_eq k v props : JS.obj_get k (JS.obj_set k v props) = v.
Proof.
  induction props as [|[k' v'] props IH]; cbn.
  - rewrite eqb_refl. reflexivity.
  - destruct (Unicode.eqb k' k) eqn:E; cbn.
    + rewrite eqb_refl. reflexivity.
    + rewrite E. exact IH.
Qed.

Lemma obj_get_set_ne k k' v props :
  k <> k' -> JS.obj_get k' (JS.obj_set k v props) = JS.obj_get k' props.
Proof.
  intros Hne. induction props as [|[k0 v0] props IH]; cbn.
  - apply eqb_neq in Hne. rewrite Hne. reflexivity.
  - destruct (Unicode.eqb k0 k) eqn:E; cbn.
    + apply eqb_eq in E. subst k0. apply eqb_neq in Hne. rewrite Hne.
      reflexivity.
    + destruct (Unicode.eqb k0 k'); [reflexivity|exact IH].
Qed.

(** A truthy value is not [undefined]. *)
Lemma truthy_defined v : JS.truthy v = true -> v <> JS.Undefined.
Proof. intros H ->. discriminate. Qed.

Lemma forallb_obj_set (f : jsstring * JS.value -> bool) k v props :
  f (k, v) = true -> forallb f props = true ->
  forallb f (JS.obj_set k v props) = true.
Proof.
  intros Hv. induction props as [|[k' v'] props IH]; cbn.
  - rewrite Hv. reflexivity.
  - intros H. apply andb_true_iff in H as [H1 H2].
    destruct (Unicode.eqb k' k); cbn.
    + rewrite Hv. exact H2.
    + rewrite H1. apply IH, H2.
Qed.

(** A property of a value built by [JSON.parse] is such a value, or
    [undefined]; it is never a sentinel. *)
Lemma get_from_json v k :
  JS.from_json v = true ->
  JS.get v k = JS.Undefined \/ JS.from_json (JS.get v k) = true.
Proof.
  destruct v as [| | | | | |props| |]; try (left; reflexivity).
  cbn [JS.from_json JS.get]. induction props as [|[k' v'] props IH]; cbn.
  - left. reflexivity.
  - intros H. apply andb_true_iff in H as [H1 H2].
    destruct (Unicode.eqb k' k); [right; exact H1|apply IH, H2].
Qed.

Lemma get_not_sentinel v k :
  JS.from_json v = true -> JS.get v k <> JS.ServerTimestamp.
Proof.
  intros H. destruct (get_from_json v k H) as [-> | Hj]; [discriminate|].
  intros E. rewrite E in Hj. discriminate.
Qed.

(** A written value that is no sentinel is stored as it is. *)
Lemma resolve_plain (t : Z) k v :
  v <> JS.ServerTimestamp -> Server.resolve t (k, v) = (k, v).
Proof. unfold Server.resolve. destruct v; cbn; congruence. Qed.

Lemma or_not_sentinel (a b : JS.value) :
  a <> JS.ServerTimestamp -> b <> JS.ServerTimestamp ->
  JS.or a b <> JS.ServerTimestamp.
Proof. unfold JS.or. destruct (JS.truthy a); auto. Qed.

End Objects.

(** ** [JSON.parse] builds JSON values *)

Section ParserInvariant.

Lemma deliver_ok (v : JS.value) (stack : list JSON.frame) :
  JS.from_json v = true -> Forall JSON.frame_ok stack ->
  JSON.state_ok (JSON.deliver v stack).
Proof.
  intros Hv Hs. destruct Hs as [|[items|props key] stack Hf Hs]; cbn.
  - exact Hv.
  - cbn in Hf. rewrite Hv, Hf. auto.
  - split; [|exact Hs]. apply forallb_obj_set; assumption.
Qed.

Lemma value_token_ok (stack : list JSON.frame) (tok : JSON.token)
    (st : JSON.parse_state) :
  Forall JSON.frame_ok stack -> JSON.value_token stack tok = Some st ->
  JSON.state_ok st.
Proof.
  intros Hs. destruct tok; cbn; intros [= <-]; try exact Hs;
    apply deliver_ok; auto.
Qed.

Lemma parse_step_ok (st st' : JSON.parse_state) (tok : JSON.token) :
  JSON.state_ok st -> JSON.parse_step st tok = Some st' -> JSON.state_ok st'.
Proof.
  destruct st as [stack|stack|items stack|stack|props stack|props key stack
                  |props stack|v]; cbn [JSON.state_ok JSON.parse_step].
  - apply value_token_ok.
  - intros Hs.
    destruct tok; try (apply value_token_ok; repeat constructor; assumption).
    intros [= <-]. apply deliver_ok; auto.
  - intros [Hi Hs]. destruct tok; try discriminate; intros [= <-].
    + apply deliver_ok; [|exact Hs]. cbn [JS.from_json].
      apply forallb_forall. intros x Hx. apply in_rev in Hx.
      rewrite forallb_forall in Hi. apply Hi, Hx.
    + cbn. constructor; assumption.
  - intros Hs. destruct tok; try discriminate; intros [= <-].
    + apply deliver_ok; auto.
    + cbn. split; [reflexivity|exact Hs].
  - intros [Hp Hs]. destruct tok; try discriminate; intros [= <-].
    cbn. auto.
  - intros [Hp Hs]. destruct tok; try discriminate; intros [= <-].
    cbn. constructor; assumption.
  - intros [Hp Hs]. destruct tok; try discriminate; intros [= <-].
    + apply deliver_ok; assumption.
    + cbn. auto.
  - intros _. destruct tok; discriminate.
Qed.

Lemma parse_tokens_ok (toks : list JSON.token) (st : JSON.parse_state)
    (v : JS.value) :
  JSON.state_ok st -> JSON.parse_tokens st toks = Some v ->
  JS.from_json v = true.
Proof.
  revert st. induction toks as [|tok toks IH]; intros st Hst; cbn.
  - destruct st; try discriminate. intros [= <-]. exact Hst.
  - destruct (JSON.parse_step st tok) as [st'|] eqn:E; [|discriminate].
    apply IH. eapply parse_step_ok; eassumption.
Qed.

(** What [JSON.parse] returns holds no [undefined] and no Firestore value. *)
Lemma parse_from_json (text : jsstring) (v : JS.value) :
  JSON.parse text = inr v -> JS.from_json v = true.
Proof.
  unfold JSON.parse. destruct (JSON.lex JSON.LStart text) as [toks|];
    [|discriminate].
  destruct (JSON.parse_tokens (JSON.PValue []) toks) as [v'|] eqn:E;
    [|discriminate].
  intros [= <-]. eapply parse_tokens_ok; [|exact E]. constructor.
Qed.

End ParserInvariant.

(** ** The profile sync *)

Section Sync.

Ltac str_neq := let H := fresh in intros H; vm_compute in H; discriminate.

Lemma or_merged (a b : JS.value) :
  JS.or (JS.or a b) JS.Null = Spec.merged a (Spec.merged b JS.Null).
Proof.
  unfold JS.or, Spec.merged.
  destruct (JS.truthy a) eqn:Ha; [rewrite Ha|]; reflexivity.
Qed.

Lemma or_defined (a b : JS.value) : b <> JS.Undefined -> JS.or a b <> JS.Undefined.
Proof.
  unfold JS.or. destruct (JS.truthy a) eqn:Ha; [|auto].
  intros _. apply truthy_defined, Ha.
Qed.

Lemma resolve_or (t : Z) (k : jsstring) (a b : JS.value) :
  a <> JS.ServerTimestamp -> b <> JS.ServerTimestamp ->
  Server.resolve t (k, JS.or a b) = (k, JS.or a b).
Proof. intros Ha Hb. apply resolve_plain, or_not_sentinel; assumption. Qed.

Lemma defined_match (v : JS.value) :
  v <> JS.Undefined ->
  match v with JS.Undefined => true | _ => false end = false.
Proof. destruct v; congruence. Qed.

Lemma digits_fuel_not_empty (fuel : nat) (n : N) (acc : jsstring) :
  acc <> [] -> JS.digits_fuel fuel n acc <> [].
Proof.
  revert n acc. induction fuel as [|fuel IH]; intros n acc Hacc; cbn;
    [exact Hacc|].
  destruct (n <? 10)%N; [discriminate|]. apply IH. discriminate.
Qed.

(** The fuel of [digits] is enough: the digits written are those of the
    number, and [parseInt] reads it back. *)
Lemma digits_fuel_value (fuel : nat) (n : N) (acc : jsstring) :
  (n < 10 ^ N.of_nat fuel)%N ->
  exists ds,
    JS.digits_fuel fuel n acc = ds ++ acc
    /\ Forall (fun d => (48 <= d <= 57)%N) ds
    /\ JS.decimal_value ds = Z.of_N n.
Proof.
  revert n acc. induction fuel as [|fuel IH]; intros n acc Hn.
  - exists []. cbn in *. repeat split; [constructor|]. unfold JS.decimal_value.
    cbn. lia.
  - cbn [JS.digits_fuel].
    pose proof (N.div_mod' n 10) as Hdm.
    pose proof (N.mod_lt n 10) as Hlt.
    destruct (n <? 10)%N eqn:E.
    + apply N.ltb_lt in E. exists [(48 + n mod 10)%N].
      rewrite N.mod_small by exact E.
      split; [reflexivity|]. split; [repeat constructor; lia|].
      unfold JS.decimal_value. cbn. lia.
    + apply N.ltb_ge in E.
      destruct (IH (n / 10)%N ((48 + n mod 10)%N :: acc)) as (ds & Hds & Hd & Hv).
      { apply N.Div0.div_lt_upper_bound.
        rewrite Nat2N.inj_succ, N.pow_succ_r' in Hn. exact Hn. }
      exists (ds ++ [(48 + n mod 10)%N]).
      split; [rewrite Hds, <- app_assoc; reflexivity|].
      split.
      * apply Forall_app. split; [exact Hd|].
        repeat constructor; generalize dependent (n mod 10)%N; intros; lia.
      * unfold JS.decimal_value in *. rewrite fold_left_app, Hv. cbn.
        generalize dependent (n mod 10)%N. generalize dependent (n / 10)%N.
        intros. lia.
Qed.

Lemma leading_digits_value (ds : jsstring) (a : option Z) :
  Forall (fun d => (48 <= d <= 57)%N) ds -> ds <> [] ->
  JS.leading_digits ds a
  = Some (fold_left (fun a d => (a * 10 + Z.of_N (d - 48))%Z) ds
            (match a with Some a => a | None => 0%Z end)).
Proof.
  intros Hd. revert a. induction Hd as [|d ds Hd1 Hd IH]; intros a Hne;
    [congruence|].
  cbn [JS.leading_digits fold_left].
  assert (((48 <=? d) && (d <=? 57))%N = true) as ->.
  { apply andb_true_iff. split; apply N.leb_le; lia. }
  destruct ds as [|d' ds]; [reflexivity|].
  rewrite IH by discriminate. reflexivity.
Qed.

Lemma digits_parseInt (n : N) : JS.parseInt (JS.digits n) = Some (Z.of_N n).
Proof.
  unfold JS.digits.
  destruct (digits_fuel_value (S (N.to_nat (N.log2 n))) n [])
    as (ds & Hds & Hd & Hv).
  { rewrite Nat2N.inj_succ, N2Nat.id.
    destruct n as [|p]; [reflexivity|].
    eapply N.lt_le_trans; [apply N.log2_spec; reflexivity|].
    apply N.pow_le_mono_l. lia. }
  rewrite Hds, app_nil_r.
  assert (ds <> []) as Hne.
  { intros ->. cbn [JS.digits_fuel app] in Hds.
    destruct (n <? 10)%N; [discriminate|].
    revert Hds. apply digits_fuel_not_empty. discriminate. }
  destruct Hd as [|d ds Hd1 Hd]; [congruence|].
  unfold JS.parseInt.
  assert (JS.skip_white_space (d :: ds) = d :: ds) as ->.
  { cbn. assert (JS.is_white_space d = false) as ->; [|reflexivity].
    unfold JS.is_white_space.
    repeat (apply orb_false_iff; split);
      try (apply andb_false_iff; left; apply N.leb_gt; lia);
      try (apply andb_false_iff; right; apply N.leb_gt; lia);
      try (apply N.eqb_neq; lia). }
  assert ((d =? 45)%N = false) as -> by (apply N.eqb_neq; lia).
  assert ((d =? 43)%N = false) as -> by (apply N.eqb_neq; lia).
  rewrite leading_digits_value by (try constructor; assumption || discriminate).
  unfold JS.decimal_value in Hv. rewrite Hv. reflexivity.
Qed.




Lemma nanoid_alphabet (random : nat -> N) (size : nat) :
  Forall (fun c => In c Server.urlAlphabet) (Server.nanoid random size).
Proof.
  unfold Server.nanoid. apply List.Forall_map, List.Forall_forall.
  intros i _. apply nth_In.
  assert (List.length Server.urlAlphabet = 64) as -> by reflexivity.
  pose proof (N.land_le_r (random i) 63) as Hle.  lia.
Qed.

End Sync.

Section SyncClaims.

Ltac str_neq := let H := fresh in intros H; vm_compute in H; discriminate.




(** C4, amended. For a claim built by [JSON.parse] and an existing document
    under [String(claim.id)], a sync that answers 200 leaves the other
    documents and, in this one, [tokens], [referralCode], [referredBy],
    [referralsMade], [createdAt] and [connectedWallet]; sets [lastLogin] to
    the time of the write; and sets each of the four claim fields to the
    value of the claim if it is truthy, else to the existing value, which
    for [username] and [lastName] is kept only if truthy and is [null]
    otherwise. *)
Theorem sync_preserves_profile (env : Server.environment)
    (db db' : gmap (list N) (list (jsstring * JS.value)))
    (telegramUser : JS.value) (userIdString : jsstring)
    (existingData : list (jsstring * JS.value)) (r : Server.response) :
  JS.from_json telegramUser = true ->
  Spec.stored_document existingData ->
  JS.String (JS.get telegramUser (str "id")) = Some userIdString ->
  db !! userIdString = Some existingData ->
  Server.sync env db telegramUser = Some (r, db') ->
  Server.status r = 200%N ->
  exists stored,
    db' !! userIdString = Some stored
    /\ (forall other, other <> userIdString -> db' !! other = db !! other)
    /\ Forall (fun k => JS.obj_get k stored = JS.obj_get k existingData)
              Spec.preserved_fields
    /\ JS.obj_get (str "lastLogin") stored
       = JS.Timestamp (Server.server_time env)
    /\ JS.obj_get (str "username") stored
       = Spec.merged (JS.get telegramUser (str "username"))
           (Spec.merged (JS.obj_get (str "username") existingData) JS.Null)
    /\ JS.obj_get (str "firstName") stored
       = Spec.merged (JS.get telegramUser (str "first_name"))
           (JS.obj_get (str "firstName") existingData)
    /\ JS.obj_get (str "lastName") stored
       = Spec.merged (JS.get telegramUser (str "last_name"))
           (Spec.merged (JS.obj_get (str "lastName") existingData) JS.Null)
    /\ JS.obj_get (str "languageCode") stored
       = Spec.merged (JS.get telegramUser (str "language_code"))
           (JS.obj_get (str "languageCode") existingData).
Proof.
  intros Hjson Hstored Hstr Hdb Hsync Hstatus.
  unfold Server.sync in Hsync. rewrite Hstr in Hsync.
  destruct (negb (Server.valid_doc_id userIdString)); [discriminate|].
  unfold Server.doc_get in Hsync.
  destruct (Server.get_succeeds env);
    [|injection Hsync as <- <-; discriminate].
  rewrite Hdb in Hsync. unfold Server.doc_update in Hsync.
  destruct (Server.write_succeeds env && negb (Server.has_undefined _));
    [|injection Hsync as <- <-; discriminate].
  rewrite Hdb in Hsync. injection Hsync as <- <-.
  assert (forall k, JS.get telegramUser k <> JS.ServerTimestamp) as Hs
    by (intros k; apply get_not_sentinel, Hjson).
  cbn [List.map].
  rewrite !resolve_or
    by (apply Hs || apply Hstored || discriminate
        || (apply or_not_sentinel; [apply Hs|apply Hstored])).
  cbn [Server.resolve fst snd JS.spread fold_left].
  eexists. split; [apply lookup_insert_eq|].
  split; [intros other Hne; apply lookup_insert_ne; congruence|].
  split.
  { unfold Spec.preserved_fields.
    repeat constructor; rewrite !obj_get_set_ne by str_neq; reflexivity. }
  split.
  { rewrite !obj_get_set_ne by str_neq. apply obj_get_set_eq. }
  split.
  { rewrite !obj_get_set_ne by str_neq. rewrite obj_get_set_eq.
    apply or_merged. }
  split.
  { rewrite !obj_get_set_ne by str_neq. rewrite obj_get_set_eq. reflexivity. }
  split.
  { rewrite !obj_get_set_ne by str_neq. rewrite obj_get_set_eq.
    apply or_merged. }
  rewrite obj_get_set_eq. reflexivity.
Qed.

Lemma stored_document_plain (data : list (jsstring * JS.value)) :
  Forall (fun p => snd p <> JS.ServerTimestamp) data ->
  Spec.stored_document data.
Proof.
  intros H k. induction H as [|[k' v] data Hv _ IH]; cbn; [discriminate|].
  destruct (Unicode.eqb k' k); [exact Hv|exact IH].
Qed.

Lemma sync_preserves_profile_witness :
  exists r db' stored,
    Server.sync Examples.env Examples.users_42 Examples.claim_empty_username
    = Some (r, db')
    /\ db' !! str "42" = Some stored
    /\ Forall (fun k => JS.obj_get k stored
                        = JS.obj_get k Examples.profile_42)
              Spec.preserved_fields
    /\ JS.obj_get (str "lastLogin") stored = JS.Timestamp 1700000005
    /\ JS.obj_get (str "firstName") stored = JS.Str (str "Anna").
Proof.
  destruct (Server.sync Examples.env Examples.users_42
              Examples.claim_empty_username) as [[r db']|] eqn:E;
    [|vm_compute in E; discriminate].
  assert (Server.status r = 200%N) as Hstatus.
  { pose proof E as E'. vm_compute in E'. injection E' as <- _. reflexivity. }
  destruct (sync_preserves_profile Examples.env Examples.users_42 db'
              Examples.claim_empty_username (str "42") Examples.profile_42 r)
    as (stored & Hl & _ & Hkeep & Hlogin & _ & Hfirst & _).
  - reflexivity.
  - apply stored_document_plain. repeat constructor; discriminate.
  - vm_compute. reflexivity.
  - vm_compute. reflexivity.
  - exact E.
  - exact Hstatus.
  - exists r, db', stored. split; [reflexivity|]. split; [exact Hl|].
    split; [exact Hkeep|]. split; [exact Hlogin|exact Hfirst].
Defined.

(** The claim holds [username], the empty string, and the stored
    [username] stays the existing one; the claim holds no [last_name], and
    the stored [lastName], the empty string before, becomes [null]. *)
Lemma falsy_values_are_not_merged :
  JS.get Examples.claim_empty_username (str "username") = JS.Str []
  /\ JS.get Examples.claim_empty_username (str "last_name") = JS.Undefined
  /\ JS.obj_get (str "lastName") Examples.profile_42 = JS.Str []
  /\ match Server.sync Examples.env Examples.users_42
             Examples.claim_empty_username with
     | Some (r, db') =>
         Server.status r = 200%N
         /\ option_map (JS.obj_get (str "username")) (db' !! str "42")
            = Some (JS.Str (str "ann"))
         /\ option_map (JS.obj_get (str "lastName")) (db' !! str "42")
            = Some JS.Null
     | None => False
     end.
Proof. vm_compute. repeat split; reflexivity. Qed.

(** What the route passes to the sync was built by [JSON.parse] and is
    truthy. *)
Lemma auth_validate_syncs_parsed_claim (now : Z) (env : Server.environment)
    (db : gmap (list N) (list (jsstring * JS.value))) (initData : jsstring)
    (r : Server.response) (db' : gmap (list N) (list (jsstring * JS.value))) :
  Server.auth_validate (Node now) env db (Some initData) = Some (r, db') ->
  Server.status r = 200%N ->
  exists botToken claim,
    Server.TELEGRAM_BOT_TOKEN env = Some botToken
    /\ fst (Verifier.isValidTelegramData (Node now) initData botToken)
       = {| Verifier.valid := true; Verifier.user := claim;
            Verifier.error := None |}
    /\ JS.from_json claim = true
    /\ Server.sync env db claim = Some (r, db').
Proof.
  unfold Server.auth_validate.
  destruct initData as [|c i]; [intros [= <- <-]; discriminate|].
  destruct (Server.TELEGRAM_BOT_TOKEN env) as [[|d b]|];
    try (intros [= <- <-]; discriminate).
  pose proof (isValidTelegramData_cases (Node now) (c :: i) (d :: b)) as H.
  cbv zeta in H.
  destruct H as [[_ [H|H]]|[[reason Hv]|(u & _ & Hp & _ & Hv)]];
    try discriminate.
  - rewrite Hv. unfold Verifier.invalid, Server.json.
    cbn [Verifier.valid negb orb]. intros [= <- <-]. discriminate.
  - rewrite Hv. cbn [Verifier.valid Verifier.user negb orb].
    destruct (negb (JS.truthy _)); [intros [= <- <-]; discriminate|].
    intros Hs _. exists (d :: b), (Verifier.user
      (fst (Verifier.isValidTelegramData (Node now) (c :: i) (d :: b)))).
    split; [reflexivity|]. split; [exact Hv|].
    split; [|exact Hs]. apply (parse_from_json u), Hp.
Qed.

(** The scenario of the specification: the signed payload sent twice.  The
    first request creates the profile; the second leaves [tokens] and
    [referralCode] and moves [lastLogin] to the time of its write. *)
Example validate_twice :
  match Server.auth_validate (Node 1700000001000) Examples.env ∅
          (Some Examples.signed_payload) with
  | Some (r1, db1) =>
      match Server.auth_validate (Node 1700000090000) Examples.env_later db1
              (Some Examples.signed_payload) with
      | Some (r2, db2) =>
          Server.status r1 = 200%N /\ Server.status r2 = 200%N
          /\ List.map (fun k => option_map (JS.obj_get (str k)) (db1 !! str "42"))
               ["tokens"; "referralCode"; "createdAt"; "lastLogin"]%string
             = [Some (JS.of_nat 0); Some (JS.Str (str "a60JYSGj"));
                Some (JS.Timestamp 1700000005); Some (JS.Timestamp 1700000005)]
          /\ List.map (fun k => option_map (JS.obj_get (str k)) (db2 !! str "42"))
               ["tokens"; "referralCode"; "createdAt"; "lastLogin"]%string
             = [Some (JS.of_nat 0); Some (JS.Str (str "a60JYSGj"));
                Some (JS.Timestamp 1700000005); Some (JS.Timestamp 1700000099)]
      | None => False
      end
  | None => False
  end.
Proof. vm_compute. repeat split; reflexivity. Qed.

End SyncClaims.

(** ** The route: what it answers and what it writes *)

Section Route.

Implicit Types (env : Server.environment)
  (db : gmap (list N) (list (jsstring * JS.value))).

Ltac str_neq := let H := fresh in intros H; vm_compute in H; discriminate.

(** What a sync that answers 200 has read and written. *)
Lemma sync_200_inv env db db' (telegramUser : JS.value) (r : Server.response) :
  Server.sync env db telegramUser = Some (r, db') ->
  Server.status r = 200%N ->
  exists userIdString,
    JS.String (JS.get telegramUser (str "id")) = Some userIdString
    /\ Server.valid_doc_id userIdString = true
    /\ ((db !! userIdString = None
         /\ Server.has_undefined
              (Handler.newUserProfile (Server.nanoid (Server.random_bytes env) 8)
                 telegramUser) = false
         /\ Server.body r
            = Handler.success
                (Handler.newUserProfile
                   (Server.nanoid (Server.random_bytes env) 8) telegramUser)
         /\ db' = <[userIdString :=
                      List.map (Server.resolve (Server.server_time env))
                        (Handler.newUserProfile
                           (Server.nanoid (Server.random_bytes env) 8)
                           telegramUser)]> db)
        \/ exists existingData,
             db !! userIdString = Some existingData
             /\ Server.has_undefined
                  (Handler.updateData telegramUser existingData) = false
             /\ Server.body r
                = Handler.success
                    (Handler.userProfileData telegramUser existingData)
             /\ db' = <[userIdString :=
                          JS.spread existingData
                            (List.map (Server.resolve (Server.server_time env))
                               (Handler.updateData telegramUser existingData))]>
                        db).
Proof.
  unfold Server.sync.
  destruct (JS.String (JS.get telegramUser (str "id"))) as [key|];
    [|discriminate].
  destruct (Server.valid_doc_id key) eqn:Hk; cbn [negb]; [|discriminate].
  intros H Hs. exists key. split; [reflexivity|]. split; [exact Hk|].
  unfold Server.doc_get in H.
  destruct (Server.get_succeeds env);
    [|injection H as <- <-; discriminate].
  destruct (db !! key) as [existing|] eqn:Hdb.
  - right. exists existing. split; [reflexivity|].
    unfold Server.doc_update in H. fold (Handler.updateData telegramUser existing) in H.
    destruct (Server.write_succeeds env); cbn [andb] in H;
      [|injection H as <- <-; discriminate].
    destruct (Server.has_undefined (Handler.updateData telegramUser existing));
      cbn [negb] in H; [injection H as <- <-; discriminate|].
    rewrite Hdb in H. injection H as <- <-.
    split; [reflexivity|]. split; reflexivity.
  - left. split; [reflexivity|].
    unfold Server.doc_set in H.
    fold (Handler.newUserProfile (Server.nanoid (Server.random_bytes env) 8)
            telegramUser) in H.
    destruct (Server.write_succeeds env); cbn [andb] in H;
      [|injection H as <- <-; discriminate].
    destruct (Server.has_undefined (Handler.newUserProfile _ telegramUser));
      cbn [negb] in H; [injection H as <- <-; discriminate|].
    injection H as <- <-. split; [reflexivity|]. split; reflexivity.
Qed.

(** A sync answers 200 or 500, and a 500 leaves the store. *)
Lemma sync_500 env db db' (telegramUser : JS.value) (r : Server.response) :
  Server.sync env db telegramUser = Some (r, db') ->
  Server.status r = 200%N \/ (Server.status r = 500%N /\ db' = db).
Proof.
  unfold Server.sync.
  destruct (JS.String (JS.get telegramUser (str "id"))) as [key|];
    [|discriminate].
  destruct (negb (Server.valid_doc_id key)); [discriminate|].
  destruct (Server.doc_get env db key) as [[existing|]|].
  - destruct (Server.doc_update env db key _);
      intros [= <- <-]; [left|right]; auto.
  - destruct (Server.doc_set env db key _);
      intros [= <- <-]; [left|right]; auto.
  - intros [= <- <-]. right. auto.
Qed.


(** X1. On Node, a 200 answer is given only to a payload whose first [hash]
    is the HMAC of its other pairs under the configured token, and whose
    first [user] value parses to a truthy claim: the profile read or written
    is the one of that claim. *)
Theorem accepted_payload_is_signed (now : Z) env db db'
    (initData : option jsstring) (r : Server.response) :
  Server.auth_validate (Node now) env db initData = Some (r, db') ->
  Server.status r = 200%N ->
  exists payload botToken userJson claim,
    initData = Some payload
    /\ Server.TELEGRAM_BOT_TOKEN env = Some botToken
    /\ botToken <> []
    /\ URLSearchParams.get (str "hash") (URLSearchParams.of_string payload)
       = Some (Spec.calculated_hash botToken
                 (URLSearchParams.sort (Spec.signed_pairs payload)))
    /\ URLSearchParams.get (str "user") (URLSearchParams.of_string payload)
       = Some userJson
    /\ JSON.parse userJson = inr claim
    /\ JS.truthy claim = true
    /\ Server.sync env db claim = Some (r, db').
Proof.
  intros H Hs.
  destruct initData as [payload|];
    [|unfold Server.auth_validate, Server.json in H; injection H as <- <-;
      discriminate Hs].
  destruct (auth_validate_syncs_parsed_claim now env db payload r db' H Hs)
    as (botToken & claim & Htoken & Hv & _ & Hsync).
  unfold Server.auth_validate, Server.json in H. rewrite Htoken in H.
  destruct payload as [|c i]; [injection H as <- <-; discriminate Hs|].
  destruct botToken as [|d b]; [injection H as <- <-; discriminate Hs|].
  rewrite Hv in H. cbn [Verifier.valid Verifier.user negb orb] in H.
  destruct (JS.truthy claim) eqn:Ht; cbn [negb] in H;
    [|injection H as <- <-; discriminate Hs].
  clear H. rewrite isValidTelegramData_Node in Hv by discriminate.
  destruct (URLSearchParams.get (str "hash") _) as [[|ch h]|] eqn:Hh;
    [discriminate Hv| |discriminate Hv].
  destruct (Unicode.eqb _ (ch :: h)) eqn:E; [|discriminate Hv].
  apply eqb_eq in E. rewrite extract_user_Node, get_user_signed_pairs in Hv.
  destruct (URLSearchParams.get (str "user") _) as [[|cu u]|] eqn:Hu;
    [discriminate Hv| |discriminate Hv].
  destruct (JSON.parse (cu :: u)) as [e|claim'] eqn:Hp; [discriminate Hv|].
  destruct (JS.to_string_throws _); [discriminate Hv|].
  injection Hv as ->.
  exists (c :: i), (d :: b), (cu :: u), claim.
  rewrite E. repeat split; auto; discriminate.
Qed.

Lemma accepted_payload_is_signed_witness :
  Server.auth_validate (Node 1700000001000) Examples.env ∅
    (Some Examples.signed_payload)
  = Some (Scenarios.created_answer Examples.claim_Ann, Scenarios.users_Ann)
  /\ exists payload botToken userJson claim,
       Some Examples.signed_payload = Some payload
       /\ Server.TELEGRAM_BOT_TOKEN Examples.env = Some botToken
       /\ botToken <> []
       /\ URLSearchParams.get (str "hash") (URLSearchParams.of_string payload)
          = Some (Spec.calculated_hash botToken
                    (URLSearchParams.sort (Spec.signed_pairs payload)))
       /\ URLSearchParams.get (str "user") (URLSearchParams.of_string payload)
          = Some userJson
       /\ JSON.parse userJson = inr claim
       /\ JS.truthy claim = true
       /\ Server.sync Examples.env ∅ claim
          = Some (Scenarios.created_answer Examples.claim_Ann,
                  Scenarios.users_Ann).
Proof.
  assert (Server.auth_validate (Node 1700000001000) Examples.env ∅
            (Some Examples.signed_payload)
          = Some (Scenarios.created_answer Examples.claim_Ann,
                  Scenarios.users_Ann))
    as E by (vm_compute; reflexivity).
  split; [exact E|].
  exact (accepted_payload_is_signed _ _ _ _ _ _ E eq_refl).
Defined.



(** X3. For a payload and a token that are not empty, the answer is 401
    exactly when the verdict is invalid or its user is falsy.  An invalid
    verdict sends its own error string; the fallback ['Validation failed']
    is sent exactly for a valid verdict whose user is falsy. *)
Theorem fallback_error_means_falsy_user (P : Platform) env db db'
    (payload botToken : jsstring) (r : Server.response) :
  payload <> [] -> botToken <> [] ->
  Server.TELEGRAM_BOT_TOKEN env = Some botToken ->
  Server.auth_validate P env db (Some payload) = Some (r, db') ->
  let v := fst (Verifier.isValidTelegramData P payload botToken) in
  (Server.status r = 401%N
   <-> Verifier.valid v = false \/ JS.truthy (Verifier.user v) = false)
  /\ (Verifier.valid v = false ->
      exists reason,
        Verifier.error v = Some reason
        /\ Server.body r
           = [(str "message", JS.Str (str "Invalid or expired initData"));
              (str "error", JS.Str (Verifier.message reason))])
  /\ (Server.status r = 401%N
      /\ JS.obj_get (str "error") (Server.body r)
         = JS.Str (str "Validation failed")
      <-> Verifier.valid v = true /\ JS.truthy (Verifier.user v) = false).
Proof.
  intros Hi Hb Htoken. unfold Server.auth_validate. rewrite Htoken.
  destruct payload as [|c i]; [congruence|].
  destruct botToken as [|d b]; [congruence|]. cbv zeta.
  pose proof (isValidTelegramData_cases P (c :: i) (d :: b)) as H.
  cbv zeta in H.
  destruct H as [[_ [H|H]]|[[reason Hv]|(u & _ & _ & _ & Hv)]].
  - discriminate H.
  - discriminate H.
  - rewrite Hv. unfold Verifier.invalid, Server.json.
    cbn [Verifier.valid Verifier.user Verifier.error negb orb JS.truthy].
    intros [= <- <-]. cbn [Server.status Server.body].
    split; [split; auto|]. split.
    + intros _. exists reason. auto.
    + split; [|intros [[=] _]]. intros [_ He]. exfalso. revert He.
      destruct reason; vm_compute; discriminate.
  - destruct (fst (Verifier.isValidTelegramData P (c :: i) (d :: b)))
      as [vl us er]. cbn [Verifier.valid Verifier.user Verifier.error] in *.
    injection Hv as -> ->. cbn [negb orb].
    destruct (JS.truthy us) eqn:Ht; cbn [negb].
    + intros Hs. apply sync_500 in Hs as [Hs|[Hs _]]; rewrite Hs.
      * split; [split; [discriminate|intros [|]; discriminate]|].
        split; [discriminate|]. split; [intros [[=] _]|intros [_ [=]]].
      * split; [split; [discriminate|intros [|]; discriminate]|].
        split; [discriminate|]. split; [intros [[=] _]|intros [_ [=]]].
    + unfold Server.json. intros [= <- <-]. cbn [Server.status Server.body].
      split; [split; auto|]. split; [discriminate|].
      split; [auto|]. intros _. split; reflexivity.
Qed.

Lemma fallback_error_means_falsy_user_witness :
  Server.auth_validate (Node 1700000001000) Examples.env ∅
    (Some Examples.null_user_payload)
  = Some (Scenarios.falsy_user_answer, ∅)
  /\ Verifier.valid
       (fst (Verifier.isValidTelegramData (Node 1700000001000)
               Examples.null_user_payload Examples.secret)) = true
  /\ JS.truthy
       (Verifier.user
          (fst (Verifier.isValidTelegramData (Node 1700000001000)
                  Examples.null_user_payload Examples.secret))) = false.
Proof.
  assert (Server.auth_validate (Node 1700000001000) Examples.env ∅
            (Some Examples.null_user_payload)
          = Some (Scenarios.falsy_user_answer, ∅))
    as E by (vm_compute; reflexivity).
  split; [exact E|].
  refine (proj1 (proj2 (proj2 (fallback_error_means_falsy_user
            (Node 1700000001000) Examples.env ∅ ∅
            Examples.null_user_payload Examples.secret
            Scenarios.falsy_user_answer _ _ eq_refl E))) (conj eq_refl eq_refl)).
  - discriminate.
  - discriminate.
Defined.

(** X4. A sync reads and writes one document, the one under
    [String(telegramUser.id)]: whatever it answers, every other document of
    the store is left as it was. *)
Theorem sync_touches_one_document env db db' (telegramUser : JS.value)
    (r : Server.response) (userIdString : jsstring) :
  Server.sync env db telegramUser = Some (r, db') ->
  JS.String (JS.get telegramUser (str "id")) = Some userIdString ->
  forall other, other <> userIdString -> db' !! other = db !! other.
Proof.
  intros H Hid other Hne.
  destruct (sync_500 _ _ _ _ _ H) as [Hs|[_ ->]]; [|reflexivity].
  destruct (sync_200_inv _ _ _ _ _ H Hs) as (key & Hk & _ & Hcase).
  rewrite Hid in Hk. injection Hk as <-.
  destruct Hcase as [(_ & _ & _ & ->)|(existing & _ & _ & _ & ->)];
    apply lookup_insert_ne; congruence.
Qed.

Lemma sync_touches_one_document_witness :
  Server.sync Examples.env Examples.users_42 Scenarios.claim_7
  = Some (Scenarios.created_answer Scenarios.claim_7, Scenarios.users_42_and_7)
  /\ forall other, other <> str "7" ->
       Scenarios.users_42_and_7 !! other = Examples.users_42 !! other.
Proof.
  assert (Server.sync Examples.env Examples.users_42 Scenarios.claim_7
          = Some (Scenarios.created_answer Scenarios.claim_7,
                  Scenarios.users_42_and_7))
    as E by (vm_compute; reflexivity).
  split; [exact E|].
  exact (sync_touches_one_document _ _ _ _ _ (str "7") E eq_refl).
Defined.


(** X17. A sync reads five properties of the claim, [id], [username],
    [first_name], [last_name] and [language_code], and nothing else: two
    claims that agree on them get the same answer and leave the same store.
    A [tokens] or a [referralCode] written into the signed user has no
    effect on the profile. *)
Theorem sync_reads_five_claim_fields env db (claim1 claim2 : JS.value) :
  (forall k,
     In k [str "id"; str "username"; str "first_name"; str "last_name";
           str "language_code"] ->
     JS.get claim1 k = JS.get claim2 k) ->
  Server.sync env db claim1 = Server.sync env db claim2.
Proof.
  intros H.
  assert (JS.get claim1 (str "id") = JS.get claim2 (str "id")) as E1
    by (apply H; cbn [In]; auto 6).
  assert (JS.get claim1 (str "username") = JS.get claim2 (str "username"))
    as E2 by (apply H; cbn [In]; auto 6).
  assert (JS.get claim1 (str "first_name") = JS.get claim2 (str "first_name"))
    as E3 by (apply H; cbn [In]; auto 6).
  assert (JS.get claim1 (str "last_name") = JS.get claim2 (str "last_name"))
    as E4 by (apply H; cbn [In]; auto 6).
  assert (JS.get claim1 (str "language_code")
          = JS.get claim2 (str "language_code"))
    as E5 by (apply H; cbn [In]; auto 6).
  unfold Server.sync. rewrite E1, E2, E3, E4, E5. reflexivity.
Qed.

Lemma sync_reads_five_claim_fields_witness :
  Server.sync Examples.env Examples.users_42 Scenarios.claim_with_tokens
  = Server.sync Examples.env Examples.users_42 Examples.claim_Ann.
Proof.
  apply sync_reads_five_claim_fields.
  intros k [<-|[<-|[<-|[<-|[<-|[]]]]]]; reflexivity.
Defined.

End Route.

(** ** The stored profile and the profile of the answer *)

Section Profiles.

Implicit Types (env : Server.environment)
  (db : gmap (list N) (list (jsstring * JS.value))).

(** The comparisons of two property names of the source are computed. *)
Ltac eval_keys :=
  repeat match goal with
         | |- context [Unicode.eqb (str ?a) (str ?b)] =>
             let v := eval vm_compute in (Unicode.eqb (str a) (str b)) in
             change (Unicode.eqb (str a) (str b)) with v
         end;
  cbv iota.

Lemma obj_get_set (k k' : jsstring) (v : JS.value)
    (props : list (jsstring * JS.value)) :
  JS.obj_get k' (JS.obj_set k v props)
  = if Unicode.eqb k k' then v else JS.obj_get k' props.
Proof.
  destruct (Unicode.eqb k k') eqn:E.
  - apply eqb_eq in E. subst k'. apply obj_get_set_eq.
  - apply eqb_neq in E. apply obj_get_set_ne, E.
Qed.

(** What a document holds after a write: a sentinel has become the time of
    the write. *)
Lemma obj_get_resolve (t : Z) (k : jsstring) (data : list (jsstring * JS.value)) :
  JS.obj_get k (List.map (Server.resolve t) data)
  = match JS.obj_get k data with
    | JS.ServerTimestamp => JS.Timestamp t
    | _ => JS.obj_get k data
    end.
Proof.
  induction data as [|[k' v] data IH]; [reflexivity|].
  cbn [List.map]. unfold Server.resolve at 1. cbn [fst snd].
  destruct v; cbn [JS.obj_get]; destruct (Unicode.eqb k' k); auto.
Qed.

Lemma resolved_is_stored (t : Z) (data : list (jsstring * JS.value)) :
  Spec.stored_document (List.map (Server.resolve t) data).
Proof.
  intros k. rewrite obj_get_resolve. destruct (JS.obj_get k data); discriminate.
Qed.

Lemma or_absorb (a b : JS.value) : JS.or a (JS.or a b) = JS.or a b.
Proof. unfold JS.or. destruct (JS.truthy a); reflexivity. Qed.

Lemma or_null_absorb (a b : JS.value) :
  JS.or (JS.or a (JS.or (JS.or a b) JS.Null)) JS.Null
  = JS.or (JS.or a b) JS.Null.
Proof.
  unfold JS.or. destruct (JS.truthy a) eqn:Ha; cbv iota; rewrite ?Ha;
    cbv iota; [reflexivity|].
  destruct (JS.truthy b) eqn:Hb; cbv iota; rewrite ?Hb; reflexivity.
Qed.

Lemma or_null_idem (a : JS.value) :
  JS.or (JS.or a (JS.or a JS.Null)) JS.Null = JS.or a JS.Null.
Proof.
  unfold JS.or. destruct (JS.truthy a) eqn:Ha; cbv iota; rewrite ?Ha;
    reflexivity.
Qed.

(** The fields of a document after [update(updateData)]. *)
Lemma updated_document (t : Z) (telegramUser : JS.value)
    (old : list (jsstring * JS.value)) (k : jsstring) :
  JS.from_json telegramUser = true ->
  Spec.stored_document old ->
  JS.obj_get k
    (JS.spread old
       (List.map (Server.resolve t) (Handler.updateData telegramUser old)))
  = if Unicode.eqb (str "languageCode") k then
      JS.or (JS.get telegramUser (str "language_code"))
            (JS.obj_get (str "languageCode") old)
    else if Unicode.eqb (str "lastName") k then
      JS.or (JS.or (JS.get telegramUser (str "last_name"))
                   (JS.obj_get (str "lastName") old)) JS.Null
    else if Unicode.eqb (str "firstName") k then
      JS.or (JS.get telegramUser (str "first_name"))
            (JS.obj_get (str "firstName") old)
    else if Unicode.eqb (str "username") k then
      JS.or (JS.or (JS.get telegramUser (str "username"))
                   (JS.obj_get (str "username") old)) JS.Null
    else if Unicode.eqb (str "lastLogin") k then JS.Timestamp t
    else JS.obj_get k old.
Proof.
  intros Hjson Hold.
  assert (forall k, JS.get telegramUser k <> JS.ServerTimestamp) as Hs
    by (intros k0; apply get_not_sentinel, Hjson).
  unfold Handler.updateData. cbn [List.map].
  rewrite !resolve_or
    by (apply Hs || apply Hold || discriminate
        || (apply or_not_sentinel; [apply Hs|apply Hold])).
  cbn [Server.resolve fst snd JS.spread fold_left].
  rewrite !obj_get_set. reflexivity.
Qed.


Lemma updated_is_stored (t : Z) (telegramUser : JS.value)
    (old : list (jsstring * JS.value)) :
  JS.from_json telegramUser = true ->
  Spec.stored_document old ->
  Spec.stored_document
    (JS.spread old
       (List.map (Server.resolve t) (Handler.updateData telegramUser old))).
Proof.
  intros Hjson Hold k. rewrite updated_document by assumption.
  assert (forall k, JS.get telegramUser k <> JS.ServerTimestamp) as Hs
    by (intros k0; apply get_not_sentinel, Hjson).
  repeat match goal with
         | |- (if ?b then _ else _) <> _ => destruct b
         end;
    try discriminate; try apply Hold;
    repeat (apply or_not_sentinel; try apply Hs; try apply Hold;
            try discriminate).
Qed.

(** [update] is refused only for an [undefined] first name or language. *)
Lemma updateData_defined (telegramUser : JS.value)
    (old : list (jsstring * JS.value)) :
  Server.has_undefined (Handler.updateData telegramUser old) = false
  <-> JS.or (JS.get telegramUser (str "first_name"))
            (JS.obj_get (str "firstName") old) <> JS.Undefined
      /\ JS.or (JS.get telegramUser (str "language_code"))
               (JS.obj_get (str "languageCode") old) <> JS.Undefined.
Proof.
  unfold Handler.updateData, Server.has_undefined. cbn [existsb snd].
  rewrite !(defined_match (JS.or _ JS.Null)) by (apply or_defined; discriminate).
  cbn [orb].
  destruct (JS.or (JS.get telegramUser (str "first_name")) _);
    destruct (JS.or (JS.get telegramUser (str "language_code")) _);
    cbn [orb]; split; try discriminate; try (intros [? ?]; congruence);
    intros _; split; discriminate.
Qed.

(** A second sync of the same claim over a document [stored] whose four
    claim fields are already merged. *)
Lemma resync (t : Z) (telegramUser : JS.value)
    (stored : list (jsstring * JS.value)) :
  JS.from_json telegramUser = true ->
  Spec.stored_document stored ->
  JS.or (JS.or (JS.get telegramUser (str "username"))
               (JS.obj_get (str "username") stored)) JS.Null
  = JS.obj_get (str "username") stored ->
  JS.or (JS.get telegramUser (str "first_name"))
        (JS.obj_get (str "firstName") stored)
  = JS.obj_get (str "firstName") stored ->
  JS.or (JS.or (JS.get telegramUser (str "last_name"))
               (JS.obj_get (str "lastName") stored)) JS.Null
  = JS.obj_get (str "lastName") stored ->
  JS.or (JS.get telegramUser (str "language_code"))
        (JS.obj_get (str "languageCode") stored)
  = JS.obj_get (str "languageCode") stored ->
  let again :=
    JS.spread stored
      (List.map (Server.resolve t) (Handler.updateData telegramUser stored)) in
  JS.obj_get (str "lastLogin") again = JS.Timestamp t
  /\ forall k, k <> str "lastLogin" -> JS.obj_get k again = JS.obj_get k stored.
Proof.
  intros Hjson Hst Hu Hf Hl Hc. cbv zeta. split.
  - rewrite updated_document by assumption. reflexivity.
  - intros k Hk. rewrite updated_document by assumption.
    rewrite Hu, Hf, Hl, Hc.
    destruct (Unicode.eqb (str "languageCode") k) eqn:E1;
      [apply eqb_eq in E1; subst k; reflexivity|].
    destruct (Unicode.eqb (str "lastName") k) eqn:E2;
      [apply eqb_eq in E2; subst k; reflexivity|].
    destruct (Unicode.eqb (str "firstName") k) eqn:E3;
      [apply eqb_eq in E3; subst k; reflexivity|].
    destruct (Unicode.eqb (str "username") k) eqn:E4;
      [apply eqb_eq in E4; subst k; reflexivity|].
    destruct (Unicode.eqb (str "lastLogin") k) eqn:E5;
      [apply eqb_eq in E5; congruence|reflexivity].
Qed.

Lemma resolve_value (t : Z) (v : JS.value) :
  v <> JS.ServerTimestamp ->
  match v with JS.ServerTimestamp => JS.Timestamp t | _ => v end = v.
Proof. destruct v; congruence. Qed.

(** X5. After a sync that answered 200, a second sync of the same claim
    that the store carries out answers 200 and changes one field of the
    stored document: [lastLogin], which becomes the time of the second
    write. *)
Theorem second_sync_moves_only_lastLogin env1 env2 db db1
    (telegramUser : JS.value) (r1 : Server.response) :
  JS.from_json telegramUser = true ->
  (forall key existing, db !! key = Some existing ->
                        Spec.stored_document existing) ->
  Server.sync env1 db telegramUser = Some (r1, db1) ->
  Server.status r1 = 200%N ->
  Server.get_succeeds env2 = true ->
  Server.write_succeeds env2 = true ->
  exists userIdString r2 db2 stored1 stored2,
    JS.String (JS.get telegramUser (str "id")) = Some userIdString
    /\ Server.sync env2 db1 telegramUser = Some (r2, db2)
    /\ Server.status r2 = 200%N
    /\ db1 !! userIdString = Some stored1
    /\ db2 !! userIdString = Some stored2
    /\ JS.obj_get (str "lastLogin") stored2
       = JS.Timestamp (Server.server_time env2)
    /\ forall k, k <> str "lastLogin" ->
         JS.obj_get k stored2 = JS.obj_get k stored1.
Proof.
  intros Hjson Hdb H1 Hs1 Hget Hwrite.
  assert (forall k, JS.get telegramUser k <> JS.ServerTimestamp) as Hs
    by (intros k0; apply get_not_sentinel, Hjson).
  destruct (sync_200_inv _ _ _ _ _ H1 Hs1) as (key & Hid & Hvalid & Hcase).
  assert (exists stored1,
            db1 !! key = Some stored1
            /\ Spec.stored_document stored1
            /\ JS.or (JS.or (JS.get telegramUser (str "username"))
                            (JS.obj_get (str "username") stored1)) JS.Null
               = JS.obj_get (str "username") stored1
            /\ JS.or (JS.get telegramUser (str "first_name"))
                     (JS.obj_get (str "firstName") stored1)
               = JS.obj_get (str "firstName") stored1
            /\ JS.or (JS.or (JS.get telegramUser (str "last_name"))
                            (JS.obj_get (str "lastName") stored1)) JS.Null
               = JS.obj_get (str "lastName") stored1
            /\ JS.or (JS.get telegramUser (str "language_code"))
                     (JS.obj_get (str "languageCode") stored1)
               = JS.obj_get (str "languageCode") stored1
            /\ JS.obj_get (str "firstName") stored1 <> JS.Undefined
            /\ JS.obj_get (str "languageCode") stored1 <> JS.Undefined)
    as (stored1 & Hl1 & Hst1 & Hu & Hf & Hl & Hc & Hdf & Hdc).
  { destruct Hcase as [(_ & _ & _ & ->)|(existing & He & Hundef & _ & ->)].
    - eexists. split; [apply lookup_insert_eq|].
      split; [apply resolved_is_stored|].
      rewrite !obj_get_resolve.
      change (JS.obj_get (str "username") (Handler.newUserProfile _ telegramUser))
        with (JS.or (JS.get telegramUser (str "username")) JS.Null).
      change (JS.obj_get (str "firstName") (Handler.newUserProfile _ telegramUser))
        with (JS.or (JS.get telegramUser (str "first_name")) (JS.Str (str "User"))).
      change (JS.obj_get (str "lastName") (Handler.newUserProfile _ telegramUser))
        with (JS.or (JS.get telegramUser (str "last_name")) JS.Null).
      change (JS.obj_get (str "languageCode")
                (Handler.newUserProfile _ telegramUser))
        with (JS.or (JS.get telegramUser (str "language_code"))
                    (JS.Str (str "en"))).
      rewrite !resolve_value by (apply or_not_sentinel; [apply Hs|discriminate]).
      rewrite !or_null_idem, !or_absorb.
      repeat split; apply or_defined; discriminate.
    - pose proof (Hdb _ _ He) as Hold.
      apply updateData_defined in Hundef as [Hdf Hdc].
      eexists. split; [apply lookup_insert_eq|].
      split; [apply updated_is_stored; assumption|].
      rewrite !updated_document by assumption.
      eval_keys. rewrite !or_null_absorb, !or_absorb.
      repeat split; assumption. }
  assert (Server.has_undefined (Handler.updateData telegramUser stored1) = false)
    as Hundef2 by (apply updateData_defined; rewrite Hf, Hc; auto).
  destruct (resync (Server.server_time env2) telegramUser stored1
              Hjson Hst1 Hu Hf Hl Hc) as [Hlogin Hkeep].
  exists key. eexists _, _, stored1, _.
  split; [exact Hid|].
  split.
  { unfold Server.sync. rewrite Hid, Hvalid. cbn [negb].
    unfold Server.doc_get. rewrite Hget, Hl1.
    fold (Handler.updateData telegramUser stored1).
    unfold Server.doc_update. rewrite Hwrite, Hundef2, Hl1. cbn [andb negb].
    unfold Server.json. reflexivity. }
  split; [reflexivity|]. split; [exact Hl1|].
  split; [apply lookup_insert_eq|]. split; [exact Hlogin|exact Hkeep].
Qed.

Lemma second_sync_moves_only_lastLogin_witness :
  Server.sync Examples.env ∅ Examples.claim_Ann
  = Some (Scenarios.created_answer Examples.claim_Ann, Scenarios.users_Ann)
  /\ exists userIdString r2 db2 stored1 stored2,
       JS.String (JS.get Examples.claim_Ann (str "id")) = Some userIdString
       /\ Server.sync Examples.env_later Scenarios.users_Ann
            Examples.claim_Ann = Some (r2, db2)
       /\ Server.status r2 = 200%N
       /\ Scenarios.users_Ann !! userIdString = Some stored1
       /\ db2 !! userIdString = Some stored2
       /\ JS.obj_get (str "lastLogin") stored2
          = JS.Timestamp (Server.server_time Examples.env_later)
       /\ forall k, k <> str "lastLogin" ->
            JS.obj_get k stored2 = JS.obj_get k stored1.
Proof.
  assert (Server.sync Examples.env ∅ Examples.claim_Ann
          = Some (Scenarios.created_answer Examples.claim_Ann,
                  Scenarios.users_Ann))
    as E by (vm_compute; reflexivity).
  split; [exact E|].
  refine (second_sync_moves_only_lastLogin Examples.env Examples.env_later ∅ _
            Examples.claim_Ann _ eq_refl _ E eq_refl eq_refl eq_refl).
  intros key existing H. rewrite lookup_empty in H. discriminate H.
Defined.




End Profiles.

(** ** The console and the hash on Node *)

Section NodeConsole.

Variable now : Z.

(** The console of the verifier on Node, for a payload and a secret that are
    not empty. *)
Lemma console_Node (initData botToken : jsstring) :
  initData <> [] -> botToken <> [] ->
  snd (Verifier.isValidTelegramData (Node now) initData botToken)
  = match URLSearchParams.get (str "hash") (URLSearchParams.of_string initData) with
    | Some (c :: hash) =>
        snd (Verifier.check_auth_date (Node now) (Spec.signed_pairs initData))
        ++ (if Unicode.eqb
                 (Spec.calculated_hash botToken
                    (URLSearchParams.sort (Spec.signed_pairs initData)))
                 (c :: hash)
            then snd (Verifier.extract_user (Node now)
                        (URLSearchParams.sort (Spec.signed_pairs initData)))
            else [Verifier.Warn_hash_mismatch])
    | _ => [Verifier.Warn_hash_missing]
    end.
Proof.
  destruct initData as [|c0 i]; [congruence|].
  destruct botToken as [|d0 b]; [congruence|]. intros _ _.
  unfold Verifier.isValidTelegramData, Verifier.validation.
  cbn [new_URLSearchParams Node].
  unfold Verifier.bind at 1, Verifier.call at 1.
  destruct (URLSearchParams.get (str "hash")
              (URLSearchParams.of_string (c0 :: i))) as [[|c h]|];
    try reflexivity.
  fold (Spec.signed_pairs (c0 :: i)).
  pose proof (check_auth_date_returns (Node now) (Spec.signed_pairs (c0 :: i)))
    as Hc.
  destruct (Verifier.check_auth_date (Node now) _) as [[e|[]] out];
    cbn in Hc; [discriminate|].
  unfold Verifier.calculatedHash. cbn [createHmac_sha256 Node].
  unfold Verifier.bind, Verifier.call, Verifier.ret, Verifier.returned,
    Verifier.write, Verifier.try_catch. cbn [fst snd].
  rewrite dataCheckString_spec.
  fold (Spec.calculated_hash (d0 :: b)
          (URLSearchParams.sort (Spec.signed_pairs (c0 :: i)))).
  destruct (Unicode.eqb _ (c :: h)); cbn [app fst snd]; reflexivity.
Qed.


Lemma extract_user_console_Node (urlParams : URLSearchParams.t) :
  snd (Verifier.extract_user (Node now) urlParams)
  = match URLSearchParams.get (str "user") urlParams with
    | Some (c :: userJson) =>
        match JSON.parse (c :: userJson) with
        | inr claim =>
            if JS.to_string_throws (JS.get claim (str "id"))
            then [Verifier.Error_parse_user JS.TypeError]
            else [Verifier.Log_successful (JS.get claim (str "id"))]
        | inl e => [Verifier.Error_parse_user e]
        end
    | _ => [Verifier.Error_user_missing]
    end.
Proof.
  unfold Verifier.extract_user.
  destruct (URLSearchParams.get (str "user") urlParams) as [[|c u]|];
    try reflexivity.
  cbn [JSON_parse Node].
  destruct (JSON.parse (c :: u)) as [e|claim]; [reflexivity|].
  unfold Verifier.bind, Verifier.call, Verifier.try_catch.
  destruct (JS.to_string_throws (JS.get claim (str "id"))); reflexivity.
Qed.



(** The bytes of a digest are below 256, and their hexadecimal digits are
    lower-case. *)
Lemma sha256_bytes (m : bytes) : Forall (fun x => (x < 256)%N) (Crypto.sha256 m).
Proof.
  unfold Crypto.sha256. apply List.Forall_flat_map, List.Forall_forall.
  intros w _. unfold Crypto.word_bytes.
  repeat constructor; apply N.mod_lt; discriminate.
Qed.

Lemma hex_lower_case (b : bytes) :
  Forall (fun x => (x < 256)%N) b ->
  Forall (fun c => (48 <= c <= 57 \/ 97 <= c <= 102)%N) (Crypto.hex b).
Proof.
  intros Hb. unfold Crypto.hex. apply List.Forall_flat_map.
  eapply List.Forall_impl; [|exact Hb]. intros x Hx.
  assert (forall n, (n < 16)%N ->
            (48 <= Crypto.hex_digit n <= 57
             \/ 97 <= Crypto.hex_digit n <= 102)%N) as Hd.
  { intros n Hn. unfold Crypto.hex_digit.
    destruct (n <? 10)%N eqn:E;
      [apply N.ltb_lt in E|apply N.ltb_ge in E]; lia. }
  constructor; [|constructor; [|constructor]]; apply Hd.
  - apply N.Div0.div_lt_upper_bound. exact Hx.
  - apply N.mod_lt. discriminate.
Qed.

(** X8. On Node, the hash of a payload that is found valid is a string of
    64 lower-case hexadecimal digits: the comparison is one of strings, and
    the same digest written in upper case is refused. *)
Theorem accepted_hash_is_lower_case_hex (initData botToken : jsstring) :
  Verifier.valid
    (fst (Verifier.isValidTelegramData (Node now) initData botToken)) = true ->
  exists hash,
    URLSearchParams.get (str "hash") (URLSearchParams.of_string initData)
    = Some hash
    /\ List.length hash = 64
    /\ Forall (fun c => (48 <= c <= 57 \/ 97 <= c <= 102)%N) hash.
Proof.
  destruct initData as [|c0 i]; [discriminate|].
  destruct botToken as [|d0 b]; [discriminate|].
  rewrite isValidTelegramData_Node by discriminate.
  destruct (URLSearchParams.get (str "hash") _) as [[|c h]|];
    [discriminate| |discriminate].
  destruct (Unicode.eqb _ (c :: h)) eqn:E; [|discriminate].
  apply eqb_eq in E. intros _. exists (c :: h). split; [reflexivity|].
  rewrite <- E. split; [apply calculated_hash_length|].
  unfold Spec.calculated_hash, Crypto.hmac_sha256.
  apply hex_lower_case, sha256_bytes.
Qed.

(** X9. On Node, the console gets the warning that [auth_date] is older
    than the expiration exactly when the secret is not empty, the first
    [hash] of the payload is not empty, and the first [auth_date] starts
    with an integer [t] with [floor(now / 1000) - t > 86400]: whether the
    hash matches plays no part, and the verdict is not changed by it. *)
Theorem stale_payload_is_reported (initData botToken : jsstring) :
  In Verifier.Warn_older_than_expiration
     (snd (Verifier.isValidTelegramData (Node now) initData botToken))
  <-> botToken <> []
      /\ (exists hash,
            URLSearchParams.get (str "hash") (URLSearchParams.of_string initData)
            = Some hash /\ hash <> [])
      /\ exists authDate t,
           URLSearchParams.get (str "auth_date")
             (URLSearchParams.of_string initData) = Some authDate
           /\ JS.parseInt authDate = Some t
           /\ (24 * 3600 < now / 1000 - t)%Z.
Proof.
  assert (URLSearchParams.get (str "auth_date") (Spec.signed_pairs initData)
          = URLSearchParams.get (str "auth_date")
              (URLSearchParams.of_string initData)) as Hget.
  { apply get_delete_ne. intros H. vm_compute in H. discriminate H. }
  destruct initData as [|c0 i].
  { split; [intros [H|[]]; discriminate H|].
    intros (_ & (h & H & _) & _). discriminate H. }
  destruct botToken as [|d0 b].
  { split; [intros [H|[]]; discriminate H|]. intros (H & _). congruence. }
  rewrite console_Node by discriminate.
  pose proof (expiration_is_only_reported now (Spec.signed_pairs (c0 :: i)))
    as Hexp.
  rewrite Hget in Hexp. fold Verifier.EXPIRATION_SECONDS.
  destruct (URLSearchParams.get (str "hash") _) as [[|c h]|].
  - split; [intros [H|[]]; discriminate H|].
    intros (_ & (h & [= <-] & H) & _). congruence.
  - rewrite extract_user_console_Node.
    assert (~ In Verifier.Warn_older_than_expiration
                 (if Unicode.eqb
                       (Spec.calculated_hash (d0 :: b)
                          (URLSearchParams.sort (Spec.signed_pairs (c0 :: i))))
                       (c :: h)
                  then
                    match URLSearchParams.get (str "user")
                            (URLSearchParams.sort (Spec.signed_pairs (c0 :: i)))
                    with
                    | Some (cu :: userJson) =>
                        match JSON.parse (cu :: userJson) with
                        | inr claim =>
                            if JS.to_string_throws (JS.get claim (str "id"))
                            then [Verifier.Error_parse_user JS.TypeError]
                            else [Verifier.Log_successful
                                    (JS.get claim (str "id"))]
                        | inl e => [Verifier.Error_parse_user e]
                        end
                    | _ => [Verifier.Error_user_missing]
                    end
                  else [Verifier.Warn_hash_mismatch])) as Hrest.
    { destruct (Unicode.eqb _ (c :: h)); [|intros [H|[]]; discriminate H].
      destruct (URLSearchParams.get (str "user") _) as [[|cu u]|];
        try (intros [H|[]]; discriminate H).
      destruct (JSON.parse (cu :: u)) as [e|claim];
        [intros [H|[]]; discriminate H|].
      destruct (JS.to_string_throws _); intros [H|[]]; discriminate H. }
    split.
    + intros H. apply in_app_or in H as [H|H]; [|contradiction].
      split; [discriminate|]. split; [exists (c :: h); split; congruence|].
      apply Hexp, H.
    + intros (_ & _ & H). apply in_or_app. left. apply Hexp, H.
  - split; [intros [H|[]]; discriminate H|].
    intros (_ & (h & [=] & _) & _).
Qed.


(** X18. On Node the pairs of the payload reach the verdict through three
    strings only: the first [hash] value, the first [user] value and the
    data-check string.  Two payloads that agree on them get the same
    verdict, also when their pairs differ: the signature covers the
    data-check string, not the way it is cut into pairs. *)
Theorem verdict_depends_on_the_signed_string (initData1 initData2 : jsstring)
    (botToken : jsstring) :
  initData1 <> [] -> initData2 <> [] ->
  URLSearchParams.get (str "hash") (URLSearchParams.of_string initData1)
  = URLSearchParams.get (str "hash") (URLSearchParams.of_string initData2) ->
  URLSearchParams.get (str "user") (URLSearchParams.of_string initData1)
  = URLSearchParams.get (str "user") (URLSearchParams.of_string initData2) ->
  Verifier.dataCheckString (URLSearchParams.sort (Spec.signed_pairs initData1))
  = Verifier.dataCheckString (URLSearchParams.sort (Spec.signed_pairs initData2)) ->
  fst (Verifier.isValidTelegramData (Node now) initData1 botToken)
  = fst (Verifier.isValidTelegramData (Node now) initData2 botToken).
Proof.
  intros H1 H2 Hhash Huser Hstring.
  destruct botToken as [|d b].
  { destruct initData1, initData2; reflexivity. }
  rewrite !isValidTelegramData_Node by (assumption || discriminate).
  rewrite !extract_user_Node, !get_user_signed_pairs, Hhash, Huser.
  unfold Spec.calculated_hash. rewrite <- !dataCheckString_spec, Hstring.
  reflexivity.
Qed.

End NodeConsole.

Lemma accepted_hash_is_lower_case_hex_witness :
  Verifier.valid
    (fst (Verifier.isValidTelegramData (Node 1700000001000)
            Examples.signed_payload Examples.secret)) = true
  /\ exists hash,
       URLSearchParams.get (str "hash")
         (URLSearchParams.of_string Examples.signed_payload) = Some hash
       /\ List.length hash = 64
       /\ Forall (fun c => (48 <= c <= 57 \/ 97 <= c <= 102)%N) hash.
Proof.
  assert (Verifier.valid
            (fst (Verifier.isValidTelegramData (Node 1700000001000)
                    Examples.signed_payload Examples.secret)) = true) as Hv
    by (vm_compute; reflexivity).
  split; [exact Hv|].
  exact (accepted_hash_is_lower_case_hex 1700000001000 _ _ Hv).
Defined.

Lemma verdict_depends_on_the_signed_string_witness :
  URLSearchParams.of_string Scenarios.three_pairs_payload
  <> URLSearchParams.of_string Scenarios.merged_pairs_payload
  /\ Verifier.valid
       (fst (Verifier.isValidTelegramData (Node 1700000001000)
               Scenarios.three_pairs_payload Examples.secret)) = true
  /\ fst (Verifier.isValidTelegramData (Node 1700000001000)
            Scenarios.three_pairs_payload Examples.secret)
     = fst (Verifier.isValidTelegramData (Node 1700000001000)
              Scenarios.merged_pairs_payload Examples.secret).
Proof.
  split; [vm_compute; discriminate|].
  split; [vm_compute; reflexivity|].
  apply verdict_depends_on_the_signed_string.
  - discriminate.
  - discriminate.
  - vm_compute. reflexivity.
  - vm_compute. reflexivity.
  - vm_compute. reflexivity.
Defined.

(** ** Origins *)

Section Origins.

(** X10. A request whose [Origin] header is present, not empty and not one
    of the four allowed origins is refused by the [origin] function with an
    error that the error-handling middleware answers with 403 and
    ['Origin not allowed by CORS policy.']; every other request, one with no
    origin or an empty one included, passes.  Any other error that reaches
    the middleware is answered with 500. *)
Theorem refused_origin_is_answered_403 (header : option jsstring) :
  match Middleware.origin header with
  | inr allowed =>
      allowed = true
      /\ (header = None \/ header = Some []
          \/ exists o, header = Some o /\ In o Middleware.allowedOrigins)
  | inl err =>
      (exists o, header = Some o /\ o <> []
                 /\ ~ In o Middleware.allowedOrigins)
      /\ Middleware.error_handler err
         = {| Server.status := 403;
              Server.body :=
                [(str "message",
                  JS.Str (str "Origin not allowed by CORS policy."))] |}
  end
  /\ forall err,
       err <> JS.Error (str "Not allowed by CORS") ->
       Server.status (Middleware.error_handler err) = 500%N.
Proof.
  split.
  - unfold Middleware.origin. destruct header as [[|c o]|]; [auto|..|auto].
    destruct (existsb _ _) eqn:E.
    + split; [reflexivity|]. right; right. exists (c :: o).
      split; [reflexivity|]. apply existsb_exists in E as (x & Hx & Hex).
      apply eqb_eq in Hex. subst x. exact Hx.
    + split; [|reflexivity]. exists (c :: o). split; [reflexivity|].
      split; [discriminate|]. intros Hin.
      assert (existsb (Unicode.eqb (c :: o)) Middleware.allowedOrigins = true)
        as E'; [|congruence].
      apply existsb_exists. exists (c :: o). split; [exact Hin|apply eqb_refl].
  - intros [| |message] Hne; try reflexivity. unfold Middleware.error_handler.
    destruct (Unicode.eqb message _) eqn:E; [|reflexivity].
    apply eqb_eq in E. congruence.
Qed.

End Origins.

(** ** UTF-8: decoding reads back what encoding wrote *)

Section Utf8.

Lemma decode_lead_1 (b : N) :
  (b <= 127)%N -> Unicode.decode_lead b = ([b], None).
Proof.
  intros H. unfold Unicode.decode_lead.
  apply N.leb_le in H. rewrite H. reflexivity.
Qed.

Lemma decode_lead_2 (b : N) :
  (194 <= b <= 223)%N ->
  Unicode.decode_lead b
  = ([], Some {| Unicode.code_point := b - 192; Unicode.bytes_needed := 1;
                 Unicode.lower_boundary := 128;
                 Unicode.upper_boundary := 191 |}).
Proof.
  intros H. unfold Unicode.decode_lead.
  assert ((b <=? 127)%N = false) as -> by (apply N.leb_gt; lia).
  assert (((194 <=? b) && (b <=? 223))%N = true) as ->
    by (apply andb_true_iff; split; apply N.leb_le; lia).
  reflexivity.
Qed.

Lemma decode_lead_3 (b : N) :
  (224 <= b <= 239)%N ->
  Unicode.decode_lead b
  = ([], Some {| Unicode.code_point := b - 224; Unicode.bytes_needed := 2;
                 Unicode.lower_boundary := if (b =? 224)%N then 160 else 128;
                 Unicode.upper_boundary := if (b =? 237)%N then 159 else 191 |}).
Proof.
  intros H. unfold Unicode.decode_lead.
  assert ((b <=? 127)%N = false) as -> by (apply N.leb_gt; lia).
  assert (((194 <=? b) && (b <=? 223))%N = false) as ->
    by (apply andb_false_iff; right; apply N.leb_gt; lia).
  assert (((224 <=? b) && (b <=? 239))%N = true) as ->
    by (apply andb_true_iff; split; apply N.leb_le; lia).
  reflexivity.
Qed.

Lemma decode_lead_4 (b : N) :
  (240 <= b <= 244)%N ->
  Unicode.decode_lead b
  = ([], Some {| Unicode.code_point := b - 240; Unicode.bytes_needed := 3;
                 Unicode.lower_boundary := if (b =? 240)%N then 144 else 128;
                 Unicode.upper_boundary := if (b =? 244)%N then 143 else 191 |}).
Proof.
  intros H. unfold Unicode.decode_lead.
  assert ((b <=? 127)%N = false) as -> by (apply N.leb_gt; lia).
  assert (((194 <=? b) && (b <=? 223))%N = false) as ->
    by (apply andb_false_iff; right; apply N.leb_gt; lia).
  assert (((224 <=? b) && (b <=? 239))%N = false) as ->
    by (apply andb_false_iff; right; apply N.leb_gt; lia).
  assert (((240 <=? b) && (b <=? 244))%N = true) as ->
    by (apply andb_true_iff; split; apply N.leb_le; lia).
  reflexivity.
Qed.

(** A continuation byte inside the bounds of the open sequence. *)
Lemma decode_continue (cp lo hi b : N) (needed : nat) (rest : bytes) :
  (lo <= b <= hi)%N ->
  Unicode.decode_code_points
    (Some {| Unicode.code_point := cp; Unicode.bytes_needed := S needed;
             Unicode.lower_boundary := lo; Unicode.upper_boundary := hi |})
    (b :: rest)
  = match needed with
    | S n =>
        Unicode.decode_code_points
          (Some {| Unicode.code_point := cp * 64 + (b - 128);
                   Unicode.bytes_needed := S n;
                   Unicode.lower_boundary := 128;
                   Unicode.upper_boundary := 191 |}) rest
    | O => (cp * 64 + (b - 128))%N :: Unicode.decode_code_points None rest
    end.
Proof.
  intros H. cbn [Unicode.decode_code_points Unicode.lower_boundary
                 Unicode.upper_boundary Unicode.code_point
                 Unicode.bytes_needed].
  assert (((lo <=? b) && (b <=? hi))%N = true) as ->
    by (apply andb_true_iff; split; apply N.leb_le; lia).
  destruct needed; reflexivity.
Qed.

Lemma decode_lead_byte (b : N) (rest : bytes) :
  Unicode.decode_code_points None (b :: rest)
  = fst (Unicode.decode_lead b)
    ++ Unicode.decode_code_points (snd (Unicode.decode_lead b)) rest.
Proof.
  cbn [Unicode.decode_code_points].
  destruct (Unicode.decode_lead b) as [out st]. reflexivity.
Qed.

(** The parts of a number in base 64. *)
Lemma base64_parts (cp : N) :
  exists a b c d,
    (cp mod 64 = d /\ cp / 64 mod 64 = c /\ cp / 4096 mod 64 = b
     /\ cp / 262144 = a /\ cp / 4096 = a * 64 + b /\ cp / 64 = (a * 64 + b) * 64 + c
     /\ cp = ((a * 64 + b) * 64 + c) * 64 + d
     /\ b < 64 /\ c < 64 /\ d < 64)%N.
Proof.
  exists (cp / 262144)%N, (cp / 4096 mod 64)%N, (cp / 64 mod 64)%N, (cp mod 64)%N.
  assert (cp / 4096 = cp / 64 / 64)%N as E1
    by (rewrite N.Div0.div_div; reflexivity).
  assert (cp / 262144 = cp / 64 / 64 / 64)%N as E2
    by (rewrite !N.Div0.div_div; reflexivity).
  rewrite E1, E2.
  pose proof (N.div_mod' cp 64) as H1.
  pose proof (N.mod_lt cp 64 ltac:(discriminate)) as H2.
  pose proof (N.div_mod' (cp / 64) 64) as H3.
  pose proof (N.mod_lt (cp / 64) 64 ltac:(discriminate)) as H4.
  pose proof (N.div_mod' (cp / 64 / 64) 64) as H5.
  pose proof (N.mod_lt (cp / 64 / 64) 64 ltac:(discriminate)) as H6.
  generalize dependent (cp / 64 / 64 / 64)%N.
  generalize dependent (cp / 64 / 64 mod 64)%N.
  generalize dependent (cp / 64 / 64)%N.
  generalize dependent (cp / 64 mod 64)%N.
  generalize dependent (cp mod 64)%N.
  generalize dependent (cp / 64)%N.
  intros. repeat split; lia.
Qed.

(** The decoder reads back the bytes of a scalar value. *)
Lemma decode_encode_code_point (cp : N) (rest : bytes) :
  (cp < 55296 \/ 57344 <= cp < 1114112)%N ->
  Unicode.decode_code_points None (Unicode.encode_code_point cp ++ rest)
  = cp :: Unicode.decode_code_points None rest.
Proof.
  intros Hcp. unfold Unicode.encode_code_point.
  destruct (base64_parts cp)
    as (a & b & c & d & Hd & Hc & Hb & Ha & Hab & Habc & Hall & Hb' & Hc' & Hd').
  destruct (cp <? 128)%N eqn:E1; [apply N.ltb_lt in E1|apply N.ltb_ge in E1].
  { cbn [app]. rewrite decode_lead_byte, decode_lead_1 by lia. reflexivity. }
  destruct (cp <? 2048)%N eqn:E2; [apply N.ltb_lt in E2|apply N.ltb_ge in E2].
  { rewrite Hd, Habc. cbn [app].
    rewrite decode_lead_byte, decode_lead_2 by lia. cbn [fst snd app].
    rewrite decode_continue by lia. f_equal. lia. }
  destruct (cp <? 65536)%N eqn:E3; [apply N.ltb_lt in E3|apply N.ltb_ge in E3].
  { rewrite Hd, Hc, Hab. cbn [app].
    rewrite decode_lead_byte, decode_lead_3 by lia. cbn [fst snd app].
    rewrite decode_continue.
    2: { destruct (224 + (a * 64 + b) =? 224)%N eqn:F1;
           [apply N.eqb_eq in F1|apply N.eqb_neq in F1];
         (destruct (224 + (a * 64 + b) =? 237)%N eqn:F2;
           [apply N.eqb_eq in F2|apply N.eqb_neq in F2]); lia. }
    rewrite decode_continue by lia. f_equal. lia. }
  rewrite Hd, Hc, Hb, Ha. cbn [app].
  rewrite decode_lead_byte, decode_lead_4 by lia. cbn [fst snd app].
  rewrite decode_continue.
  2: { destruct (240 + a =? 240)%N eqn:F1;
         [apply N.eqb_eq in F1|apply N.eqb_neq in F1];
       (destruct (240 + a =? 244)%N eqn:F2;
         [apply N.eqb_eq in F2|apply N.eqb_neq in F2]); lia. }
  rewrite !decode_continue by lia. f_equal. lia.
Qed.


Lemma surrogate_bounds (c : N) :
  (Unicode.is_high_surrogate c = true <-> (55296 <= c <= 56319)%N)
  /\ (Unicode.is_low_surrogate c = true <-> (56320 <= c <= 57343)%N).
Proof.
  unfold Unicode.is_high_surrogate, Unicode.is_low_surrogate.
  rewrite !andb_true_iff, !N.leb_le. tauto.
Qed.

Lemma not_surrogate_scalar (c : N) :
  Unicode.is_high_surrogate c = false ->
  Unicode.is_low_surrogate c = false ->
  (c < 65536)%N ->
  (c < 55296 \/ 57344 <= c < 1114112)%N.
Proof.
  intros Hh Hl Hc.
  destruct (surrogate_bounds c) as [H1 H2].
  destruct (N.lt_ge_cases c 55296) as [|Hge]; [left; assumption|right].
  destruct (N.lt_ge_cases c 57344) as [Hlt|]; [|lia].
  destruct (N.le_gt_cases c 56319).
  - rewrite (proj2 H1) in Hh by lia. discriminate.
  - rewrite (proj2 H2) in Hl by lia. discriminate.
Qed.

(** A surrogate pair is the two code units of its code point. *)
Lemma code_units_pair (c d : N) :
  Unicode.is_high_surrogate c = true ->
  Unicode.is_low_surrogate d = true ->
  (65536 <= 65536 + (c - 55296) * 1024 + (d - 56320) < 1114112)%N
  /\ Unicode.code_units (65536 + (c - 55296) * 1024 + (d - 56320)) = [c; d].
Proof.
  intros Hc Hd. apply surrogate_bounds in Hc, Hd.
  split; [lia|]. unfold Unicode.code_units.
  assert ((65536 + (c - 55296) * 1024 + (d - 56320) <? 65536)%N = false) as ->
    by (apply N.ltb_ge; lia).
  replace (65536 + (c - 55296) * 1024 + (d - 56320) - 65536)%N
    with ((d - 56320) + (c - 55296) * 1024)%N by lia.
  rewrite N.div_add, N.Div0.mod_add by discriminate.
  rewrite N.div_small, N.mod_small by lia.
  f_equal; [lia|f_equal; lia].
Qed.

(** The UTF-8 encoding of a well-formed string decodes to the string. *)
Lemma utf8_round_trip (s : jsstring) :
  Wire.isWellFormed s = true ->
  Unicode.utf8_decode (Unicode.utf8_encode s) = s.
Proof.
  unfold Unicode.utf8_decode.
  induction s as [|x|x y l IH1 IH2] using list_pair_ind.
  - reflexivity.
  - cbn [Wire.isWellFormed Unicode.utf8_encode].
    destruct (Unicode.is_high_surrogate x) eqn:Hh; [discriminate|].
    destruct (Unicode.is_low_surrogate x) eqn:Hl; [discriminate|].
    cbn [negb andb]. rewrite andb_true_r. intros Hx.
    rewrite decode_encode_code_point
      by (apply not_surrogate_scalar; [assumption..|apply N.ltb_lt, Hx]).
    cbn [Unicode.decode_code_points flat_map]. unfold Unicode.code_units.
    rewrite Hx. reflexivity.
  - rewrite utf8_encode_pair.
    change (Wire.isWellFormed (x :: y :: l))
      with (if Unicode.is_high_surrogate x
            then Unicode.is_low_surrogate y && Wire.isWellFormed l
            else negb (Unicode.is_low_surrogate x) && (x <? 65536)%N
                 && Wire.isWellFormed (y :: l)).
    destruct (Unicode.is_high_surrogate x) eqn:Hh.
    + destruct (Unicode.is_low_surrogate y) eqn:Hl; [|discriminate].
      cbn [andb]. intros Hwf.
      destruct (code_units_pair x y Hh Hl) as [Hcp Hunits].
      rewrite decode_encode_code_point by lia.
      cbn [flat_map]. rewrite Hunits, (IH1 Hwf). reflexivity.
    + destruct (Unicode.is_low_surrogate x) eqn:Hl; [discriminate|].
      cbn [negb andb]. intros Hwf. apply andb_true_iff in Hwf as [Hx Hwf].
      rewrite decode_encode_code_point
        by (apply not_surrogate_scalar; [assumption..|apply N.ltb_lt, Hx]).
      cbn [flat_map]. unfold Unicode.code_units at 1.
      rewrite Hx, (IH2 Hwf). reflexivity.
Qed.

End Utf8.

(** ** [JSON.parse] reads back the text of [JSON.stringify] *)

Section JsonText.

Lemma hex_value_hex_digit (n : N) :
  (n < 16)%N -> URLSearchParams.hex_value (Crypto.hex_digit n) = Some n.
Proof.
  intros Hn. unfold Crypto.hex_digit, URLSearchParams.hex_value.
  destruct (n <? 10)%N eqn:E; [apply N.ltb_lt in E|apply N.ltb_ge in E].
  - assert (((48 <=? 48 + n) && (48 + n <=? 57))%N = true) as ->
      by (apply andb_true_iff; split; apply N.leb_le; lia).
    f_equal. lia.
  - assert (((48 <=? 87 + n) && (87 + n <=? 57))%N = false) as ->
      by (apply andb_false_iff; right; apply N.leb_gt; lia).
    assert (((65 <=? 87 + n) && (87 + n <=? 70))%N = false) as ->
      by (apply andb_false_iff; right; apply N.leb_gt; lia).
    assert (((97 <=? 87 + n) && (87 + n <=? 102))%N = true) as ->
      by (apply andb_true_iff; split; apply N.leb_le; lia).
    f_equal. lia.
Qed.

(** The parts of a code unit in base 16. *)
Lemma base16_parts (c : N) :
  (c < 65536)%N ->
  exists h1 h2 h3 h4,
    (c / 4096 = h1 /\ c / 256 mod 16 = h2 /\ c / 16 mod 16 = h3
     /\ c mod 16 = h4 /\ c = ((h1 * 16 + h2) * 16 + h3) * 16 + h4
     /\ h1 < 16 /\ h2 < 16 /\ h3 < 16 /\ h4 < 16)%N.
Proof.
  intros Hc.
  exists (c / 4096)%N, (c / 256 mod 16)%N, (c / 16 mod 16)%N, (c mod 16)%N.
  assert (c / 256 = c / 16 / 16)%N as E1
    by (rewrite N.Div0.div_div; reflexivity).
  assert (c / 4096 = c / 16 / 16 / 16)%N as E2
    by (rewrite !N.Div0.div_div; reflexivity).
  rewrite E1, E2.
  pose proof (N.div_mod' c 16) as H1.
  pose proof (N.mod_lt c 16 ltac:(discriminate)) as H2.
  pose proof (N.div_mod' (c / 16) 16) as H3.
  pose proof (N.mod_lt (c / 16) 16 ltac:(discriminate)) as H4.
  pose proof (N.div_mod' (c / 16 / 16) 16) as H5.
  pose proof (N.mod_lt (c / 16 / 16) 16 ltac:(discriminate)) as H6.
  generalize dependent (c / 16 / 16 / 16)%N.
  generalize dependent (c / 16 / 16 mod 16)%N.
  generalize dependent (c / 16 / 16)%N.
  generalize dependent (c / 16 mod 16)%N.
  generalize dependent (c mod 16)%N.
  generalize dependent (c / 16)%N.
  intros. repeat split; lia.
Qed.

(** A step of the lexer that completes no token. *)
Lemma lex_silent (st st' : JSON.lex_state) (c : N) (r : jsstring) :
  JSON.lex_step st c = Some ([], st') ->
  JSON.lex st (c :: r) = JSON.lex st' r.
Proof.
  intros H. cbn [JSON.lex]. rewrite H.
  destruct (JSON.lex st' r); reflexivity.
Qed.

(** The lexer reads an escape back to the code unit it stands for. *)
Lemma lex_UnicodeEscape (acc : jsstring) (c : N) (r : jsstring) :
  (c < 65536)%N ->
  JSON.lex (JSON.LString acc) (Wire.UnicodeEscape c ++ r)
  = JSON.lex (JSON.LString (c :: acc)) r.
Proof.
  intros Hc. unfold Wire.UnicodeEscape.
  destruct (base16_parts c Hc)
    as (h1 & h2 & h3 & h4 & -> & -> & -> & -> & Hall & B1 & B2 & B3 & B4).
  cbn [app].
  rewrite (lex_silent _ (JSON.LEscape acc)) by reflexivity.
  rewrite (lex_silent _ (JSON.LUnicode acc 4 0)) by reflexivity.
  rewrite (lex_silent _ (JSON.LUnicode acc 3 (0 * 16 + h1)))
    by (cbn [JSON.lex_step]; rewrite hex_value_hex_digit by assumption;
        reflexivity).
  rewrite (lex_silent _ (JSON.LUnicode acc 2 ((0 * 16 + h1) * 16 + h2)))
    by (cbn [JSON.lex_step]; rewrite hex_value_hex_digit by assumption;
        reflexivity).
  rewrite (lex_silent _ (JSON.LUnicode acc 1
                           (((0 * 16 + h1) * 16 + h2) * 16 + h3)))
    by (cbn [JSON.lex_step]; rewrite hex_value_hex_digit by assumption;
        reflexivity).
  rewrite (lex_silent _ (JSON.LString
                           (((((0 * 16 + h1) * 16 + h2) * 16 + h3) * 16 + h4)%N
                            :: acc)))
    by (cbn [JSON.lex_step]; rewrite hex_value_hex_digit by assumption;
        reflexivity).
  do 3 f_equal. lia.
Qed.

Lemma lex_literal (acc : jsstring) (c : N) (r : jsstring) :
  c <> 34%N -> c <> 92%N -> (32 <= c)%N ->
  JSON.lex (JSON.LString acc) (c :: r) = JSON.lex (JSON.LString (c :: acc)) r.
Proof.
  intros H1 H2 H3. apply lex_silent. cbn [JSON.lex_step].
  apply N.eqb_neq in H1, H2. rewrite H1, H2.
  assert ((c <? 32)%N = false) as -> by (apply N.ltb_ge; exact H3).
  reflexivity.
Qed.

Lemma lex_quote_code_unit (acc : jsstring) (c : N) (r : jsstring) :
  (c < 65536)%N ->
  JSON.lex (JSON.LString acc) (Wire.quote_code_unit c ++ r)
  = JSON.lex (JSON.LString (c :: acc)) r.
Proof.
  intros Hc. unfold Wire.quote_code_unit.
  repeat match goal with
         | |- context [(c =? ?k)%N] =>
             let E := fresh "E" in
             destruct (c =? k)%N eqn:E;
             [apply N.eqb_eq in E; subst c; cbn [app];
              erewrite lex_silent by reflexivity;
              erewrite lex_silent by reflexivity; reflexivity
             |apply N.eqb_neq in E]
         end.
  destruct (c <? 32)%N eqn:E32; [apply lex_UnicodeEscape, Hc|].
  apply N.ltb_ge in E32. apply lex_literal; assumption.
Qed.

(** The lexer reads the quoted code units back to the string. *)
Lemma lex_quote_code_units (s acc r : jsstring) :
  Forall (fun c => (c < 65536)%N) s ->
  JSON.lex (JSON.LString acc) (Wire.quote_code_units s ++ 34%N :: r)
  = JSON.lex (JSON.LString (rev s ++ acc)) (34%N :: r).
Proof.
  revert acc.
  induction s as [|x|x y l IH1 IH2] using list_pair_ind; intros acc Hs.
  - reflexivity.
  - apply Forall_cons_iff in Hs as [Hx _]. cbn [Wire.quote_code_units rev app].
    destruct (Unicode.is_high_surrogate x);
      [|destruct (Unicode.is_low_surrogate x)]; rewrite ?app_nil_r.
    + apply lex_UnicodeEscape, Hx.
    + apply lex_UnicodeEscape, Hx.
    + apply lex_quote_code_unit, Hx.
  - apply Forall_cons_iff in Hs as [Hx Hs]. pose proof Hs as Hyl.
    apply Forall_cons_iff in Hs as [Hy Hl].
    change (Wire.quote_code_units (x :: y :: l))
      with (if Unicode.is_high_surrogate x then
              if Unicode.is_low_surrogate y
              then x :: y :: Wire.quote_code_units l
              else Wire.UnicodeEscape x ++ Wire.quote_code_units (y :: l)
            else if Unicode.is_low_surrogate x
                 then Wire.UnicodeEscape x ++ Wire.quote_code_units (y :: l)
                 else Wire.quote_code_unit x ++ Wire.quote_code_units (y :: l)).
    assert (rev (x :: y :: l) ++ acc = rev (y :: l) ++ x :: acc) as E1
      by (cbn [rev]; rewrite <- !app_assoc; reflexivity).
    assert (rev (x :: y :: l) ++ acc = rev l ++ y :: x :: acc) as E2
      by (cbn [rev]; rewrite <- !app_assoc; reflexivity).
    destruct (Unicode.is_high_surrogate x) eqn:Hh.
    + destruct (Unicode.is_low_surrogate y) eqn:Hlo.
      * apply surrogate_bounds in Hh, Hlo. cbn [app].
        rewrite lex_literal by lia. rewrite lex_literal by lia.
        rewrite IH1 by assumption. rewrite E2. reflexivity.
      * rewrite <- app_assoc, lex_UnicodeEscape by assumption.
        rewrite IH2 by assumption. rewrite E1. reflexivity.
    + destruct (Unicode.is_low_surrogate x).
      * rewrite <- app_assoc, lex_UnicodeEscape by assumption.
        rewrite IH2 by assumption. rewrite E1. reflexivity.
      * rewrite <- app_assoc, lex_quote_code_unit by assumption.
        rewrite IH2 by assumption. rewrite E1. reflexivity.
Qed.

(** A quoted string is read as one string token. *)
Lemma lex_QuoteJSONString (s r : jsstring) :
  Forall (fun c => (c < 65536)%N) s ->
  JSON.lex JSON.LStart (Wire.QuoteJSONString s ++ r)
  = match JSON.lex JSON.LStart r with
    | Some more => Some (JSON.TString s :: more)
    | None => None
    end.
Proof.
  intros Hs. unfold Wire.QuoteJSONString. cbn [app].
  rewrite (lex_silent _ (JSON.LString [])) by reflexivity.
  rewrite <- app_assoc. cbn [app].
  rewrite lex_quote_code_units by assumption.
  cbn [JSON.lex JSON.lex_step]. change (34 =? 34)%N with true. cbv iota.
  rewrite app_nil_r, rev_involutive. reflexivity.
Qed.

Lemma lex_punctuation (c : N) (tok : JSON.token) (r : jsstring) :
  JSON.lex_start c = Some ([tok], JSON.LStart) ->
  JSON.lex JSON.LStart (c :: r)
  = match JSON.lex JSON.LStart r with
    | Some more => Some (tok :: more)
    | None => None
    end.
Proof. intros H. cbn [JSON.lex JSON.lex_step]. rewrite H. reflexivity. Qed.

(** [JSON.parse] reads the text of [JSON.stringify({ initData: s })] back to
    the object. *)
Lemma parse_stringify_initData (s : jsstring) :
  Forall (fun c => (c < 65536)%N) s ->
  JSON.parse (Wire.stringify_initData s)
  = inr (JS.Obj [(str "initData", JS.Str s)]).
Proof.
  intros Hs. unfold JSON.parse, Wire.stringify_initData.
  change ([123%N] ++ ?x) with (123%N :: x).
  change ([58%N] ++ ?x) with (58%N :: x).
  rewrite (lex_punctuation 123 JSON.TLBrace) by reflexivity.
  rewrite lex_QuoteJSONString by (repeat constructor).
  rewrite (lex_punctuation 58 JSON.TColon) by reflexivity.
  rewrite lex_QuoteJSONString by assumption.
  reflexivity.
Qed.

End JsonText.

(** ** The request body on its way *)

Section Transport.

Lemma isWellFormed_cons (c : N) (r : jsstring) :
  Unicode.is_high_surrogate c = false ->
  Unicode.is_low_surrogate c = false ->
  (c < 65536)%N ->
  Wire.isWellFormed (c :: r) = Wire.isWellFormed r.
Proof.
  intros Hh Hl Hc. cbn [Wire.isWellFormed]. rewrite Hh, Hl.
  apply N.ltb_lt in Hc. rewrite Hc. reflexivity.
Qed.

Lemma isWellFormed_ascii (c : N) (r : jsstring) :
  (c < 128)%N -> Wire.isWellFormed (c :: r) = Wire.isWellFormed r.
Proof.
  intros Hc. apply isWellFormed_cons; [| |lia].
  - destruct (Unicode.is_high_surrogate c) eqn:E; [|reflexivity].
    apply surrogate_bounds in E. lia.
  - destruct (Unicode.is_low_surrogate c) eqn:E; [|reflexivity].
    apply surrogate_bounds in E. lia.
Qed.

Lemma isWellFormed_pair (c d : N) (r : jsstring) :
  Unicode.is_high_surrogate c = true ->
  Unicode.is_low_surrogate d = true ->
  Wire.isWellFormed (c :: d :: r) = Wire.isWellFormed r.
Proof. intros Hh Hl. cbn [Wire.isWellFormed]. rewrite Hh, Hl. reflexivity. Qed.

Lemma hex_digit_ascii (n : N) : (n < 16)%N -> (Crypto.hex_digit n < 128)%N.
Proof. intros Hn. unfold Crypto.hex_digit. destruct (n <? 10)%N; lia. Qed.

Lemma isWellFormed_UnicodeEscape (c : N) (r : jsstring) :
  (c < 65536)%N ->
  Wire.isWellFormed (Wire.UnicodeEscape c ++ r) = Wire.isWellFormed r.
Proof.
  intros Hc. unfold Wire.UnicodeEscape.
  destruct (base16_parts c Hc)
    as (h1 & h2 & h3 & h4 & -> & -> & -> & -> & _ & B1 & B2 & B3 & B4).
  cbn [app].
  rewrite !isWellFormed_ascii by (try apply hex_digit_ascii; lia).
  reflexivity.
Qed.

Lemma isWellFormed_quote_code_unit (c : N) (r : jsstring) :
  Unicode.is_high_surrogate c = false ->
  Unicode.is_low_surrogate c = false ->
  (c < 65536)%N ->
  Wire.isWellFormed (Wire.quote_code_unit c ++ r) = Wire.isWellFormed r.
Proof.
  intros Hh Hl Hc. unfold Wire.quote_code_unit.
  repeat match goal with
         | |- context [(c =? ?k)%N] =>
             destruct (c =? k)%N;
             [cbn [app]; rewrite !isWellFormed_ascii by lia; reflexivity|]
         end.
  destruct (c <? 32)%N; [apply isWellFormed_UnicodeEscape, Hc|].
  cbn [app]. apply isWellFormed_cons; assumption.
Qed.

(** The quoted text holds no lone surrogate. *)
Lemma isWellFormed_quote_code_units (s r : jsstring) :
  Forall (fun c => (c < 65536)%N) s ->
  Wire.isWellFormed (Wire.quote_code_units s ++ r) = Wire.isWellFormed r.
Proof.
  induction s as [|x|x y l IH1 IH2] using list_pair_ind; intros Hs.
  - reflexivity.
  - apply Forall_cons_iff in Hs as [Hx _]. cbn [Wire.quote_code_units].
    destruct (Unicode.is_high_surrogate x) eqn:Hh;
      [|destruct (Unicode.is_low_surrogate x) eqn:Hl]; rewrite ?app_nil_r.
    + apply isWellFormed_UnicodeEscape, Hx.
    + apply isWellFormed_UnicodeEscape, Hx.
    + apply isWellFormed_quote_code_unit; assumption.
  - apply Forall_cons_iff in Hs as [Hx Hs]. pose proof Hs as Hyl.
    apply Forall_cons_iff in Hs as [Hy Hl].
    change (Wire.quote_code_units (x :: y :: l))
      with (if Unicode.is_high_surrogate x then
              if Unicode.is_low_surrogate y
              then x :: y :: Wire.quote_code_units l
              else Wire.UnicodeEscape x ++ Wire.quote_code_units (y :: l)
            else if Unicode.is_low_surrogate x
                 then Wire.UnicodeEscape x ++ Wire.quote_code_units (y :: l)
                 else Wire.quote_code_unit x ++ Wire.quote_code_units (y :: l)).
    destruct (Unicode.is_high_surrogate x) eqn:Hh.
    + destruct (Unicode.is_low_surrogate y) eqn:Hlo.
      * cbn [app]. rewrite isWellFormed_pair by assumption. apply IH1, Hl.
      * rewrite <- app_assoc, isWellFormed_UnicodeEscape by assumption.
        apply IH2, Hyl.
    + destruct (Unicode.is_low_surrogate x) eqn:Hlo.
      * rewrite <- app_assoc, isWellFormed_UnicodeEscape by assumption.
        apply IH2, Hyl.
      * rewrite <- app_assoc, isWellFormed_quote_code_unit by assumption.
        apply IH2, Hyl.
Qed.

Lemma isWellFormed_stringify_initData (s : jsstring) :
  Forall (fun c => (c < 65536)%N) s ->
  Wire.isWellFormed (Wire.stringify_initData s) = true.
Proof.
  intros Hs. unfold Wire.stringify_initData, Wire.QuoteJSONString.
  cbn [app]. rewrite isWellFormed_ascii by lia.
  rewrite isWellFormed_ascii by lia. rewrite <- app_assoc.
  rewrite isWellFormed_quote_code_units by (repeat constructor).
  cbn [app]. rewrite !isWellFormed_ascii by lia.
  rewrite <- app_assoc. rewrite isWellFormed_quote_code_units by assumption.
  reflexivity.
Qed.

(** X11. The string that the frontend puts into the body of the request
    reaches the route as it is: the JSON text of
    [JSON.stringify({ initData: rawInitData })], sent as UTF-8 and read by a
    JSON body parser, is the object whose [initData] is [rawInitData], for
    every string of 16-bit code units, lone surrogates, quotes and control
    characters included. *)
Theorem initData_reaches_the_route (rawInitData : jsstring) :
  Forall (fun c => (c < 65536)%N) rawInitData ->
  Wire.express_json (Wire.request_body rawInitData)
  = inr (JS.Obj [(str "initData", JS.Str rawInitData)]).
Proof.
  intros Hs. unfold Wire.express_json, Wire.request_body.
  rewrite utf8_round_trip by (apply isWellFormed_stringify_initData, Hs).
  apply parse_stringify_initData, Hs.
Qed.

End Transport.

(** ** The frontend *)

Section Frontend.

Lemma on_response_refused (B : App.Browser) (r : App.response) :
  App.ok r = false ->
  App.on_response B r = inl (App.new_Error (App.status_message r)).
Proof.
  intros Hok. unfold App.on_response. rewrite Hok. cbn [negb].
  destruct (App.json r) as [m|[]]; try reflexivity;
    destruct (JS.to_string_throws _); reflexivity.
Qed.

(** X12. When the backend answers with a status outside 200-299, the
    message of its answer never reaches the state: whatever the body, the
    [catch] inside the first [then] replaces the error that carries it, and
    the error of the state is the fixed text followed by
    [Backend error! Status: ] and the status. *)
Theorem backend_message_is_not_shown (B : App.Browser) (raw : jsstring)
    (r : App.response) :
  raw <> [] ->
  App.WebApp_initData B = Some raw ->
  App.fetch B (App.BACKEND_URL B ++ str "/api/auth/validate")
    (Wire.stringify_initData raw) = inr r ->
  App.ok r = false ->
  App.initializeMiniApp B
  = {| App.validatedUser := JS.Null;
       App.error :=
         str "Failed to connect or validate with backend. Please check your connection or try again later. Error: "
         ++ str "Backend error! Status: " ++ JS.digits (App.status r);
       App.isLoading := false;
       App.rawInitData := raw |}.
Proof.
  intros Hraw Hinit Hfetch Hok. unfold App.initializeMiniApp.
  rewrite Hinit. destruct raw as [|c raw]; [congruence|].
  cbv zeta. rewrite Hfetch, (on_response_refused B r Hok). reflexivity.
Qed.


End Frontend.

Lemma initData_reaches_the_route_witness :
  Forall (fun c => (c < 65536)%N) Scenarios.awkward
  /\ Wire.express_json (Wire.request_body Scenarios.awkward)
     = inr (JS.Obj [(str "initData", JS.Str Scenarios.awkward)]).
Proof.
  assert (Forall (fun c => (c < 65536)%N) Scenarios.awkward) as H
    by (repeat constructor).
  split; [exact H|]. exact (initData_reaches_the_route _ H).
Defined.

Lemma backend_message_is_not_shown_witness :
  App.initializeMiniApp
    (Scenarios.browser Examples.tampered_payload (inr Scenarios.refusal))
  = {| App.validatedUser := JS.Null;
       App.error :=
         str "Failed to connect or validate with backend. Please check your connection or try again later. Error: "
         ++ str "Backend error! Status: "
         ++ JS.digits (App.status Scenarios.refusal);
       App.isLoading := false;
       App.rawInitData := Examples.tampered_payload |}.
Proof.
  refine (backend_message_is_not_shown
            (Scenarios.browser Examples.tampered_payload
               (inr Scenarios.refusal))
            Examples.tampered_payload Scenarios.refusal _ eq_refl eq_refl
            eq_refl).
  discriminate.
Defined.

(** The answer with a profile puts the app on the main layout; an answer
    with status 200 and no [user] puts it on the error page, with the
    message of the answer. *)
Example settled_app_examples :
  App.render
    (App.initializeMiniApp
       (Scenarios.browser Examples.signed_payload
          (inr Scenarios.profile_answer)))
  = App.main_layout
      (JS.Obj [(str "userId", JS.of_nat 42);
               (str "firstName", JS.Str (str "Ann"));
               (str "tokens", JS.of_nat 0);
               (str "referralCode", JS.Str (str "a60JYSGj"))])
  /\ App.render
       (App.initializeMiniApp
          (Scenarios.browser Examples.signed_payload
             (inr {| App.status := 200;
                     App.json :=
                       inr (JS.Obj [(str "message", JS.Str (str "Busy"))]) |})))
     = App.error_page (str "Backend validation failed: Busy").
Proof. vm_compute. split; reflexivity. Qed.

(** ** The share link *)

Section ShareLink.

Lemma upper_hex_digit_value (n : N) :
  (n < 16)%N ->
  URLSearchParams.hex_value (Share.upper_hex_digit n) = Some n
  /\ Share.component_char (Share.upper_hex_digit n).
Proof.
  intros Hn. unfold Share.upper_hex_digit, URLSearchParams.hex_value,
    Share.component_char.
  destruct (n <? 10)%N eqn:E; [apply N.ltb_lt in E|apply N.ltb_ge in E].
  - assert (((48 <=? 48 + n) && (48 + n <=? 57))%N = true) as ->
      by (apply andb_true_iff; split; apply N.leb_le; lia).
    split; [f_equal; lia|lia].
  - assert (((48 <=? 55 + n) && (55 + n <=? 57))%N = false) as ->
      by (apply andb_false_iff; right; apply N.leb_gt; lia).
    assert (((65 <=? 55 + n) && (55 + n <=? 70))%N = true) as ->
      by (apply andb_true_iff; split; apply N.leb_le; lia).
    split; [f_equal; lia|lia].
Qed.

Lemma uriUnreserved_char (c : N) :
  Share.uriUnreserved c = true -> Share.component_char c /\ c <> 37%N.
Proof.
  unfold Share.uriUnreserved, Share.component_char. intros H.
  rewrite !orb_true_iff, !andb_true_iff, !N.leb_le, !N.eqb_eq in H. lia.
Qed.

(** Percent-decoding reads back the bytes that were percent-encoded. *)
Lemma percent_decode_encode (b rest : bytes) :
  Forall (fun x => (x < 256)%N) b ->
  URLSearchParams.percent_decode (Share.percent_encode b ++ rest)
  = b ++ URLSearchParams.percent_decode rest.
Proof.
  induction 1 as [|x b Hx Hb IH]; [reflexivity|].
  cbn [Share.percent_encode flat_map app].
  fold (Share.percent_encode b).
  cbn [URLSearchParams.percent_decode]. change (37 =? 37)%N with true.
  cbv iota.
  destruct (upper_hex_digit_value (x / 16)) as [-> _];
    [apply N.Div0.div_lt_upper_bound; exact Hx|].
  destruct (upper_hex_digit_value (x mod 16)) as [-> _];
    [apply N.mod_lt; discriminate|].
  rewrite IH. f_equal. pose proof (N.div_mod' x 16) as H. lia.
Qed.

Lemma percent_encode_chars (b : bytes) :
  Forall (fun x => (x < 256)%N) b ->
  Forall Share.component_char (Share.percent_encode b).
Proof.
  induction 1 as [|x b Hx Hb IH]; [constructor|].
  cbn [Share.percent_encode flat_map app]. fold (Share.percent_encode b).
  constructor; [unfold Share.component_char; lia|].
  constructor;
    [apply upper_hex_digit_value, N.Div0.div_lt_upper_bound; exact Hx|].
  constructor; [apply upper_hex_digit_value, N.mod_lt; discriminate|exact IH].
Qed.

Lemma encode_code_point_bytes (cp : N) :
  (cp < 1114112)%N ->
  Forall (fun x => (x < 256)%N) (Unicode.encode_code_point cp).
Proof.
  intros Hcp. unfold Unicode.encode_code_point.
  destruct (base64_parts cp)
    as (a & b & c & d & Hd & Hc & Hb & Ha & Hab & Habc & Hall & Hb' & Hc' & Hd').
  destruct (cp <? 128)%N eqn:E1; [apply N.ltb_lt in E1|apply N.ltb_ge in E1].
  { repeat constructor. lia. }
  destruct (cp <? 2048)%N eqn:E2; [apply N.ltb_lt in E2|apply N.ltb_ge in E2].
  { rewrite Hd, Habc. repeat constructor; lia. }
  destruct (cp <? 65536)%N eqn:E3; [apply N.ltb_lt in E3|apply N.ltb_ge in E3].
  { rewrite Hd, Hc, Hab. repeat constructor; lia. }
  rewrite Hd, Hc, Hb, Ha. repeat constructor; lia.
Qed.

(** An encoded component is made of component characters, and its
    percent-decoding is the UTF-8 encoding of the string. *)
Lemma encodeURIComponent_well_formed (s : jsstring) :
  Wire.isWellFormed s = true ->
  exists e,
    Share.encodeURIComponent s = Some e
    /\ Forall Share.component_char e
    /\ URLSearchParams.percent_decode e = Unicode.utf8_encode s.
Proof.
  assert (forall cp e r,
            (cp < 1114112)%N ->
            Forall Share.component_char e ->
            URLSearchParams.percent_decode e = r ->
            Forall Share.component_char
              (Share.percent_encode (Unicode.encode_code_point cp) ++ e)
            /\ URLSearchParams.percent_decode
                 (Share.percent_encode (Unicode.encode_code_point cp) ++ e)
               = Unicode.encode_code_point cp ++ r) as Hstep.
  { intros cp e r Hcp He <-. split.
    - apply Forall_app. split; [|exact He].
      apply percent_encode_chars, encode_code_point_bytes, Hcp.
    - apply percent_decode_encode, encode_code_point_bytes, Hcp. }
  assert (forall c e r,
            Share.uriUnreserved c = true ->
            Forall Share.component_char e ->
            URLSearchParams.percent_decode e = r ->
            Forall Share.component_char (c :: e)
            /\ URLSearchParams.percent_decode (c :: e)
               = Unicode.encode_code_point c ++ r) as Hplain.
  { intros c e r Hc He <-. apply uriUnreserved_char in Hc as [Hc H37].
    split; [constructor; assumption|].
    cbn [URLSearchParams.percent_decode].
    apply N.eqb_neq in H37. rewrite H37.
    unfold Unicode.encode_code_point.
    assert ((c <? 128)%N = true) as -> by (apply N.ltb_lt, Hc).
    reflexivity. }
  induction s as [|x|x y l IH1 IH2] using list_pair_ind.
  - intros _. exists []. repeat split. constructor.
  - cbn [Wire.isWellFormed Share.encodeURIComponent Unicode.utf8_encode].
    destruct (Unicode.is_high_surrogate x) eqn:Hh; [discriminate|].
    destruct (Unicode.is_low_surrogate x) eqn:Hl; [discriminate|].
    cbn [negb andb option_map]. rewrite andb_true_r. intros Hx.
    apply N.ltb_lt in Hx.
    destruct (Share.uriUnreserved x) eqn:Hu; eexists; (split; [reflexivity|]).
    + apply Hplain; [exact Hu|constructor|reflexivity].
    + apply Hstep; [lia|constructor|reflexivity].
  - rewrite utf8_encode_pair.
    change (Wire.isWellFormed (x :: y :: l))
      with (if Unicode.is_high_surrogate x
            then Unicode.is_low_surrogate y && Wire.isWellFormed l
            else negb (Unicode.is_low_surrogate x) && (x <? 65536)%N
                 && Wire.isWellFormed (y :: l)).
    change (Share.encodeURIComponent (x :: y :: l))
      with (if Unicode.is_high_surrogate x then
              if Unicode.is_low_surrogate y
              then option_map
                     (app (Share.percent_encode
                             (Unicode.encode_code_point
                                (65536 + (x - 55296) * 1024 + (y - 56320))%N)))
                     (Share.encodeURIComponent l)
              else None
            else if Unicode.is_low_surrogate x then None
            else if Share.uriUnreserved x
                 then option_map (cons x) (Share.encodeURIComponent (y :: l))
                 else option_map
                        (app (Share.percent_encode (Unicode.encode_code_point x)))
                        (Share.encodeURIComponent (y :: l))).
    destruct (Unicode.is_high_surrogate x) eqn:Hh.
    + destruct (Unicode.is_low_surrogate y) eqn:Hl; [|discriminate].
      cbn [andb]. intros Hwf.
      destruct (IH1 Hwf) as (e & -> & He & Hd).
      destruct (code_units_pair x y Hh Hl) as [Hcp _].
      eexists. split; [reflexivity|]. apply Hstep; [lia|exact He|exact Hd].
    + destruct (Unicode.is_low_surrogate x) eqn:Hl; [discriminate|].
      cbn [negb andb]. intros Hwf. apply andb_true_iff in Hwf as [Hx Hwf].
      apply N.ltb_lt in Hx.
      destruct (IH2 Hwf) as (e & -> & He & Hd).
      destruct (Share.uriUnreserved x) eqn:Hu; eexists;
        (split; [reflexivity|]).
      * apply Hplain; [exact Hu|exact He|exact Hd].
      * apply Hstep; [lia|exact He|exact Hd].
Qed.

(** A lone surrogate makes [encodeURIComponent] throw. *)
Lemma encodeURIComponent_lone_surrogate (s : jsstring) :
  Forall (fun c => (c < 65536)%N) s ->
  Wire.isWellFormed s = false ->
  Share.encodeURIComponent s = None.
Proof.
  induction s as [|x|x y l IH1 IH2] using list_pair_ind; intros Hs.
  - discriminate.
  - apply Forall_cons_iff in Hs as [Hx _].
    cbn [Wire.isWellFormed Share.encodeURIComponent].
    destruct (Unicode.is_high_surrogate x); [reflexivity|].
    destruct (Unicode.is_low_surrogate x); [reflexivity|].
    apply N.ltb_lt in Hx. rewrite Hx. discriminate.
  - apply Forall_cons_iff in Hs as [Hx Hs]. pose proof Hs as Hyl.
    apply Forall_cons_iff in Hs as [Hy Hl].
    change (Wire.isWellFormed (x :: y :: l))
      with (if Unicode.is_high_surrogate x
            then Unicode.is_low_surrogate y && Wire.isWellFormed l
            else negb (Unicode.is_low_surrogate x) && (x <? 65536)%N
                 && Wire.isWellFormed (y :: l)).
    change (Share.encodeURIComponent (x :: y :: l))
      with (if Unicode.is_high_surrogate x then
              if Unicode.is_low_surrogate y
              then option_map
                     (app (Share.percent_encode
                             (Unicode.encode_code_point
                                (65536 + (x - 55296) * 1024 + (y - 56320))%N)))
                     (Share.encodeURIComponent l)
              else None
            else if Unicode.is_low_surrogate x then None
            else if Share.uriUnreserved x
                 then option_map (cons x) (Share.encodeURIComponent (y :: l))
                 else option_map
                        (app (Share.percent_encode (Unicode.encode_code_point x)))
                        (Share.encodeURIComponent (y :: l))).
    destruct (Unicode.is_high_surrogate x).
    + destruct (Unicode.is_low_surrogate y); [|reflexivity].
      cbn [andb]. intros Hwf. rewrite (IH1 Hl Hwf). reflexivity.
    + destruct (Unicode.is_low_surrogate x); [reflexivity|].
      apply N.ltb_lt in Hx. rewrite Hx. cbn [negb andb]. intros Hwf.
      rewrite (IH2 Hyl Hwf). destruct (Share.uriUnreserved x); reflexivity.
Qed.

Lemma utf8_encode_ascii (s : jsstring) :
  Forall (fun c => (c < 128)%N) s -> Unicode.utf8_encode s = s.
Proof.
  induction 1 as [|c s Hc Hs IH]; [reflexivity|].
  cbn [Unicode.utf8_encode].
  assert (Unicode.is_high_surrogate c = false) as ->.
  { destruct (Unicode.is_high_surrogate c) eqn:E; [|reflexivity].
    apply surrogate_bounds in E. lia. }
  assert (Unicode.is_low_surrogate c = false) as ->.
  { destruct (Unicode.is_low_surrogate c) eqn:E; [|reflexivity].
    apply surrogate_bounds in E. lia. }
  rewrite IH. unfold Unicode.encode_code_point.
  assert ((c <? 128)%N = true) as -> by (apply N.ltb_lt, Hc). reflexivity.
Qed.

Lemma split_first_app (sep : N) (name value : bytes) :
  ~ In sep name ->
  URLSearchParams.split_first sep (name ++ sep :: value) = (name, Some value).
Proof.
  induction name as [|c name IH]; cbn [app URLSearchParams.split_first];
    intros Hn.
  - rewrite N.eqb_refl. reflexivity.
  - assert ((c =? sep)%N = false) as ->
      by (apply N.eqb_neq; cbn in Hn; intuition).
    rewrite IH by (cbn in Hn; intuition). reflexivity.
Qed.

Lemma plus_to_space_component (e : jsstring) :
  Forall Share.component_char e -> URLSearchParams.plus_to_space e = e.
Proof.
  unfold URLSearchParams.plus_to_space.
  induction 1 as [|c e Hc He IH]; [reflexivity|].
  cbn [List.map]. rewrite IH.
  assert ((c =? 43)%N = false) as ->
    by (apply N.eqb_neq; unfold Share.component_char in Hc; lia).
  reflexivity.
Qed.

(** The query parser reads an encoded component back to the string. *)
Lemma decode_component_encodeURIComponent (s e : jsstring) :
  Wire.isWellFormed s = true ->
  Forall Share.component_char e ->
  URLSearchParams.percent_decode e = Unicode.utf8_encode s ->
  URLSearchParams.decode_component e = s.
Proof.
  intros Hwf He Hd. unfold URLSearchParams.decode_component.
  rewrite plus_to_space_component by exact He.
  rewrite Hd. apply utf8_round_trip, Hwf.
Qed.

(** One pair [name=value] of a query, the name being written in letters. *)
Lemma lower_case_letters (name : jsstring) :
  forallb (fun c => (97 <=? c) && (c <=? 122))%N name = true ->
  Forall (fun c => (97 <= c <= 122)%N) name.
Proof.
  intros H. apply List.Forall_forall. intros c Hc.
  rewrite forallb_forall in H. apply H in Hc.
  apply andb_true_iff in Hc as [H1 H2]. apply N.leb_le in H1, H2. lia.
Qed.

Lemma parse_sequence_component (name s e : jsstring) :
  name <> [] ->
  forallb (fun c => (97 <=? c) && (c <=? 122))%N name = true ->
  Wire.isWellFormed s = true ->
  Forall Share.component_char e ->
  URLSearchParams.percent_decode e = Unicode.utf8_encode s ->
  URLSearchParams.parse_sequence (Unicode.utf8_encode (name ++ 61%N :: e))
  = [(name, s)].
Proof.
  intros Hne Hname Hwf He Hd. apply lower_case_letters in Hname.
  assert (Forall (fun c => (c < 128)%N) name) as Hascii
    by (eapply List.Forall_impl; [|exact Hname]; cbn; intros; lia).
  rewrite utf8_encode_ascii.
  2: { apply Forall_app. split; [exact Hascii|].
       constructor; [lia|].
       eapply List.Forall_impl; [|exact He].
       unfold Share.component_char. intros; lia. }
  unfold URLSearchParams.parse_sequence.
  destruct name as [|c name]; [congruence|]. cbn [app].
  change (c :: name ++ 61%N :: e) with ((c :: name) ++ 61%N :: e).
  rewrite split_first_app.
  2: { intros Hin. rewrite List.Forall_forall in Hname.
       apply Hname in Hin. lia. }
  f_equal. f_equal.
  - unfold URLSearchParams.decode_component.
    rewrite plus_to_space_component
      by (eapply List.Forall_impl; [|exact Hname];
          unfold Share.component_char; cbn; intros; lia).
    assert (URLSearchParams.percent_decode (c :: name) = c :: name) as ->.
    { clear Hne Hascii. induction Hname as [|x n Hx Hn IH]; [reflexivity|].
      cbn [URLSearchParams.percent_decode].
      assert ((x =? 37)%N = false) as -> by (apply N.eqb_neq; lia).
      rewrite IH. reflexivity. }
    rewrite <- (utf8_encode_ascii (c :: name)) at 1 by exact Hascii.
    apply utf8_round_trip.
    clear Hne Hname. induction Hascii as [|x n Hx Hn IH]; [reflexivity|].
    rewrite isWellFormed_ascii by exact Hx. exact IH.
  - apply decode_component_encodeURIComponent; assumption.
Qed.

(** X14. The link that the share button opens carries the referral link
    and the text intact: for a referral link with no lone surrogate,
    [encodeURIComponent] does not throw, and a parser of URL queries reads
    the part after [?] back to the two pairs [url], the referral link, and
    [text], the invitation.  A referral link with a lone surrogate makes
    [encodeURIComponent] throw, and no link is opened. *)
Theorem share_link_carries_the_referral_link (link : jsstring) :
  Forall (fun c => (c < 65536)%N) link ->
  if Wire.isWellFormed link then
    exists query,
      Share.share_link link = Some (str "https://t.me/share/url?" ++ query)
      /\ URLSearchParams.of_string query
         = [(str "url", link); (str "text", Share.shareText)]
  else Share.share_link link = None.
Proof.
  intros Hlink. unfold Share.share_link, Share.share_query.
  destruct (Wire.isWellFormed link) eqn:Hwf.
  2: { rewrite (encodeURIComponent_lone_surrogate link Hlink Hwf).
       reflexivity. }
  destruct (encodeURIComponent_well_formed link Hwf) as (u & -> & Hu & Hdu).
  destruct (encodeURIComponent_well_formed Share.shareText eq_refl)
    as (t & -> & Ht & Hdt).
  eexists. split; [reflexivity|].
  change (str "url=" ++ u ++ str "&text=" ++ t)
    with (Verifier.join [38%N] [str "url" ++ 61%N :: u; str "text" ++ 61%N :: t]).
  assert (forall e, Forall Share.component_char e -> ~ In 38%N e) as Hamp.
  { intros e He Hin. rewrite List.Forall_forall in He. apply He in Hin.
    unfold Share.component_char in Hin. lia. }
  rewrite of_string_join.
  2: { assert (forall name e,
                 forallb (fun c => (97 <=? c) && (c <=? 122))%N name = true ->
                 Forall Share.component_char e ->
                 ~ In 38%N (name ++ 61%N :: e)) as Hseg.
       { intros name e Hname He Hin. apply lower_case_letters in Hname.
         apply in_app_or in Hin as [Hin|[Hin|Hin]].
         - rewrite List.Forall_forall in Hname. apply Hname in Hin. lia.
         - discriminate Hin.
         - exact (Hamp e He Hin). }
       constructor; [split; [|discriminate]|].
       { apply Hseg; [reflexivity|exact Hu]. }
       constructor; [split; [|discriminate]|constructor].
       apply Hseg; [reflexivity|exact Ht]. }
  cbn [flat_map].
  rewrite (parse_sequence_component (str "url") link u),
    (parse_sequence_component (str "text") Share.shareText t);
    try assumption; try reflexivity; discriminate.
Qed.

End ShareLink.

Lemma share_link_carries_the_referral_link_witness :
  Forall (fun c => (c < 65536)%N) Scenarios.cyrillic_link
  /\ exists query,
       Share.share_link Scenarios.cyrillic_link
       = Some (str "https://t.me/share/url?" ++ query)
       /\ URLSearchParams.of_string query
          = [(str "url", Scenarios.cyrillic_link);
             (str "text", Share.shareText)].
Proof.
  assert (Forall (fun c => (c < 65536)%N) Scenarios.cyrillic_link) as H
    by (repeat constructor).
  split; [exact H|].
  exact (share_link_carries_the_referral_link Scenarios.cyrillic_link H).
Defined.

(** ** The referral code and the key of the document *)

Section Codes.

(** A string of unreserved characters is its own encoding and its own
    decoding. *)
Lemma unreserved_string (s : jsstring) :
  Forall (fun c => Share.uriUnreserved c = true) s ->
  Wire.isWellFormed s = true
  /\ Forall Share.component_char s
  /\ URLSearchParams.percent_decode s = Unicode.utf8_encode s
  /\ Share.encodeURIComponent s = Some s.
Proof.
  intros Hs.
  assert (Forall (fun c => (c < 128)%N) s) as Hascii.
  { eapply List.Forall_impl; [|exact Hs]. cbn. intros c Hc.
    apply uriUnreserved_char in Hc as [Hc _].
    unfold Share.component_char in Hc. lia. }
  rewrite utf8_encode_ascii by exact Hascii. clear Hascii.
  induction Hs as [|c s Hc Hs (IH1 & IH2 & IH3 & IH4)];
    [repeat split; constructor|].
  pose proof (uriUnreserved_char c Hc) as [Hchar H37].
  assert (Unicode.is_high_surrogate c = false) as Hh.
  { destruct (Unicode.is_high_surrogate c) eqn:E; [|reflexivity].
    apply surrogate_bounds in E. unfold Share.component_char in Hchar. lia. }
  assert (Unicode.is_low_surrogate c = false) as Hl.
  { destruct (Unicode.is_low_surrogate c) eqn:E; [|reflexivity].
    apply surrogate_bounds in E. unfold Share.component_char in Hchar. lia. }
  split; [|split; [|split]].
  - rewrite isWellFormed_ascii; [exact IH1|].
    unfold Share.component_char in Hchar. lia.
  - constructor; assumption.
  - cbn [URLSearchParams.percent_decode]. apply N.eqb_neq in H37.
    rewrite H37, IH3. reflexivity.
  - destruct s as [|d s]; cbn [Share.encodeURIComponent] in *;
      rewrite Hh, Hl, Hc; [reflexivity|].
    rewrite IH4. reflexivity.
Qed.

Lemma urlAlphabet_unreserved :
  forallb Share.uriUnreserved Server.urlAlphabet = true.
Proof. reflexivity. Qed.

(** X15. A referral code made by [nanoid] needs no encoding: the query
    [start=code] of the referral link, where the code is written as it is,
    is read by a parser of URL queries as the one pair [start], the code;
    and [encodeURIComponent] leaves the code as it is. *)
Theorem referral_code_needs_no_encoding (random : nat -> N) (size : nat)
    (unsafe : option jsstring) :
  let code := Server.nanoid random size in
  Share.referralLink unsafe code
  = str "https://t.me/" ++ Share.botUsername unsafe ++ str "?"
    ++ str "start=" ++ code
  /\ URLSearchParams.of_string (str "start=" ++ code) = [(str "start", code)]
  /\ Share.encodeURIComponent code = Some code.
Proof.
  cbv zeta. split; [reflexivity|].
  assert (Forall (fun c => Share.uriUnreserved c = true)
            (Server.nanoid random size)) as Hcode.
  { eapply List.Forall_impl; [|apply nanoid_alphabet]. cbn. intros c Hc.
    pose proof urlAlphabet_unreserved as H.
    rewrite forallb_forall in H. apply H, Hc. }
  destruct (unreserved_string _ Hcode) as (Hwf & Hchars & Hdec & Henc).
  split; [|exact Henc].
  change (str "start=" ++ Server.nanoid random size)
    with (Verifier.join [38%N] [str "start" ++ 61%N :: Server.nanoid random size]).
  rewrite of_string_join.
  - cbn [flat_map]. rewrite app_nil_r.
    apply parse_sequence_component;
      try assumption; try reflexivity; discriminate.
  - constructor; [split; [|discriminate]|constructor].
    intros Hin. apply in_app_or in Hin as [Hin|[Hin|Hin]].
    + vm_compute in Hin. intuition discriminate.
    + discriminate Hin.
    + rewrite List.Forall_forall in Hchars. apply Hchars in Hin.
      unfold Share.component_char in Hin. lia.
Qed.

(** The digits of a number are read back by [parseInt]'s loop. *)
Lemma leading_digits_digits (n : N) :
  JS.leading_digits (JS.digits n) None = Some (Z.of_N n).
Proof.
  unfold JS.digits.
  destruct (digits_fuel_value (S (N.to_nat (N.log2 n))) n [])
    as (ds & Hds & Hd & Hv).
  { rewrite Nat2N.inj_succ, N2Nat.id.
    destruct n as [|p]; [reflexivity|].
    eapply N.lt_le_trans; [apply N.log2_spec; reflexivity|].
    apply N.pow_le_mono_l. lia. }
  assert (JS.digits_fuel (S (N.to_nat (N.log2 n))) n [] <> []) as Hne.
  { cbn [JS.digits_fuel]. destruct (n <? 10)%N; [discriminate|].
    apply digits_fuel_not_empty. discriminate. }
  rewrite Hds, app_nil_r in *.
  rewrite leading_digits_value by assumption.
  unfold JS.decimal_value in Hv. rewrite Hv. reflexivity.
Qed.

(** The string of an integer is read back to it by [parseInt]. *)
Lemma parseInt_String (n : JS.number) (key : jsstring) :
  JS.String (JS.Num n) = Some key ->
  exists a, JS.safe_integer n = Some a /\ JS.parseInt key = Some a.
Proof.
  cbn [JS.String]. destruct (JS.safe_integer n) as [a|]; [|discriminate].
  intros [= <-]. exists a. split; [reflexivity|].
  destruct (a <? 0)%Z eqn:E; [apply Z.ltb_lt in E|apply Z.ltb_ge in E].
  - cbn [app]. unfold JS.parseInt.
    change (JS.skip_white_space (45%N :: ?r)) with (45%N :: r).
    change (45 =? 45)%N with true. cbv iota.
    rewrite leading_digits_digits. cbn [option_map]. f_equal. lia.
  - cbn [app]. rewrite digits_parseInt. f_equal. lia.
Qed.

(** X16. Two claims whose ids are integers are stored under the same key
    of the [users] collection only if the ids are the same integer: the key
    [String(telegramUser.id)] is read back to the id by [parseInt]. *)
Theorem distinct_ids_get_distinct_documents (n m : JS.number)
    (userIdString : jsstring) :
  JS.String (JS.Num n) = Some userIdString ->
  JS.String (JS.Num m) = Some userIdString ->
  exists id,
    JS.safe_integer n = Some id /\ JS.safe_integer m = Some id
    /\ JS.parseInt userIdString = Some id.
Proof.
  intros Hn Hm.
  apply parseInt_String in Hn as (a & Ha & Hpa).
  apply parseInt_String in Hm as (b & Hb & Hpb).
  exists a. split; [exact Ha|]. split; [|exact Hpa]. congruence.
Qed.

End Codes.

Lemma distinct_ids_get_distinct_documents_witness :
  JS.String (JS.Num {| JS.negative := false; JS.mantissa := 42;
                       JS.exponent := 0 |}) = Some (str "42")
  /\ JS.String (JS.Num {| JS.negative := false; JS.mantissa := 420;
                          JS.exponent := -1 |}) = Some (str "42")
  /\ exists id,
       JS.safe_integer {| JS.negative := false; JS.mantissa := 42;
                          JS.exponent := 0 |} = Some id
       /\ JS.safe_integer {| JS.negative := false; JS.mantissa := 420;
                             JS.exponent := -1 |} = Some id
       /\ JS.parseInt (str "42") = Some id.
Proof.
  split; [reflexivity|]. split; [reflexivity|].
  exact (distinct_ids_get_distinct_documents
           {| JS.negative := false; JS.mantissa := 42; JS.exponent := 0 |}
           {| JS.negative := false; JS.mantissa := 420; JS.exponent := -1 |}
           (str "42") eq_refl eq_refl).
Defined.

(** ** Payloads that are signed as the protocol says *)

Section SignedPayloads.

Variable now : Z.

(** A pair written as [name=value] is read back by the parser. *)
Lemma parse_sequence_pair (name value n v : jsstring) :
  Wire.isWellFormed name = true -> Wire.isWellFormed value = true ->
  Forall Share.component_char n -> Forall Share.component_char v ->
  URLSearchParams.percent_decode n = Unicode.utf8_encode name ->
  URLSearchParams.percent_decode v = Unicode.utf8_encode value ->
  URLSearchParams.parse_sequence (Unicode.utf8_encode (n ++ 61%N :: v))
  = [(name, value)].
Proof.
  intros Hwn Hwv Hn Hv Hdn Hdv.
  rewrite utf8_encode_ascii.
  2: { apply Forall_app. split.
       - eapply List.Forall_impl; [|exact Hn].
         unfold Share.component_char. intros; lia.
       - constructor; [lia|]. eapply List.Forall_impl; [|exact Hv].
         unfold Share.component_char. intros; lia. }
  assert (~ In 61%N n) as H61.
  { intros Hin. rewrite List.Forall_forall in Hn. apply Hn in Hin.
    unfold Share.component_char in Hin. lia. }
  unfold URLSearchParams.parse_sequence.
  rewrite split_first_app by exact H61.
  rewrite (decode_component_encodeURIComponent name n),
    (decode_component_encodeURIComponent value v) by assumption.
  destruct n; reflexivity.
Qed.

(** The segments of well-formed pairs are read back to the pairs. *)
Lemma segments_parse (pairs : URLSearchParams.t) :
  Forall (fun p => Wire.isWellFormed (fst p) = true
                   /\ Wire.isWellFormed (snd p) = true) pairs ->
  exists segs,
    Share.segments pairs = Some segs
    /\ Forall (fun s => ~ In 38%N s /\ hd_error s <> Some 63%N) segs
    /\ flat_map (fun s => URLSearchParams.parse_sequence (Unicode.utf8_encode s))
         segs = pairs.
Proof.
  induction 1 as [|[name value] pairs [Hwn Hwv] Hp (segs & Hs & Hok & Hparse)].
  - exists []. repeat split. constructor.
  - cbn [fst snd] in Hwn, Hwv.
    destruct (encodeURIComponent_well_formed name Hwn) as (n & En & Hn & Hdn).
    destruct (encodeURIComponent_well_formed value Hwv) as (v & Ev & Hv & Hdv).
    exists ((n ++ 61%N :: v) :: segs). cbn [Share.segments].
    rewrite En, Ev, Hs. split; [reflexivity|]. split.
    + constructor; [|exact Hok]. split.
      * intros Hin. apply in_app_or in Hin as [Hin|[Hin|Hin]].
        -- rewrite List.Forall_forall in Hn. apply Hn in Hin.
           unfold Share.component_char in Hin. lia.
        -- discriminate Hin.
        -- rewrite List.Forall_forall in Hv. apply Hv in Hin.
           unfold Share.component_char in Hin. lia.
      * destruct Hn as [|c n Hc Hn]; cbn; [discriminate|].
        intros [= ->]. unfold Share.component_char in Hc. lia.
    + cbn [flat_map]. rewrite Hparse.
      rewrite (parse_sequence_pair name value) by assumption. reflexivity.
Qed.

(** The parser reads a written query back to its pairs. *)
Lemma of_string_query_of (pairs : URLSearchParams.t) :
  Forall (fun p => Wire.isWellFormed (fst p) = true
                   /\ Wire.isWellFormed (snd p) = true) pairs ->
  exists text,
    Share.query_of pairs = Some text
    /\ URLSearchParams.of_string text = pairs.
Proof.
  intros Hp. destruct (segments_parse pairs Hp) as (segs & Hs & Hok & Hparse).
  exists (Verifier.join [38%N] segs). unfold Share.query_of. rewrite Hs.
  split; [reflexivity|]. rewrite of_string_join by exact Hok. exact Hparse.
Qed.

Lemma isWellFormed_all_ascii (s : jsstring) :
  Forall (fun c => (c < 128)%N) s -> Wire.isWellFormed s = true.
Proof.
  induction 1 as [|c s Hc Hs IH]; [reflexivity|].
  rewrite isWellFormed_ascii by exact Hc. exact IH.
Qed.

Lemma delete_absent (name : jsstring) (pairs : URLSearchParams.t) :
  Forall (fun p => fst p <> name) pairs ->
  URLSearchParams.delete name pairs = pairs
  /\ URLSearchParams.get name pairs = None.
Proof.
  induction 1 as [|[k v] pairs Hk Hp [IH1 IH2]]; [split; reflexivity|].
  cbn [fst] in Hk. apply eqb_neq in Hk.
  unfold URLSearchParams.delete in *.
  cbn [List.filter URLSearchParams.get fst]. rewrite Hk. cbn [negb].
  rewrite IH1. split; [reflexivity|exact IH2].
Qed.

(** X19. Every list of claims can be signed so that the verifier accepts
    it.  For a secret that is not empty and pairs of well-formed strings,
    none of them named [hash], there is a payload that the parser reads as
    these pairs followed by [hash] with the hex HMAC of their data-check
    string; on Node its verdict is the one of the user extraction alone,
    whatever [auth_date] says, and it is valid with the claim when the first
    [user] value is JSON of a claim whose [id] can be printed. *)
Theorem signed_payload_is_accepted (botToken : jsstring)
    (pairs : URLSearchParams.t) :
  botToken <> [] ->
  Forall (fun p => Wire.isWellFormed (fst p) = true
                   /\ Wire.isWellFormed (snd p) = true
                   /\ fst p <> str "hash") pairs ->
  let hash :=
    Spec.calculated_hash botToken (URLSearchParams.sort pairs) in
  exists initData,
    URLSearchParams.of_string initData = pairs ++ [(str "hash", hash)]
    /\ fst (Verifier.isValidTelegramData (Node now) initData botToken)
       = fst (Verifier.extract_user (Node now) (URLSearchParams.sort pairs))
    /\ forall userJson claim,
         URLSearchParams.get (str "user") pairs = Some userJson ->
         JSON.parse userJson = inr claim ->
         JS.to_string_throws (JS.get claim (str "id")) = false ->
         fst (Verifier.isValidTelegramData (Node now) initData botToken)
         = {| Verifier.valid := true; Verifier.user := claim;
              Verifier.error := None |}.
Proof.
  intros Hb Hpairs hash.
  assert (Wire.isWellFormed hash = true) as Hwh.
  { apply isWellFormed_all_ascii. unfold hash, Spec.calculated_hash.
    eapply List.Forall_impl;
      [|apply hex_lower_case; unfold Crypto.hmac_sha256; apply sha256_bytes].
    cbn. intros; lia. }
  destruct (of_string_query_of (pairs ++ [(str "hash", hash)]))
    as (initData & Hq & Hparse).
  { apply Forall_app. split.
    - eapply List.Forall_impl; [|exact Hpairs]. cbn. tauto.
    - constructor; [|constructor]. cbn [fst snd]. split; [reflexivity|exact Hwh]. }
  assert (Forall (fun p => fst p <> str "hash") pairs) as Hnames
    by (eapply List.Forall_impl; [|exact Hpairs]; cbn; tauto).
  destruct (delete_absent (str "hash") pairs Hnames) as [Hdel Hget].
  assert (Spec.signed_pairs initData = pairs) as Hsigned.
  { unfold Spec.signed_pairs. rewrite Hparse.
    unfold URLSearchParams.delete in *. rewrite List.filter_app, Hdel.
    cbn [List.filter fst]. rewrite eqb_refl. cbn [negb].
    apply app_nil_r. }
  assert (fst (Verifier.isValidTelegramData (Node now) initData botToken)
          = fst (Verifier.extract_user (Node now) (URLSearchParams.sort pairs)))
    as Hverdict.
  { rewrite isValidTelegramData_Node; [|intros ->; destruct pairs; discriminate
                                       |exact Hb].
    rewrite Hparse, (get_first _ _ _ [] Hget), Hsigned. fold hash.
    destruct hash as [|c h] eqn:Hh;
      [exfalso; revert Hh; apply calculated_hash_not_empty|].
    rewrite eqb_refl. reflexivity. }
  exists initData. split; [exact Hparse|]. split; [exact Hverdict|].
  intros userJson claim Hu Hp Hid. rewrite Hverdict, extract_user_Node, get_sort, Hu.
  destruct userJson as [|cu u]; [discriminate Hp|]. rewrite Hp, Hid. reflexivity.
Qed.

End SignedPayloads.

Lemma signed_payload_is_accepted_witness :
  exists initData,
    URLSearchParams.of_string initData
    = [(str "auth_date", str "1700000000");
       (str "user", [123; 34; 105; 100; 34; 58; 52; 50; 125]%N)]
      ++ [(str "hash",
           Spec.calculated_hash Examples.secret
             (URLSearchParams.sort
                [(str "auth_date", str "1700000000");
                 (str "user", [123; 34; 105; 100; 34; 58; 52; 50; 125]%N)]))]
    /\ fst (Verifier.isValidTelegramData (Node 1700000001000) initData
              Examples.secret)
       = {| Verifier.valid := true;
            Verifier.user := JS.Obj [(str "id", JS.of_nat 42)];
            Verifier.error := None |}.
Proof.
  destruct (signed_payload_is_accepted 1700000001000 Examples.secret
              [(str "auth_date", str "1700000000");
               (str "user", [123; 34; 105; 100; 34; 58; 52; 50; 125]%N)])
    as (initData & Hq & _ & Hvalid).
  - discriminate.
  - repeat constructor; cbn [fst]; discriminate.
  - exists initData. split; [exact Hq|].
    apply (Hvalid [123; 34; 105; 100; 34; 58; 52; 50; 125]%N); reflexivity.
Defined.
